(** * AI-validated game contract: a shallow embedding of the consensus core

    The development follows the C++ sources of the game engine:
    - [Str]: the [std::string] operations the code relies on;
    - [AIDaemon]: the marker extraction that ends [AIDaemon::processPlayerAction];
    - [AIJury]: [ai_jury_module.cpp] (decision engine, votes, consensus);
    - [Contract]: [ai_contract.cpp] (file store, game ids, NFT trigger,
      [process_game_message], [juryUserResponse], the consensus wait loop);
    - [JuryRun], [JuryWire]: votes delivered in sequence, [Vote::toJson] and
      [Vote::fromJson];
    - [Generation]: the accumulation loop of the game daemon;
    - [Output]: [escapeJsonForOutput];
    - [ValidationDaemon]: how the validation daemon reads the model's answer;
    - [NFTMinting]: the inventory strings of the NFT minting client;
    - [ModelDownloader]: the chunked download of the model file.

    Conventions.  A [std::string] is a [string]; [std::string::npos] is [None].
    C++ [int] counters are unbounded [Z] (a round never sees 2^31 votes).
    A [double] confidence is an exact rational [Q]: no statement below depends
    on rounding.  JSON texts built and re-read inside one process (votes, the
    consensus response, the replies written to the user) are represented by
    the values they denote; the replies of the daemons, which come from
    outside, are modelled by the outcome of [nlohmann::json::parse] on them. *)

From Stdlib Require Import String Ascii ZArith QArith Lia DecimalString.
From stdpp Require Import base option list gmap strings.

Close Scope Q_scope.
Local Open Scope string_scope.
Set Warnings "-register-all".

(** ** [std::string] helpers *)

Module Str.

(** [s.find(needle, pos)] *)
Definition find (s needle : string) (pos : nat) : option nat :=
  String.index pos needle s.

(** [s.find(needle) != std::string::npos] *)
Definition contains (s needle : string) : bool :=
  match find s needle 0 with Some _ => true | None => false end.

(** [s.substr(pos)] *)
Definition substr_from (s : string) (pos : nat) : string :=
  String.substring pos (String.length s - pos) s.

(** [::tolower] in the C locale *)
Definition tolower_char (c : ascii) : ascii :=
  let n := nat_of_ascii c in
  if (65 <=? n)%nat && (n <=? 90)%nat then ascii_of_nat (n + 32) else c.

(** [std::transform(s.begin(), s.end(), s.begin(), ::tolower)] *)
Fixpoint tolower (s : string) : string :=
  match s with
  | EmptyString => EmptyString
  | String c r => String (tolower_char c) (tolower r)
  end.

Definition empty (s : string) : bool :=
  match s with EmptyString => true | _ => false end.

Definition tab : ascii := "009"%char.
Definition lf : ascii := "010"%char.
Definition cr : ascii := "013"%char.
Definition nl : string := String lf EmptyString.

(** Position of the first character that fails [p]: [find_first_not_of]. *)
Fixpoint find_first_not (p : ascii -> bool) (s : string) : option nat :=
  match s with
  | EmptyString => None
  | String c r => if p c then S <$> find_first_not p r else Some 0%nat
  end.

(** Position of the last character that fails [p]: [find_last_not_of]. *)
Fixpoint find_last_not (p : ascii -> bool) (s : string) : option nat :=
  match s with
  | EmptyString => None
  | String c r =>
      match find_last_not p r with
      | Some i => Some (S i)
      | None => if p c then None else Some 0%nat
      end
  end.

(** Every character of [s] satisfies [p]. *)
Fixpoint all_chars (p : ascii -> bool) (s : string) : bool :=
  match s with
  | EmptyString => true
  | String c r => p c && all_chars p r
  end.

Definition first_char (s : string) : option ascii := String.get 0 s.
Definition last_char (s : string) : option ascii :=
  String.get (String.length s - 1) s.

(** Decimal rendering, [std::to_string] on an unsigned value. *)
Definition to_string (n : N) : string := NilZero.string_of_uint (N.to_uint n).

End Str.

(** ** The inference daemon: extraction of the player state block *)

Module AIDaemon.

Definition begin_marker_text : string := "<<BEGIN_PLAYER_STATE>>".
Definition end_marker_text : string := "<<END_PLAYER_STATE>>".

(** The characters of [" \t\n\r"]. *)
Definition is_space (c : ascii) : bool :=
  Ascii.eqb c " "%char || Ascii.eqb c Str.tab || Ascii.eqb c Str.lf
  || Ascii.eqb c Str.cr.

(** The loop
[[
  while ((search_pos = ai_response.find(begin_marker_text, search_pos)) != npos) {
      begin_marker = search_pos; search_pos++; }
]]
    Every iteration moves [search_pos] strictly forward, so
    [S (length ai_response)] iterations are enough. *)
Fixpoint last_begin_loop (fuel : nat) (ai_response : string)
    (search_pos : nat) (begin_marker : option nat) : option nat :=
  match fuel with
  | O => begin_marker
  | S fuel' =>
      match Str.find ai_response begin_marker_text search_pos with
      | None => begin_marker
      | Some p => last_begin_loop fuel' ai_response (S p) (Some p)
      end
  end.

Definition last_begin (ai_response : string) : option nat :=
  last_begin_loop (S (String.length ai_response)) ai_response 0 None.

(** The accumulation loop of [generateResponse] and [generateResponseContinue],
    which produce [ai_response]:
[[
  std::string token_str(buf, n);
  response += token_str;
  if (response.find("<<END_PLAYER_STATE>>") != npos) break;
  if (response.find("<|eot_id|>") != npos) break;
]]
    [pieces] are the pieces ([llama_token_to_piece], at most 128 bytes each)
    of the tokens sampled until the loop ends for another reason: an
    end-of-generation token, [max_tokens], the context size, a failed decode. *)
Fixpoint generate (pieces : list string) (response : string) : string :=
  match pieces with
  | [] => response
  | token_str :: pieces' =>
      let response := response ++ token_str in
      if Str.contains response end_marker_text then response
      else if Str.contains response "<|eot_id|>" then response
      else generate pieces' response
  end.

(** The trimming of [clean_response]. *)
Definition trim (clean_response : string) : string :=
  match Str.find_first_not is_space clean_response with
  | None => ""
  | Some start =>
      match Str.find_last_not is_space clean_response with
      | None => ""
      | Some e => String.substring start (e - start + 1) clean_response
      end
  end.

(** The post-processing shared by both generation modes of
    [AIDaemon::processPlayerAction], applied to the raw model output. *)
Definition extractPlayerState (ai_response : string) : string :=
  match last_begin ai_response with
  | None => ai_response
  | Some begin_marker =>
      let content_start := (begin_marker + String.length begin_marker_text)%nat in
      match Str.find ai_response end_marker_text content_start with
      | None => ai_response
      | Some end_marker =>
          trim (String.substring content_start (end_marker - content_start)
                  ai_response)
      end
  end.

(** *** What the extraction is meant to compute *)

(** [needle] occurs in [s] at position [p]. *)
Definition occurs (needle s : string) (p : nat) : Prop :=
  String.substring p (String.length needle) s = needle.

Definition last_occurrence (needle s : string) (p : nat) : Prop :=
  occurs needle s p /\ forall q, occurs needle s q -> q <= p.

Definition first_occurrence_from (needle s : string) (from p : nat) : Prop :=
  from <= p /\ occurs needle s p
  /\ forall q, from <= q -> occurs needle s q -> p <= q.

(** [t] is [s] without its leading and trailing whitespace. *)
Definition trimmed_of (s t : string) : Prop :=
  exists l r,
    s = l ++ t ++ r
    /\ Str.all_chars is_space l = true /\ Str.all_chars is_space r = true
    /\ (forall c, Str.first_char t = Some c -> is_space c = false)
    /\ (forall c, Str.last_char t = Some c -> is_space c = false).

(** [t] is the trimmed text between the last begin marker of [s] and the
    first end marker after it. *)
Definition marker_block (s t : string) : Prop :=
  exists b e,
    last_occurrence begin_marker_text s b
    /\ first_occurrence_from end_marker_text s
         (b + String.length begin_marker_text) e
    /\ trimmed_of
         (String.substring (b + String.length begin_marker_text)
            (e - (b + String.length begin_marker_text)) s) t.

(** Some begin marker of [s] is followed by an end marker. *)
Definition has_marker_pair (s : string) : Prop :=
  exists b e,
    occurs begin_marker_text s b /\ occurs end_marker_text s e
    /\ b + String.length begin_marker_text <= e.

(** The last begin marker of [s] is followed by an end marker. *)
Definition last_begin_closed (s : string) : Prop :=
  exists b e,
    last_occurrence begin_marker_text s b /\ occurs end_marker_text s e
    /\ b + String.length begin_marker_text <= e.

(** The extraction rule with "some begin marker followed by an end marker"
    as the condition. *)
Definition extraction_on_any_pair (s : string) : Prop :=
  (has_marker_pair s -> marker_block s (extractPlayerState s))
  /\ (~ has_marker_pair s -> extractPlayerState s = s).

End AIDaemon.

(** ** The AI jury: [ai_jury_module.h], [ai_jury_module.cpp] *)

Module AIJury.

(** [const hp_user*]: the index of the user in the round's user list.  The
    contract only ever passes pointers into that list, never null. *)
Definition User := nat.

(** *** JSON values and the [nlohmann::json] accessors used by the engine *)

Inductive json : Type :=
| JNull
| JBool (b : bool)
| JNumber (q : Q)
| JString (s : string)
| JArray (items : list json)
| JObject (fields : list (string * json)).

(** A thrown [std::exception], with its [what()]. *)
Inductive exn : Type := Exception (what : string).

Definition what (e : exn) : string := match e with Exception w => w end.

(** Results of code that may throw. *)
Definition Except (A : Type) : Type := exn + A.

Definition throw {A} (w : string) : Except A := inl (Exception w).
Definition ok {A} (a : A) : Except A := inr a.
Definition bind {A B} (m : Except A) (k : A -> Except B) : Except B :=
  match m with inl e => inl e | inr a => k a end.

Notation "'try!' x := m 'in' k" := (bind m (fun x => k))
  (at level 10, x name, m at level 100, k at level 200).

Definition type_name (j : json) : string :=
  match j with
  | JNull => "null" | JBool _ => "boolean" | JNumber _ => "number"
  | JString _ => "string" | JArray _ => "array" | JObject _ => "object"
  end.

Fixpoint assoc (key : string) (fields : list (string * json)) : option json :=
  match fields with
  | [] => None
  | (k, v) :: rest => if String.eqb k key then Some v else assoc key rest
  end.

(** [j.contains(key)]: false on anything but an object. *)
Definition contains (j : json) (key : string) : bool :=
  match j with
  | JObject fields => match assoc key fields with Some _ => true | None => false end
  | _ => false
  end.

(** [v.get<std::string>()], [v.get<bool>()], [v.get<double>()]:
    [type_error.302] when the value has another type. *)
Definition get_string (v : json) : Except string :=
  match v with
  | JString s => ok s
  | _ => throw ("[json.exception.type_error.302] type must be string, but is "
                ++ type_name v)
  end.

Definition get_bool (v : json) : Except bool :=
  match v with
  | JBool b => ok b
  | _ => throw ("[json.exception.type_error.302] type must be boolean, but is "
                ++ type_name v)
  end.

Definition get_double (v : json) : Except Q :=
  match v with
  | JNumber q => ok q
  | _ => throw ("[json.exception.type_error.302] type must be number, but is "
                ++ type_name v)
  end.

(** [j.value(key, default)]: [type_error.306] unless [j] is an object. *)
Definition value {A} (get : json -> Except A) (j : json) (key : string)
    (default : A) : Except A :=
  match j with
  | JObject fields =>
      match assoc key fields with Some v => get v | None => ok default end
  | _ => throw ("[json.exception.type_error.306] cannot use value() with "
                ++ type_name j)
  end.

(** [j[key]] on a key the object holds. *)
Definition at_key (j : json) (key : string) : json :=
  match j with
  | JObject fields => default JNull (assoc key fields)
  | _ => JNull
  end.

(** [if (j.contains(key)) { x = j[key].get<T>(); }]: the new value of [x],
    if any. *)
Definition get_if_present {A} (get : json -> Except A) (j : json)
    (key : string) : Except (option A) :=
  if contains j key then bind (get (at_key j key)) (fun a => ok (Some a))
  else ok None.

(** *** Decisions and votes *)

Record Decision : Type := mkDecision {
  d_isValid : bool;
  d_confidence : Q;
  d_reason : string;
  d_metadata : string
}.

Record Vote : Type := mkVote {
  v_requestId : Z;
  v_isValid : bool;
  v_confidence : Q;
  v_reason : string;
  v_juryId : string;
  v_context : string
}.

Record RequestState : Type := mkRequestState {
  rs_user : User;
  rs_requestId : Z;
  rs_messageType : string;
  rs_messageData : string;
  rs_context : string;
  resolved : bool;
  received : Z;
  tally : Z * Z;              (* [invalid_count, valid_count] *)
  confidenceSum : Q * Q
}.

(** *** The validator daemon seen from the engine *)

Inductive DaemonRequest : Type :=
| PingRequest                               (* {"type":"ping"} *)
| ValidateRequest (statement : string).     (* {"type":"validate","statement":...} *)

Record DaemonIO : Type := mkDaemonIO {
  pingAIDaemon : bool;                        (* the TCP connect test *)
  sendToAIDaemon : DaemonRequest -> string;   (* the reply text *)
  json_parse : string -> Except json          (* nlohmann::json::parse *)
}.

(** The three assignments of every fallback path. *)
Definition fallback (decision : Decision) (reason : string) : Decision :=
  {| d_isValid := true; d_confidence := 1 # 10; d_reason := reason;
     d_metadata := d_metadata decision |}.

(** The daemon status test of [makeDecision]: [inr None] when the daemon is
    ready, [inr (Some status)] when it is not, [inl _] when the [try] block
    throws.  The second [value] is only evaluated when the status is "ready". *)
Definition check_ready (io : DaemonIO) : Except (option string) :=
  try! resp := json_parse io (sendToAIDaemon io PingRequest) in
  try! status := value get_string resp "status" "" in
  if negb (String.eqb status "ready") then ok (Some status)
  else
    try! loaded := value get_bool resp "model_loaded" false in
    if negb loaded then ok (Some status) else ok None.

(** [AIModelDecisionEngine::makeDecision] *)
Definition makeDecision (io : DaemonIO)
    (messageType messageData context : string) : Decision :=
  let decision :=
    {| d_isValid := false; d_confidence := 0; d_reason := "AI model not available";
       d_metadata := "" |} in
  if negb (pingAIDaemon io) then fallback decision "AI daemon not running"
  else
    match check_ready io with
    | inl _ => fallback decision "Failed to parse daemon status"
    | inr (Some status) =>
        fallback decision ("AI model not ready (" ++ status ++ ")")
    | inr None =>
        let response := sendToAIDaemon io (ValidateRequest messageData) in
        let attempt : Except Decision :=
          try! aiResponse := json_parse io response in
          if contains aiResponse "error" then
            try! err := get_string (at_key aiResponse "error") in
            ok (fallback decision ("AI error: " ++ err))
          else
            try! v := get_if_present get_bool aiResponse "valid" in
            try! c := get_if_present get_double aiResponse "confidence" in
            try! r := get_if_present get_string aiResponse "reason" in
            ok {| d_isValid := default (d_isValid decision) v;
                  d_confidence := default (d_confidence decision) c;
                  d_reason := default (d_reason decision) r;
                  d_metadata := response |} in
        match attempt with
        | inr d => d
        | inl e => fallback decision ("Failed to parse AI response: " ++ what e)
        end
    end.

(** *** The jury module *)

Record AIJuryModule : Type := mkAIJuryModule {
  activeRequests : list RequestState;
  juryId : string
}.

(** The consensus object built by [sendConsensusResult] ... *)
Record ConsensusDetails : Type := mkConsensusDetails {
  cd_requestId : Z;
  cd_decision : string;
  cd_confidence : Q;
  cd_validVotes : Z;
  cd_invalidVotes : Z;
  cd_totalVotes : Z;
  cd_messageType : string
}.

(** ... and its wrapping by [formatJuryResponse]. *)
Record JuryResponse : Type := mkJuryResponse {
  jr_type : string;
  jr_decision : string;
  jr_confidence : Q;
  jr_details : ConsensusDetails;
  jr_timestamp : Z
}.

(** [AIJuryModule::findRequest]: the first active request with this id, with
    its position in [activeRequests] standing for the returned pointer. *)
Definition findRequest (requestId : Z) (m : AIJuryModule)
    : option (nat * RequestState) :=
  list_find (fun r => rs_requestId r = requestId) (activeRequests m).

(** The [RequestState] that [processRequest] creates. *)
Definition newRequest (user : User) (messageType messageData : string)
    (requestId : Z) (context : string) : RequestState :=
  {| rs_user := user; rs_requestId := requestId;
     rs_messageType := messageType; rs_messageData := messageData;
     rs_context := context; resolved := false; received := 0;
     tally := (0, 0)%Z; confidenceSum := (0, 0)%Q |}.

(** [AIJuryModule::processRequest]; the returned vote is the one handed to
    [nplBroadcast]. *)
Definition processRequest (io : DaemonIO) (user : User)
    (messageType messageData : string) (requestId peerCount : Z)
    (context : string) (m : AIJuryModule) : AIJuryModule * Vote :=
  let state := newRequest user messageType messageData requestId context in
  let decision := makeDecision io messageType messageData context in
  let vote :=
    {| v_requestId := requestId; v_isValid := d_isValid decision;
       v_confidence := d_confidence decision; v_reason := d_reason decision;
       v_juryId := juryId m; v_context := context |} in
  ({| activeRequests := (activeRequests m ++ [state])%list;
      juryId := juryId m |}, vote).

(** The "update consensus tracking" block of [processVote]. *)
Definition countVote (vote : Vote) (state : RequestState) : RequestState :=
  {| rs_user := rs_user state; rs_requestId := rs_requestId state;
     rs_messageType := rs_messageType state;
     rs_messageData := rs_messageData state; rs_context := rs_context state;
     resolved := resolved state;
     received := received state + 1;
     tally := if v_isValid vote
              then (fst (tally state), snd (tally state) + 1)%Z
              else (fst (tally state) + 1, snd (tally state))%Z;
     confidenceSum :=
       if v_isValid vote
       then (fst (confidenceSum state),
             snd (confidenceSum state) + v_confidence vote)%Q
       else (fst (confidenceSum state) + v_confidence vote,
             snd (confidenceSum state))%Q |}.

Definition markResolved (state : RequestState) : RequestState :=
  {| rs_user := rs_user state; rs_requestId := rs_requestId state;
     rs_messageType := rs_messageType state;
     rs_messageData := rs_messageData state; rs_context := rs_context state;
     resolved := true; received := received state; tally := tally state;
     confidenceSum := confidenceSum state |}.

(** [sendConsensusResult] with [formatJuryResponse]: the text passed to the
    [userResponse] callback. *)
Definition sendConsensusResult (now : Z) (state : RequestState)
    (majorityValid : bool) (avgConfidence : Q)
    (validVotes invalidVotes totalVotes : Z) : JuryResponse :=
  let decision := if majorityValid then "valid" else "invalid" in
  {| jr_type := "consensus"; jr_decision := decision;
     jr_confidence := avgConfidence;
     jr_details :=
       {| cd_requestId := rs_requestId state; cd_decision := decision;
          cd_confidence := avgConfidence; cd_validVotes := validVotes;
          cd_invalidVotes := invalidVotes; cd_totalVotes := totalVotes;
          cd_messageType := rs_messageType state |};
     jr_timestamp := now |}.

(** [AIJuryModule::processVote] on the vote [Vote::fromJson] returns.  The
    second component is the call of the [userResponse] callback, if any. *)
Definition processVote (now : Z) (vote : Vote) (peerCount : Z)
    (m : AIJuryModule) : AIJuryModule * option (User * JuryResponse) :=
  match findRequest (v_requestId vote) m with
  | None => (m, None)
  | Some (i, state0) =>
      let state := countVote vote state0 in
      if (peerCount <=? received state)%Z then
        let validVotes := snd (tally state) in
        let invalidVotes := fst (tally state) in
        let majorityValid := (invalidVotes <? validVotes)%Z in
        let avgConfidence :=
          ((fst (confidenceSum state) + snd (confidenceSum state))
           / inject_Z (received state))%Q in
        ({| activeRequests := <[i := markResolved state]> (activeRequests m);
            juryId := juryId m |},
         Some (rs_user state,
               sendConsensusResult now state majorityValid avgConfidence
                 validVotes invalidVotes (received state)))
      else
        ({| activeRequests := <[i := state]> (activeRequests m);
            juryId := juryId m |}, None)
  end.

(** [AIJuryModule::isConsensusReached] *)
Definition isConsensusReached (requestId : Z) (m : AIJuryModule) : bool :=
  match findRequest requestId m with
  | Some (_, req) => resolved req
  | None => false
  end.

(** *** Conditions on the validator daemon *)

(** The daemon answers the status request with status "ready" and a loaded
    model. *)
Definition daemon_ready (io : DaemonIO) : Prop :=
  exists fields,
    json_parse io (sendToAIDaemon io PingRequest) = inr (JObject fields)
    /\ assoc "status" fields = Some (JString "ready")
    /\ assoc "model_loaded" fields = Some (JBool true).

(** A parsed validation reply the engine reads without an exception: no
    "error" member, and "valid", "confidence" and "reason", when present, a
    boolean, a number and a string. *)
Definition reply_readable (aiResponse : json) : Prop :=
  contains aiResponse "error" = false
  /\ (contains aiResponse "valid" = true ->
      exists b, at_key aiResponse "valid" = JBool b)
  /\ (contains aiResponse "confidence" = true ->
      exists q, at_key aiResponse "confidence" = JNumber q)
  /\ (contains aiResponse "reason" = true ->
      exists r, at_key aiResponse "reason" = JString r).

(** The validator can be used for [statement]: it accepts the connection,
    reports ready, and its reply to the validation request parses to a
    readable value. *)
Definition validator_usable (io : DaemonIO) (statement : string) : Prop :=
  pingAIDaemon io = true
  /\ daemon_ready io
  /\ exists aiResponse,
       json_parse io (sendToAIDaemon io (ValidateRequest statement))
       = inr aiResponse
       /\ reply_readable aiResponse.

(** The reasons the fallback paths give. *)
Definition fallback_reason (reason : string) : Prop :=
  reason = "AI daemon not running"
  \/ reason = "Failed to parse daemon status"
  \/ (exists status, reason = "AI model not ready (" ++ status ++ ")")
  \/ (exists err, reason = "AI error: " ++ err)
  \/ (exists w, reason = "Failed to parse AI response: " ++ w).

(** *** Vote counting, one request at a time *)


(** The response dispatched when [state], just counted, reaches consensus. *)
Definition consensusOf (now : Z) (state : RequestState) : JuryResponse :=
  sendConsensusResult now state (fst (tally state) <? snd (tally state))%Z
    ((fst (confidenceSum state) + snd (confidenceSum state))
     / inject_Z (received state))%Q
    (snd (tally state)) (fst (tally state)) (received state).

(** The tally after one more vote with the verdict [valid]. *)
Definition bump (valid : bool) (t : Z * Z) : Z * Z :=
  if valid then (fst t, snd t + 1)%Z else (fst t + 1, snd t)%Z.

(** The counters of the request a vote addresses, if it is active. *)
Definition counters (requestId : Z) (m : AIJuryModule)
    : option (Z * Z * Z * bool) :=
  (fun '(_, r) => (fst (tally r), snd (tally r), received r, resolved r))
    <$> findRequest requestId m.

(** Vote idempotence at one input: a second delivery of [vote] leaves the
    counters where the first left them, and a vote for a resolved request
    dispatches nothing. *)
Definition vote_idempotent_at (now : Z) (vote : Vote) (peerCount : Z)
    (m : AIJuryModule) : Prop :=
  let m1 := (processVote now vote peerCount m).1 in
  let second := processVote now vote peerCount m1 in
  counters (v_requestId vote) second.1 = counters (v_requestId vote) m1
  /\ (isConsensusReached (v_requestId vote) m1 = true -> second.2 = None).

End AIJury.

(** ** The contract orchestrator: [ai_contract.cpp] *)

Module Contract.

Import AIJury.

(** *** The game data directory *)

Inductive FileKind : Type := WorldFile | StateFile | NftFile.

(** The JSON object of an [nft_<gameId>.json] file.  [nft_tokens] is empty
    when the key is absent. *)
Record NFTRecord : Type := mkNFTRecord {
  nft_game_id : string;
  completion_time : Z;
  winning_action : string;
  nft_status : string;
  final_location : string;
  final_health : string;
  final_score : string;
  player_inventory : string;
  nft_tokens : list string
}.

Inductive NftContent : Type :=
| NftData (r : NFTRecord)
| NftUnparseable (what : string).    (* text that [json::parse] rejects *)

(** [game_data/]: the three families of files, by game id, and whether a
    [std::ofstream] on a file opens.  A file missing from a map does not
    exist; reading a missing file and reading an empty one both give [""]. *)
Record FileStore : Type := mkFileStore {
  worlds : gmap string string;           (* game_world_<id>.txt *)
  states : gmap string string;           (* game_state_<id>.txt *)
  nfts : gmap string NftContent;         (* nft_<id>.json *)
  writable : FileKind -> string -> bool
}.

Definition set_worlds (w : gmap string string) (fs : FileStore) : FileStore :=
  {| worlds := w; states := states fs; nfts := nfts fs; writable := writable fs |}.
Definition set_states (s : gmap string string) (fs : FileStore) : FileStore :=
  {| worlds := worlds fs; states := s; nfts := nfts fs; writable := writable fs |}.
Definition set_nfts (n : gmap string NftContent) (fs : FileStore) : FileStore :=
  {| worlds := worlds fs; states := states fs; nfts := n; writable := writable fs |}.

(** *** [GameStateManager] *)

Definition saveGameWorld (gameId gameWorld : string) (fs : FileStore)
    : bool * FileStore :=
  if writable fs WorldFile gameId
  then (true, set_worlds (<[gameId := gameWorld]> (worlds fs)) fs)
  else (false, fs).

Definition saveGameState (gameId gameState : string) (fs : FileStore)
    : bool * FileStore :=
  if writable fs StateFile gameId
  then (true, set_states (<[gameId := gameState]> (states fs)) fs)
  else (false, fs).

Definition loadGameWorld (gameId : string) (fs : FileStore) : string :=
  default "" (worlds fs !! gameId).

Definition loadGameState (gameId : string) (fs : FileStore) : string :=
  default "" (states fs !! gameId).

(** [listGames]: the ids of the [game_world_*.txt] files whose name is longer
    than 15 characters, that is, whose id is not empty.  The directory order
    is unspecified; the map order stands for it. *)
Definition listGames (fs : FileStore) : list string :=
  filter (fun gameId => gameId <> "") (map_to_list (worlds fs)).*1.

(** [generateGameId]; [std_hash] is [std::hash<std::string>]. *)
Definition generateGameId (std_hash : string -> N) (fs : FileStore)
    (userPrompt userIdHex : string) : string :=
  let existingGames := listGames fs in
  let gameNumber := N.of_nat (length existingGames + 1) in
  let hashInput := userPrompt ++ userIdHex in
  let hash := std_hash hashInput in
  "game_" ++ Str.to_string gameNumber ++ "_" ++ Str.to_string (hash mod 100000)%N.

(** The lines [std::getline] reads from a stream over [s]. *)
Fixpoint getlines (s : string) : list string :=
  match s with
  | EmptyString => []
  | String c r =>
      if Ascii.eqb c Str.lf then EmptyString :: getlines r
      else match getlines r with
           | [] => [String c EmptyString]
           | line :: rest => String c line :: rest
           end
  end.

Record Separation : Type := mkSeparation {
  worldContent : string;
  stateContent : string;
  inWorldSection : bool;
  inStateSection : bool
}.

Definition any_contains (s : string) (needles : list string) : bool :=
  existsb (Str.contains s) needles.

(** The body of the [while (std::getline(stream, line))] loop. *)
Definition separateLine (acc : Separation) (line : string) : Separation :=
  let lowerLine := Str.tolower line in
  if any_contains lowerLine
       ["game title:"; "world description:"; "world lore:"; "objectives:";
        "win conditions:"; "game rules:"]
  then {| worldContent := worldContent acc ++ line ++ Str.nl;
          stateContent := stateContent acc;
          inWorldSection := true; inStateSection := false |}
  else if any_contains lowerLine
            ["current situation:"; "location:"; "starting status:"]
  then {| worldContent := worldContent acc;
          stateContent := stateContent acc ++ line ++ Str.nl;
          inWorldSection := false; inStateSection := true |}
  else if inWorldSection acc
  then {| worldContent := worldContent acc ++ line ++ Str.nl;
          stateContent := stateContent acc;
          inWorldSection := inWorldSection acc;
          inStateSection := inStateSection acc |}
  else if inStateSection acc
  then {| worldContent := worldContent acc;
          stateContent := stateContent acc ++ line ++ Str.nl;
          inWorldSection := inWorldSection acc;
          inStateSection := inStateSection acc |}
  else if negb (Str.empty line)
  then
    if any_contains lowerLine
         ["you are"; "you have"; "you find yourself"; "currently"; "health";
          "inventory"; "score"]
    then {| worldContent := worldContent acc;
            stateContent := stateContent acc ++ line ++ Str.nl;
            inWorldSection := inWorldSection acc;
            inStateSection := inStateSection acc |}
    else {| worldContent := worldContent acc ++ line ++ Str.nl;
            stateContent := stateContent acc;
            inWorldSection := inWorldSection acc;
            inStateSection := inStateSection acc |}
  else acc.

(** [separateGameContent] *)
Definition separateGameContent (fullGameContent : string) : string * string :=
  let acc :=
    fold_left separateLine (getlines fullGameContent)
      {| worldContent := ""; stateContent := "";
         inWorldSection := false; inStateSection := false |} in
  let stateContent' :=
    if Str.empty (stateContent acc)
    then "Current Situation: You are just beginning your adventure." ++ Str.nl
         ++ "Location: Starting location" ++ Str.nl
         ++ "Starting Status: You are ready to begin." ++ Str.nl
    else stateContent acc in
  let worldContent' :=
    if Str.empty (worldContent acc) then fullGameContent else worldContent acc in
  (worldContent', stateContent').

(** *** [ValuableItemExtractor] *)

(** Number of leading characters of [s] that satisfy [p]. *)
Fixpoint leading (p : ascii -> bool) (s : string) : nat :=
  match s with
  | String c r => if p c then S (leading p r) else 0%nat
  | EmptyString => 0%nat
  end.

(** [while (!value.empty() && p(value.back())) value.pop_back();] *)
Fixpoint drop_trailing (p : ascii -> bool) (value : string) : string :=
  match value with
  | EmptyString => EmptyString
  | String c r =>
      match drop_trailing p r with
      | EmptyString => if p c then EmptyString else String c EmptyString
      | r' => String c r'
      end
  end.

Definition is_blank (c : ascii) : bool :=
  Ascii.eqb c " "%char || Ascii.eqb c Str.tab.

Definition is_trailing_blank (c : ascii) : bool :=
  Ascii.eqb c " "%char || Ascii.eqb c Str.tab || Ascii.eqb c Str.cr.

(** [extractField] *)
Definition extractField (gameState fieldName : string) : string :=
  match Str.find gameState fieldName 0 with
  | None => ""
  | Some found =>
      let pos0 := (found + String.length fieldName)%nat in
      let pos := (pos0 + leading is_blank (Str.substr_from gameState pos0))%nat in
      let endPos :=
        match Str.find gameState Str.nl pos with
        | Some e => e
        | None => String.length gameState
        end in
      drop_trailing is_trailing_blank
        (String.substring pos (endPos - pos) gameState)
  end.

(** [extractPlayerInventory]: the NFT data file of a won game.  [now] is the
    clock reading used for [completion_time]. *)
Definition extractPlayerInventory (now : Z)
    (gameId gameState playerAction : string) (fs : FileStore)
    : bool * FileStore :=
  let nftData :=
    {| nft_game_id := gameId;
       completion_time := now;
       winning_action := playerAction;
       nft_status := "won";
       final_location := extractField gameState "Player_Location:";
       final_health := extractField gameState "Player_Health:";
       final_score := extractField gameState "Player_Score:";
       player_inventory := extractField gameState "Player_Inventory:";
       nft_tokens := [] |} in
  if writable fs NftFile gameId
  then (true, set_nfts (<[gameId := NftData nftData]> (nfts fs)) fs)
  else (false, fs).

(** *** The NFT minting client, as far as the contract sees it *)

Record NFTMintResult : Type := mkNFTMintResult {
  item_name : string;
  mr_success : bool;
  uritoken_id : string;
  transaction_hash : string;
  metadata_uri : string;
  error_message : string
}.

Record NFTMintBatch : Type := mkNFTMintBatch {
  batch_success : bool;
  batch_timestamp : Z;
  total_requested : Z;
  successful_mints : Z;
  failed_mints : Z;
  first_success_hash : string;
  results : list NFTMintResult
}.

(** [NFTMintingClient::isAlreadyMinted] *)
Definition isAlreadyMinted (nftData : NFTRecord) : bool :=
  String.eqb (nft_status nftData) "minted"
  || match nft_tokens nftData with [] => false | _ => true end.

(** *** Messages written to the user *)

Inductive MintOutcome : Type :=
| AlreadyMinted
| MintBatch (mintResult : NFTMintBatch)
| MintParseError (what : string).

Inductive UserMsg : Type :=
| MsgError (error : string)
| MsgGameCreated (game_id status : string)
| MsgGamesList (games : list string)
| MsgGameState (game_id state : string)
| MsgJury (response : JuryResponse)
| MsgEnhanced (response : JuryResponse)
    (game_id player_action game_state action_result : string)
| MsgNftMint (game_id : string) (outcome : MintOutcome).

(** *** What one call of [process_game_message] sees of the outside *)

Record Env : Type := mkEnv {
  isDaemonRunning : bool;            (* AIServiceClient::isDaemonRunning() *)
  isModelReady : bool;               (* AIServiceClient::isModelReady() *)
  createGame : string -> string;     (* reply of the game daemon *)
  daemonPlayerAction : string -> string -> string -> string -> bool -> string;
  juryDaemon : DaemonIO;             (* the validator daemon *)
  std_hash : string -> N;
  now : Z;                           (* the clock *)
  hp_context : option bool;          (* hp_get_context(): its [readonly] flag *)
  mintNFTsForGame : string -> NFTRecord -> NFTMintBatch
}.

(** *** The state of the contract process *)

Record GameActionState : Type := mkGameActionState {
  gas_user : User;
  gameId : string;
  action : string;
  playerAction : string;
  oldGameState : string;
  newGameState : string;
  gameWorld : string;
  continue_conversation : bool;
  action_idx : Z
}.

(** The global variables, the data directory and the three output channels:
    [hp_write_user_msg], [hp_write_npl_msg] and the calls of the minting
    client.  A [bool] global tells whether the pointer is set; [g_aiJury] is
    always set, [main] dereferences it before any message is read. *)
Record Node : Type := mkNode {
  g_aiClient : bool;
  g_gameManager : bool;
  g_valuableItemExtractor : bool;
  g_nftMintingClient : bool;
  g_aiJury : AIJuryModule;
  g_gameActionHandlers : list GameActionState;
  fs : FileStore;
  user_msgs : list (User * UserMsg);
  npl_msgs : list Vote;
  mint_calls : list string
}.

Definition set_fs (f : FileStore) (c : Node) : Node :=
  {| g_aiClient := g_aiClient c; g_gameManager := g_gameManager c;
     g_valuableItemExtractor := g_valuableItemExtractor c;
     g_nftMintingClient := g_nftMintingClient c; g_aiJury := g_aiJury c;
     g_gameActionHandlers := g_gameActionHandlers c; fs := f;
     user_msgs := user_msgs c; npl_msgs := npl_msgs c;
     mint_calls := mint_calls c |}.

Definition set_aiJury (m : AIJuryModule) (c : Node) : Node :=
  {| g_aiClient := g_aiClient c; g_gameManager := g_gameManager c;
     g_valuableItemExtractor := g_valuableItemExtractor c;
     g_nftMintingClient := g_nftMintingClient c; g_aiJury := m;
     g_gameActionHandlers := g_gameActionHandlers c; fs := fs c;
     user_msgs := user_msgs c; npl_msgs := npl_msgs c;
     mint_calls := mint_calls c |}.

(** [hp_write_user_msg] *)
Definition hp_write_user_msg (user : User) (msg : UserMsg) (c : Node) : Node :=
  {| g_aiClient := g_aiClient c; g_gameManager := g_gameManager c;
     g_valuableItemExtractor := g_valuableItemExtractor c;
     g_nftMintingClient := g_nftMintingClient c; g_aiJury := g_aiJury c;
     g_gameActionHandlers := g_gameActionHandlers c; fs := fs c;
     user_msgs := (user_msgs c ++ [(user, msg)])%list; npl_msgs := npl_msgs c;
     mint_calls := mint_calls c |}.

(** [hp_write_npl_msg], through [juryNPLBroadcast] *)
Definition hp_write_npl_msg (vote : Vote) (c : Node) : Node :=
  {| g_aiClient := g_aiClient c; g_gameManager := g_gameManager c;
     g_valuableItemExtractor := g_valuableItemExtractor c;
     g_nftMintingClient := g_nftMintingClient c; g_aiJury := g_aiJury c;
     g_gameActionHandlers := g_gameActionHandlers c; fs := fs c;
     user_msgs := user_msgs c; npl_msgs := (npl_msgs c ++ [vote])%list;
     mint_calls := mint_calls c |}.

Definition push_handler (state : GameActionState) (c : Node) : Node :=
  {| g_aiClient := g_aiClient c; g_gameManager := g_gameManager c;
     g_valuableItemExtractor := g_valuableItemExtractor c;
     g_nftMintingClient := g_nftMintingClient c; g_aiJury := g_aiJury c;
     g_gameActionHandlers := (g_gameActionHandlers c ++ [state])%list;
     fs := fs c; user_msgs := user_msgs c; npl_msgs := npl_msgs c;
     mint_calls := mint_calls c |}.

Definition record_mint_call (game_id : string) (c : Node) : Node :=
  {| g_aiClient := g_aiClient c; g_gameManager := g_gameManager c;
     g_valuableItemExtractor := g_valuableItemExtractor c;
     g_nftMintingClient := g_nftMintingClient c; g_aiJury := g_aiJury c;
     g_gameActionHandlers := g_gameActionHandlers c; fs := fs c;
     user_msgs := user_msgs c; npl_msgs := npl_msgs c;
     mint_calls := (mint_calls c ++ [game_id])%list |}.

(** *** [juryUserResponse]: the callback the jury calls on consensus *)

Definition findHandler (requestId : Z) (c : Node) : option GameActionState :=
  snd <$> list_find (fun handler => action_idx handler = requestId)
            (g_gameActionHandlers c).

(** The branch taken for a [player_action] handler. *)
Definition enhanceResponse (env : Env) (user : User) (response : JuryResponse)
    (validAction : bool) (gameState : GameActionState) (c : Node) : Node :=
  if validAction && negb (Str.empty (newGameState gameState)) then
    let c1 :=
      if Str.contains (newGameState gameState) "Game_Status: won" then
        if g_valuableItemExtractor c then
          set_fs (extractPlayerInventory (now env) (gameId gameState)
                    (newGameState gameState) (playerAction gameState) (fs c)).2 c
        else c
      else c in
    hp_write_user_msg user
      (MsgEnhanced response (gameId gameState) (playerAction gameState)
         (newGameState gameState) "success") c1
  else
    let c1 :=
      if negb (Str.empty (gameId gameState))
         && negb (Str.empty (oldGameState gameState))
      then set_fs (saveGameState (gameId gameState) (oldGameState gameState)
                     (fs c)).2 c
      else c in
    hp_write_user_msg user
      (MsgEnhanced response (gameId gameState) (playerAction gameState)
         (oldGameState gameState) "failed") c1.

Definition juryUserResponse (env : Env) (user : User) (response : JuryResponse)
    (c : Node) : Node :=
  let original := hp_write_user_msg user (MsgJury response) c in
  if String.eqb (jr_type response) "consensus" then
    let consensusDetails := jr_details response in
    if String.eqb (cd_messageType consensusDetails) "validate_game_action" then
      let requestId := cd_requestId consensusDetails in
      let validAction := String.eqb (cd_decision consensusDetails) "valid" in
      match findHandler requestId c with
      | Some gameState =>
          if String.eqb (action gameState) "player_action"
          then enhanceResponse env user response validAction gameState c
          else original
      | None => original
      end
    else original
  else original.

(** [process_jury_vote] *)
Definition process_jury_vote (env : Env) (vote : Vote) (peer_count : Z)
    (c : Node) : Node :=
  let '(jury, callback) := processVote (now env) vote peer_count (g_aiJury c) in
  let c1 := set_aiJury jury c in
  match callback with
  | Some (user, response) => juryUserResponse env user response c1
  | None => c1
  end.

(** [waitForJuryConsensus], run against the votes [npl] that
    [hp_read_npl_msg] delivers, in order.  The third component tells whether
    the loop was left; when the votes run out first the real loop goes on
    polling until the host ends the round. *)
Fixpoint waitForJuryConsensus (env : Env) (npl : list Vote)
    (request_idx peer_count : Z) (c : Node) : Node * list Vote * bool :=
  if isConsensusReached request_idx (g_aiJury c) then (c, npl, true)
  else
    match npl with
    | [] => (c, [], false)
    | voteJson :: rest =>
        waitForJuryConsensus env rest request_idx peer_count
          (process_jury_vote env voteJson peer_count c)
    end.

(** *** [process_game_message] *)

(** The error-keyword test on the answer of the game daemon. *)
Definition isErrorResponse (actionResult : string) : bool :=
  let lowerResponse := Str.tolower actionResult in
  Str.contains lowerResponse "error:"
  || Str.contains lowerResponse "failed"
  || Str.contains lowerResponse "invalid"
  || Str.contains lowerResponse "cannot"
  || Str.empty actionResult.

(** What the [player_action] branch leaves behind: the handler [state], the
    local variables that go into the jury context, and the data directory. *)
Record PlayerActionSetup : Type := mkPlayerActionSetup {
  pa_state : GameActionState;
  pa_playerActionText : string;
  pa_oldGameState : string;
  pa_newGameState : string;
  pa_fs : FileStore
}.

(** The split of ["game_id:action:continue"] (or ["game_id:action"]), when
    the payload has a colon. *)
Definition parsePlayerData (data : string) : option (string * string * bool) :=
  match Str.find data ":" 0 with
  | None => None
  | Some colonPos =>
      let gameId := String.substring 0 colonPos data in
      match Str.find data ":" (colonPos + 1) with
      | Some secondColonPos =>
          let playerActionText :=
            String.substring (colonPos + 1) (secondColonPos - colonPos - 1) data in
          let continueStr := Str.substr_from data (secondColonPos + 1) in
          Some (gameId, playerActionText,
                String.eqb continueStr "true" || String.eqb continueStr "1")
      | None => Some (gameId, Str.substr_from data (colonPos + 1), false)
      end
  end.

Definition setupPlayerAction (env : Env) (user : User) (data : string)
    (idx : Z) (store : FileStore) : PlayerActionSetup :=
  match parsePlayerData data with
  | None =>
      {| pa_state :=
           {| gas_user := user; gameId := ""; action := "player_action";
              playerAction := data; oldGameState := ""; newGameState := "";
              gameWorld := ""; continue_conversation := false;
              action_idx := idx |};
         pa_playerActionText := ""; pa_oldGameState := "";
         pa_newGameState := ""; pa_fs := store |}
  | Some (gameId, playerActionText, continue_conversation) =>
      let oldGameState := loadGameState gameId store in
      let gameWorld := loadGameWorld gameId store in
      if Str.empty oldGameState || Str.empty gameWorld then
        {| pa_state :=
             {| gas_user := user; gameId := gameId; action := "player_action";
                playerAction := playerActionText;
                oldGameState := oldGameState; newGameState := oldGameState;
                gameWorld := gameWorld;
                continue_conversation := continue_conversation;
                action_idx := idx |};
           pa_playerActionText := playerActionText;
           pa_oldGameState := oldGameState; pa_newGameState := "";
           pa_fs := store |}
      else
        let actionResult :=
          daemonPlayerAction env gameId playerActionText oldGameState
            gameWorld continue_conversation in
        if negb (Str.empty actionResult) && negb (isErrorResponse actionResult)
        then
          {| pa_state :=
               {| gas_user := user; gameId := gameId;
                  action := "player_action"; playerAction := playerActionText;
                  oldGameState := oldGameState; newGameState := actionResult;
                  gameWorld := gameWorld; continue_conversation := false;
                  action_idx := idx |};
             pa_playerActionText := playerActionText;
             pa_oldGameState := oldGameState; pa_newGameState := actionResult;
             pa_fs := (saveGameState gameId actionResult store).2 |}
        else
          {| pa_state :=
               {| gas_user := user; gameId := gameId;
                  action := "player_action"; playerAction := playerActionText;
                  oldGameState := oldGameState; newGameState := oldGameState;
                  gameWorld := gameWorld; continue_conversation := false;
                  action_idx := idx |};
             pa_playerActionText := playerActionText;
             pa_oldGameState := oldGameState; pa_newGameState := "";
             pa_fs := store |}
  end.

(** The text handed to the jury as the statement to validate. *)
Definition transitionContext (gameWorld oldGameState playerActionText
    newGameState : string) : string :=
  "GameWorld: " ++ gameWorld ++ " -> OldState: " ++ oldGameState
  ++ " -> PlayerAction: " ++ playerActionText ++ " -> NewState: " ++ newGameState.

(** The [create_game] branch. *)
Definition createGameBranch (env : Env) (user : User) (data : string)
    (c : Node) : Node :=
  let aiResponse := createGame env data in
  if negb (Str.empty aiResponse) then
    let gameId := generateGameId (std_hash env) (fs c) data "" in
    let '(gameWorldContent, gameStateContent) := separateGameContent aiResponse in
    let '(savedWorld, fs1) := saveGameWorld gameId gameWorldContent (fs c) in
    if savedWorld then
      let '(savedState, fs2) := saveGameState gameId gameStateContent fs1 in
      if savedState
      then hp_write_user_msg user (MsgGameCreated gameId "success") (set_fs fs2 c)
      else hp_write_user_msg user (MsgError "Failed to save game data")
             (set_fs fs2 c)
    else hp_write_user_msg user (MsgError "Failed to save game data")
           (set_fs fs1 c)
  else hp_write_user_msg user (MsgError "Failed to generate game content") c.

(** The [mint_nft] branch. *)
Definition mintNftBranch (env : Env) (user : User) (data : string)
    (c : Node) : Node :=
  match hp_context env with
  | None => hp_write_user_msg user (MsgError "Contract context not available") c
  | Some readonly =>
      if negb readonly then
        hp_write_user_msg user
          (MsgError "NFT minting is temporarily disabled - only read-only mode supported")
          c
      else if negb (g_nftMintingClient c) then
        hp_write_user_msg user (MsgError "NFT minting client not initialized") c
      else
        match nfts (fs c) !! data with
        | None =>
            hp_write_user_msg user
              (MsgError ("NFT data file not found for game: " ++ data)) c
        | Some (NftUnparseable what) =>
            hp_write_user_msg user (MsgNftMint data (MintParseError what)) c
        | Some (NftData nftData) =>
            if isAlreadyMinted nftData then
              hp_write_user_msg user (MsgNftMint data AlreadyMinted) c
            else
              hp_write_user_msg user
                (MsgNftMint data (MintBatch (mintNFTsForGame env data nftData)))
                (record_mint_call data c)
        end
  end.

(** The statement the jury is asked to validate for a prepared action. *)
Definition juryStatement (setup : PlayerActionSetup) : string :=
  transitionContext
    (loadGameWorld (gameId (pa_state setup)) (pa_fs setup))
    (pa_oldGameState setup) (pa_playerActionText setup) (pa_newGameState setup).

(** The [player_action] branch and the submission to the jury: the request
    is registered, the local vote broadcast, the handler stored. *)
Definition submitPlayerAction (env : Env) (user : User) (data : string)
    (idx peer_count : Z) (c : Node) : Node :=
  let setup := setupPlayerAction env user data idx (fs c) in
  let c1 := set_fs (pa_fs setup) c in
  let '(jury, vote) :=
    processRequest (juryDaemon env) user "validate_game_action"
      (juryStatement setup) idx peer_count "game_engine_context" (g_aiJury c1) in
  push_handler (pa_state setup) (hp_write_npl_msg vote (set_aiJury jury c1)).

(** ... followed by the wait that ends [process_game_message]. *)
Definition playerActionBranch (env : Env) (npl : list Vote) (user : User)
    (data : string) (idx peer_count : Z) (c : Node)
    : Node * list Vote * bool :=
  waitForJuryConsensus env npl idx peer_count
    (submitPlayerAction env user data idx peer_count c).

Definition process_game_message (env : Env) (npl : list Vote) (user : User)
    (action data : string) (idx peer_count : Z) (c : Node)
    : Node * list Vote * bool :=
  if negb (g_aiClient c) || negb (g_gameManager c) then
    (hp_write_user_msg user (MsgError "Game systems not initialized") c, npl, true)
  else if negb (isDaemonRunning env) then
    (hp_write_user_msg user (MsgError "AI Daemon not running") c, npl, true)
  else if negb (isModelReady env)
          && (String.eqb action "create_game" || String.eqb action "player_action")
  then
    (hp_write_user_msg user
       (MsgError "AI model still loading, please try again in a few minutes") c,
     npl, true)
  else if String.eqb action "create_game" then
    (createGameBranch env user data c, npl, true)
  else if String.eqb action "player_action" then
    playerActionBranch env npl user data idx peer_count c
  else if String.eqb action "list_games" then
    (hp_write_user_msg user (MsgGamesList (listGames (fs c))) c, npl, true)
  else if String.eqb action "get_game_state" then
    let gameState := loadGameState data (fs c) in
    if negb (Str.empty gameState)
    then (hp_write_user_msg user (MsgGameState data gameState) c, npl, true)
    else (hp_write_user_msg user (MsgError "Game not found") c, npl, true)
  else if String.eqb action "mint_nft" then
    (mintNftBranch env user data c, npl, true)
  else
    (hp_write_user_msg user (MsgError ("Unknown action: " ++ action)) c, npl, true).


(** The request registered for a player action. *)
Definition requestOf (env : Env) (user : User) (data : string) (idx : Z)
    (c : Node) : RequestState :=
  newRequest user "validate_game_action"
    (juryStatement (setupPlayerAction env user data idx (fs c))) idx
    "game_engine_context".

(** The vote broadcast for a player action. *)
Definition voteOf (env : Env) (user : User) (data : string)
    (idx peer_count : Z) (c : Node) : Vote :=
  (processRequest (juryDaemon env) user "validate_game_action"
     (juryStatement (setupPlayerAction env user data idx (fs c))) idx peer_count
     "game_engine_context" (g_aiJury c)).2.

#[export] Instance gas_eq_dec : EqDecision GameActionState.
Proof. solve_decision. Defined.

(** *** Rounds *)

(** The state in which [main] starts to read the user inputs of a round: a
    fresh process over the data directory the earlier rounds left. *)
Definition start_round (juryId : string) (store : FileStore) : Node :=
  {| g_aiClient := true; g_gameManager := true;
     g_valuableItemExtractor := true; g_nftMintingClient := true;
     g_aiJury := {| activeRequests := []; juryId := juryId |};
     g_gameActionHandlers := []; fs := store;
     user_msgs := []; npl_msgs := []; mint_calls := [] |}.

Definition empty_store (writable : FileKind -> string -> bool) : FileStore :=
  {| worlds := ∅; states := ∅; nfts := ∅; writable := writable |}.

(** The states the contract reaches from an empty data directory. *)
Inductive reachable : Node -> Prop :=
| reach_first juryId writable :
    reachable (start_round juryId (empty_store writable))
| reach_round juryId c :
    reachable c -> reachable (start_round juryId (fs c))
| reach_message env npl user action data idx peer_count c :
    reachable c ->
    reachable (process_game_message env npl user action data idx peer_count c).1.1
| reach_vote env vote peer_count c :
    reachable c -> reachable (process_jury_vote env vote peer_count c).

(** The data directory invariant: no state file has the empty game id, and
    every state file comes with its world file; every handler that holds a
    non-empty old state names a game that has a world file. *)
Definition store_ok (store : FileStore) : Prop :=
  states store !! "" = None
  /\ forall g, is_Some (states store !! g) -> is_Some (worlds store !! g).

Definition handlers_ok (c : Node) : Prop :=
  Forall (fun h => oldGameState h <> "" -> is_Some (worlds (fs c) !! gameId h))
    (g_gameActionHandlers c).

(** [main] has set the four pointers before it reads any message. *)
Definition globals_set (c : Node) : Prop :=
  g_aiClient c = true /\ g_gameManager c = true
  /\ g_valuableItemExtractor c = true /\ g_nftMintingClient c = true.

Definition node_ok (c : Node) : Prop :=
  globals_set c /\ store_ok (fs c) /\ handlers_ok c.

(** *** The conditions the claims speak of *)





End Contract.

(** ** A small world to run the contract in *)

Module Scenario.

Import AIJury Contract.

Definition all_writable : FileKind -> string -> bool := fun _ _ => true.

(** No validator daemon listens on the port. *)
Definition validator_down : DaemonIO :=
  {| pingAIDaemon := false;
     sendToAIDaemon := fun _ => "";
     json_parse := fun _ => throw "parse error" |}.

(** The validator daemon accepts connections while its model is loading. *)
Definition validator_loading : DaemonIO :=
  {| pingAIDaemon := true;
     sendToAIDaemon := fun _ => "status";
     json_parse := fun _ =>
       ok (JObject [("status", JString "loading"); ("model_loaded", JBool false);
                    ("model_loading", JBool true)]) |}.

Definition cave_story : string :=
  "Game Title: The Cave" ++ Str.nl ++ "World Description: A dark cave." ++ Str.nl
  ++ "Current Situation: You stand at the entrance." ++ Str.nl
  ++ "Location: entrance" ++ Str.nl.

Definition no_mint : NFTMintBatch :=
  {| batch_success := true; batch_timestamp := 0; total_requested := 0;
     successful_mints := 0; failed_mints := 0; first_success_hash := "";
     results := [] |}.

(** A consensus round in which the game daemon answers every action with
    [answer]. *)
Definition env_with (running ready : bool) (answer : string) : Env :=
  {| isDaemonRunning := running; isModelReady := ready;
     createGame := fun _ => cave_story;
     daemonPlayerAction := fun _ _ _ _ _ => answer;
     juryDaemon := validator_down;
     std_hash := fun _ => 4234567%N;
     now := 1700000000;
     hp_context := Some false;
     mintNFTsForGame := fun _ _ => no_mint |}.

Definition node0 : Node := start_round "jury_100000" (empty_store all_writable).

(** After the creation of the game ["game_1_34567"]. *)
Definition node1 : Node :=
  (process_game_message (env_with true true "") [] 0%nat "create_game"
     "cave survival" 0 1 node0).1.1.

Definition cave_game : string := "game_1_34567".

Definition ballot (valid : bool) (juror : string) : Vote :=
  {| v_requestId := 1001; v_isValid := valid; v_confidence := 9 # 10;
     v_reason := "checked"; v_juryId := juror;
     v_context := "game_engine_context" |}.

Definition tunnel_state : string :=
  "Player_Location: tunnel" ++ Str.nl ++ "Player_Health: 100" ++ Str.nl
  ++ "Player_Score: 10" ++ Str.nl ++ "Player_Inventory: [torch]" ++ Str.nl
  ++ "Game_Status: active" ++ Str.nl ++ "Turn_Count: 2".

Definition won_state : string :=
  "Player_Location: vault" ++ Str.nl ++ "Player_Health:  80 " ++ Str.nl
  ++ "Player_Score: 50" ++ Str.nl ++ "Player_Inventory: [torch, gold coin]"
  ++ Str.nl ++ "Game_Status: won" ++ Str.nl ++ "Turn_Count: 9".


(** One request waiting for two votes. *)
Definition jury0 : AIJuryModule :=
  {| activeRequests :=
       [newRequest 0%nat "validate_game_action" "statement" 1001
          "game_engine_context"];
     juryId := "jury_100000" |}.

Definition marked_output : string :=
  "noise<<BEGIN_PLAYER_STATE>> draft <<BEGIN_PLAYER_STATE>>" ++ Str.nl
  ++ "Player_Health: 3 " ++ Str.nl
  ++ "<<END_PLAYER_STATE>>tail<<END_PLAYER_STATE>>".

Definition reopened_output : string :=
  "<<BEGIN_PLAYER_STATE>>a<<END_PLAYER_STATE>><<BEGIN_PLAYER_STATE>>b".

Definition store_a : FileStore :=
  {| worlds := {[ "game_1_11111" := "a world" ]}; states := ∅; nfts := ∅;
     writable := all_writable |}.

Definition store_b : FileStore :=
  {| worlds := {[ "game_1_34567" := "another world" ]};
     states := {[ "game_1_34567" := "a state" ]}; nfts := ∅;
     writable := all_writable |}.

(** Four requests on [node1]. *)
Definition rejected_move : Node * list Vote * bool :=
  process_game_message (env_with true true tunnel_state)
    [ballot true "jury_200000"; ballot false "jury_300000"] 0%nat
    "player_action" "game_1_34567:move north:false" 1001 2 node1.


Definition winning_move : Node * list Vote * bool :=
  process_game_message (env_with true true won_state)
    [ballot true "jury_200000"] 0%nat
    "player_action" "game_1_34567:open vault:false" 1001 1 node1.


End Scenario.

(** * Further components *)

(** ** A stream of votes handed to the jury *)

Module JuryRun.

Import AIJury.

(** [processVote] called on the votes of [votes], one after the other, as
    the NPL loop of a contract does; the second component lists the calls of
    the [userResponse] callback, in order. *)
Fixpoint deliver (now : Z) (votes : list Vote) (peerCount : Z)
    (m : AIJuryModule) : AIJuryModule * list (User * JuryResponse) :=
  match votes with
  | [] => (m, [])
  | vote :: rest =>
      let '(m1, callback) := processVote now vote peerCount m in
      let '(m2, callbacks) := deliver now rest peerCount m1 in
      (m2, match callback with
           | Some call => call :: callbacks
           | None => callbacks
           end)
  end.

(** The request after [votes] were counted on it. *)
Definition countVotes (votes : list Vote) (state : RequestState) : RequestState :=
  fold_left (fun s vote => countVote vote s) votes state.

(** The number of votes with the verdict [valid]. *)
Fixpoint verdicts (valid : bool) (votes : list Vote) : Z :=
  match votes with
  | [] => 0
  | vote :: rest =>
      (if Bool.eqb (v_isValid vote) valid then 1 else 0) + verdicts valid rest
  end.


End JuryRun.

(** ** The generation loop, piece by piece *)

Module Generation.

Import AIDaemon.

(** The pieces of [pieces], appended in order. *)
Definition joined (pieces : list string) : string :=
  foldr String.append "" pieces.

(** The two tests that end the accumulation loop. *)
Definition stops (response : string) : bool :=
  Str.contains response end_marker_text || Str.contains response "<|eot_id|>".

End Generation.

(** ** Votes on the wire: [Vote::toJson], [Vote::fromJson] *)

Module JuryWire.

Import AIJury.

(** [v.get<int>()]: a number is converted by truncation, a boolean to 0 or 1
    (the arithmetic [from_json] of nlohmann accepts both); [type_error.302]
    on anything else. *)
Definition get_int (v : json) : Except Z :=
  match v with
  | JNumber q => ok (Z.quot (Qnum q) (Z.pos (Qden q)))
  | JBool b => ok (if b then 1 else 0)%Z
  | _ => throw ("[json.exception.type_error.302] type must be number, but is "
                ++ type_name v)
  end.

(** The object [Vote::toJson] dumps; an nlohmann object keeps its members
    sorted by key. *)
Definition toJson (vote : Vote) : json :=
  JObject [("confidence", JNumber (v_confidence vote));
           ("context", JString (v_context vote));
           ("isValid", JBool (v_isValid vote));
           ("juryId", JString (v_juryId vote));
           ("reason", JString (v_reason vote));
           ("requestId", JNumber (inject_Z (v_requestId vote)))].

(** [Vote::fromJson] on the outcome [parsed] of [nlohmann::json::parse].
    [Vote vote;] leaves the three scalar members indeterminate ([uninit]) and
    the strings empty; the assignments run in order until one throws. *)
Definition fromJson (uninit : Z * bool * Q) (parsed : Except json) : Vote :=
  let vote :=
    {| v_requestId := uninit.1.1; v_isValid := uninit.1.2;
       v_confidence := uninit.2; v_reason := ""; v_juryId := "";
       v_context := "" |} in
  match parsed with
  | inl _ => vote
  | inr j =>
      match value get_int j "requestId" 0%Z with
      | inl _ => vote
      | inr requestId =>
          let vote :=
            {| v_requestId := requestId; v_isValid := v_isValid vote;
               v_confidence := v_confidence vote; v_reason := v_reason vote;
               v_juryId := v_juryId vote; v_context := v_context vote |} in
          match value get_bool j "isValid" false with
          | inl _ => vote
          | inr isValid =>
              let vote :=
                {| v_requestId := v_requestId vote; v_isValid := isValid;
                   v_confidence := v_confidence vote; v_reason := v_reason vote;
                   v_juryId := v_juryId vote; v_context := v_context vote |} in
              match value get_double j "confidence" 0%Q with
              | inl _ => vote
              | inr confidence =>
                  let vote :=
                    {| v_requestId := v_requestId vote;
                       v_isValid := v_isValid vote; v_confidence := confidence;
                       v_reason := v_reason vote; v_juryId := v_juryId vote;
                       v_context := v_context vote |} in
                  match value get_string j "reason" "" with
                  | inl _ => vote
                  | inr reason =>
                      let vote :=
                        {| v_requestId := v_requestId vote;
                           v_isValid := v_isValid vote;
                           v_confidence := v_confidence vote;
                           v_reason := reason; v_juryId := v_juryId vote;
                           v_context := v_context vote |} in
                      match value get_string j "juryId" "" with
                      | inl _ => vote
                      | inr juryId =>
                          let vote :=
                            {| v_requestId := v_requestId vote;
                               v_isValid := v_isValid vote;
                               v_confidence := v_confidence vote;
                               v_reason := v_reason vote; v_juryId := juryId;
                               v_context := v_context vote |} in
                          match value get_string j "context" "" with
                          | inl _ => vote
                          | inr context =>
                              {| v_requestId := v_requestId vote;
                                 v_isValid := v_isValid vote;
                                 v_confidence := v_confidence vote;
                                 v_reason := v_reason vote;
                                 v_juryId := v_juryId vote;
                                 v_context := context |}
                          end
                      end
                  end
              end
          end
      end
  end.

End JuryWire.


(** ** Strings written into replies: [escapeJsonForOutput] *)

Module Output.

Definition quote : ascii := "034"%char.
Definition backslash : ascii := "092"%char.
Definition backspace : ascii := "008"%char.
Definition formfeed : ascii := "012"%char.

(** The [switch] of [escapeJsonForOutput]: what is appended for [c]. *)
Definition escapeChar (c : ascii) : string :=
  if Ascii.eqb c quote then String backslash (String quote EmptyString)
  else if Ascii.eqb c backslash then String backslash (String backslash EmptyString)
  else if Ascii.eqb c backspace then String backslash "b"
  else if Ascii.eqb c formfeed then String backslash "f"
  else if Ascii.eqb c Str.lf then String backslash "n"
  else if Ascii.eqb c Str.cr then String backslash "r"
  else if Ascii.eqb c Str.tab then String backslash "t"
  else String c EmptyString.

(** [escapeJsonForOutput] *)
Fixpoint escapeJsonForOutput (str : string) : string :=
  match str with
  | EmptyString => EmptyString
  | String c rest => escapeChar c ++ escapeJsonForOutput rest
  end.

(** *** Reading the escapes back *)

(** The character a two-character escape stands for, among the seven that
    [escapeJsonForOutput] writes. *)
Definition escaped (c : ascii) : option ascii :=
  if Ascii.eqb c quote then Some quote
  else if Ascii.eqb c backslash then Some backslash
  else if Ascii.eqb c "b"%char then Some backspace
  else if Ascii.eqb c "f"%char then Some formfeed
  else if Ascii.eqb c "n"%char then Some Str.lf
  else if Ascii.eqb c "r"%char then Some Str.cr
  else if Ascii.eqb c "t"%char then Some Str.tab
  else None.

(** The characters that may not stand unescaped between the quotes. *)
Definition must_escape (c : ascii) : bool :=
  Ascii.eqb c quote || Ascii.eqb c backspace || Ascii.eqb c formfeed
  || Ascii.eqb c Str.lf || Ascii.eqb c Str.cr || Ascii.eqb c Str.tab.

(** The text a reader of the escapes recovers: [None] when a character of
    [must_escape] stands unescaped or a backslash is followed by anything
    but one of the seven escape letters. *)
Fixpoint unescape (s : string) : option string :=
  match s with
  | EmptyString => Some EmptyString
  | String c rest =>
      if Ascii.eqb c backslash then
        match rest with
        | EmptyString => None
        | String d rest' =>
            match escaped d, unescape rest' with
            | Some x, Some text => Some (String x text)
            | _, _ => None
            end
        end
      else if must_escape c then None
      else match unescape rest with
           | Some text => Some (String c text)
           | None => None
           end
  end.

End Output.

(** ** The validation daemon: how the answer of the model is read *)

Module ValidationDaemon.

(** [::isspace] in the C locale *)
Definition isspace (c : ascii) : bool :=
  let n := nat_of_ascii c in
  (n =? 32)%nat || ((9 <=? n)%nat && (n <=? 13)%nat).

(** [s.erase(std::remove_if(s.begin(), s.end(), ::isspace), s.end())] *)
Fixpoint remove_spaces (s : string) : string :=
  match s with
  | EmptyString => EmptyString
  | String c r =>
      if isspace c then remove_spaces r else String c (remove_spaces r)
  end.

(** The reply of [processValidation]. *)
Inductive ValidationReply : Type :=
| ReplyError (error : string)
| ReplyVerdict (valid : bool) (confidence : Q) (raw_response : string).

(** The "enhanced binary response parsing" of [processValidation]:
    [is_valid] and [confidence] for the answer [ai_response] of the model. *)
Definition parseBinaryResponse (ai_response : string) : bool * Q :=
  let lower_response := remove_spaces (Str.tolower ai_response) in
  let containsYes := Str.contains lower_response "yes" in
  let containsNo := Str.contains lower_response "no" in
  let containsTrue := Str.contains lower_response "true" in
  let containsFalse := Str.contains lower_response "false" in
  let containsValid := Str.contains lower_response "valid" in
  let containsInvalid := Str.contains lower_response "invalid" in
  if String.eqb lower_response "yes" || String.eqb lower_response "y"
  then (true, 1%Q)
  else if String.eqb lower_response "no" || String.eqb lower_response "n"
  then (false, 1%Q)
  else if String.eqb lower_response "true" then (true, (95 # 100)%Q)
  else if String.eqb lower_response "false" then (false, (95 # 100)%Q)
  else if containsYes && negb containsNo then (true, (8 # 10)%Q)
  else if containsNo && negb containsYes then (false, (8 # 10)%Q)
  else if containsTrue && negb containsFalse then (true, (75 # 100)%Q)
  else if containsFalse && negb containsTrue then (false, (75 # 100)%Q)
  else if containsValid && negb containsInvalid then (true, (7 # 10)%Q)
  else if containsInvalid && negb containsValid then (false, (7 # 10)%Q)
  else (false, (3 # 10)%Q).

(** [AIValidationDaemon::processValidation] on the "statement" member of the
    request ([""] when the member is absent); [generateValidationResponse]
    gives the answer of the model to the prompt built around the statement. *)
Definition processValidation (generateValidationResponse : string -> string)
    (statement : string) : ValidationReply :=
  if Str.empty statement
  then ReplyError "No statement provided for validation"
  else
    let ai_response := generateValidationResponse statement in
    let '(is_valid, confidence) := parseBinaryResponse ai_response in
    ReplyVerdict is_valid confidence ai_response.

End ValidationDaemon.

(** ** The NFT minting client: inventory strings *)

Module NFTMinting.

(** The items [std::getline(ss, item, delim)] reads from a stream over [s]. *)
Fixpoint getitems (delim : ascii) (s : string) : list string :=
  match s with
  | EmptyString => []
  | String c r =>
      if Ascii.eqb c delim then EmptyString :: getitems delim r
      else match getitems delim r with
           | [] => [String c EmptyString]
           | item :: rest => String c item :: rest
           end
  end.

(** [item.erase(0, item.find_first_not_of(...))] *)
Fixpoint drop_leading (p : ascii -> bool) (item : string) : string :=
  match item with
  | String c r => if p c then drop_leading p r else item
  | EmptyString => EmptyString
  end.

(** [s.substr(0, s.length() - 1)] *)
Fixpoint pop_back (s : string) : string :=
  match s with
  | EmptyString => EmptyString
  | String c EmptyString => EmptyString
  | String c r => String c (pop_back r)
  end.

(** [if (!s.empty() && s.front() == c) s = s.substr(1);] *)
Definition strip_front (c : ascii) (s : string) : string :=
  match s with
  | String x r => if Ascii.eqb x c then r else s
  | EmptyString => s
  end.

(** [if (!s.empty() && s.back() == c) s = s.substr(0, s.length() - 1);] *)
Definition strip_back (c : ascii) (s : string) : string :=
  match Str.last_char s with
  | Some x => if Ascii.eqb x c then pop_back s else s
  | None => s
  end.

(** The body of the [while (std::getline(ss, item, ','))] loop: the item as
    it is pushed, if it is. *)
Definition cleanItem (item : string) : option string :=
  let item := drop_leading Contract.is_blank item in
  let item := Contract.drop_trailing Contract.is_blank item in
  let item := strip_front Output.quote item in
  let item := strip_back Output.quote item in
  if Str.empty item then None else Some item.

(** [NFTMintingClient::parseInventoryItems] *)
Definition parseInventoryItems (inventoryString : string) : list string :=
  let cleaned := strip_front "["%char inventoryString in
  let cleaned := strip_back "]"%char cleaned in
  omap cleanItem (getitems ","%char cleaned).

(** The inventory string [mintItemList] writes for [itemNames]. *)
Fixpoint joinItems (itemNames : list string) : string :=
  match itemNames with
  | [] => ""
  | [name] => name
  | name :: rest => name ++ ", " ++ joinItems rest
  end.

Definition inventoryString (itemNames : list string) : string :=
  "[" ++ joinItems itemNames ++ "]".

(** *** Names that survive the parsing *)

Definition plain_end (c : option ascii) : bool :=
  match c with
  | Some c => negb (Contract.is_blank c) && negb (Ascii.eqb c Output.quote)
  | None => false
  end.

(** An item name without a comma that neither starts nor ends with a space,
    a tab or a double quote (so it is not empty). *)
Definition plain_name (name : string) : bool :=
  negb (Str.contains name ",")
  && plain_end (Str.first_char name) && plain_end (Str.last_char name).

End NFTMinting.

(** ** The model file: [ModelDownloader] in [ai_contract.cpp] *)

Module ModelDownloader.

Definition fileName : string := "gpt-oss-20b-Q5_K_M.gguf".
Definition expectedHash : string :=
  "9c3814533c5b4c84d42b5dce4376bbdfd7227e990b8733a3a1c4f741355b3e75".
Definition expectedSize : N := 11717357248.
Definition sourceUrl : string :=
  "https://huggingface.co/unsloth/gpt-oss-20b-GGUF/resolve/main/gpt-oss-20b-Q5_K_M.gguf".
Definition chunkSize : N := 256 * 1024 * 1024.

(** [std::filesystem::path("../../../model") / fileName] *)
Definition filePath : string := "../../../model/" ++ fileName.

(** [size_t] arithmetic *)
Definition size_max : N := 2 ^ 64.
Definition size_sub (a b : N) : N := ((a + size_max - b) mod size_max)%N.
Definition size_add (a b : N) : N := ((a + b) mod size_max)%N.

(** What the downloader meets outside the process: the HTTP server (for a
    host, a path and a byte range: [None] when the request fails, else the
    status and the body), whether the file opens for appending, the SHA-256
    digest of a content in hexadecimal, and whether the two [try] blocks
    around [std::filesystem] calls catch an error. *)
Record Outside : Type := mkOutside {
  http_get : string -> string -> N -> N -> option (Z * string);
  can_append : bool;
  sha256 : string -> string;
  stat_fails_at_entry : bool;
  stat_fails_after_download : bool
}.

(** The two members that change; the model file is [None] when absent. *)
Record Downloader : Type := mkDownloader {
  fileSize : N;
  modelFilePath : string
}.

Definition file_size (content : string) : N := N.of_nat (String.length content).

(** The result of a run: the value returned, the downloader, the model file
    and the byte ranges requested from the server. *)
Definition Outcome : Type := bool * Downloader * option string * list (N * N).

(** The URL split of [downloadChunk]: host and path. *)
Definition splitUrl (url : string) : option (string * string) :=
  match Str.find url "://" 0 with
  | None => None
  | Some schemePos =>
      let hostStart := (schemePos + 3)%nat in
      match Str.find url "/" hostStart with
      | None => None
      | Some pathStart =>
          Some (String.substring hostStart (pathStart - hostStart) url,
                Str.substr_from url pathStart)
      end
  end.

(** [downloadChunk]: the value returned, the file and the range requested. *)
Definition downloadChunk (out : Outside) (url : string) (startByte : N)
    (file : option string) : bool * option string * list (N * N) :=
  match splitUrl url with
  | None => (false, file, [])
  | Some (host, path) =>
      let remainingBytes := size_sub expectedSize startByte in
      let actualChunkSize := N.min chunkSize remainingBytes in
      let endByte := size_sub (size_add startByte actualChunkSize) 1 in
      match http_get out host path startByte endByte with
      | None => (false, file, [(startByte, endByte)])
      | Some (status, body) =>
          if negb (status =? 206)%Z && negb (status =? 200)%Z
          then (false, file, [(startByte, endByte)])
          else if negb (can_append out)
          then (false, file, [(startByte, endByte)])
          else (true, Some (default "" file ++ body), [(startByte, endByte)])
      end
  end.

(** [verifyHashAndSetPath] on a file that exists, with [content]. *)
Definition verifyHashAndSetPath (out : Outside) (d : Downloader)
    (content : string) (requests : list (N * N)) : Outcome :=
  let calculatedHash := sha256 out content in
  if String.eqb calculatedHash expectedHash
  then (true, {| fileSize := fileSize d; modelFilePath := filePath |},
        Some content, requests)
  else (false, d, None, requests).

(** [checkAndDownloadModel] *)
Definition checkAndDownloadModel (out : Outside) (d : Downloader)
    (file : option string) : Outcome :=
  if (fileSize d <? expectedSize)%N then
    let '(downloaded, file1, requests) :=
      downloadChunk out sourceUrl (fileSize d) file in
    if negb downloaded then (false, d, file1, requests)
    else
      match file1 with
      | Some content =>
          if stat_fails_after_download out then (false, d, file1, requests)
          else
            let d1 := {| fileSize := file_size content;
                         modelFilePath := modelFilePath d |} in
            if (expectedSize <=? fileSize d1)%N then
              if negb (Str.empty expectedHash)
              then verifyHashAndSetPath out d1 content requests
              else (true, {| fileSize := fileSize d1; modelFilePath := filePath |},
                    file1, requests)
            else (false, d1, file1, requests)
      | None => (false, d, file1, requests)
      end
  else (false, d, file, []).

(** [ensureModelDownloaded] *)
Definition ensureModelDownloaded (out : Outside) (d : Downloader)
    (file : option string) : Outcome :=
  if stat_fails_at_entry out then checkAndDownloadModel out d file
  else
    let d0 :=
      {| fileSize := match file with
                     | Some content => file_size content
                     | None => 0
                     end;
         modelFilePath := modelFilePath d |} in
    if (fileSize d0 =? expectedSize)%N
    then (true, {| fileSize := fileSize d0; modelFilePath := filePath |}, file, [])
    else checkAndDownloadModel out d0 file.

End ModelDownloader.

(** ** A server for the model file *)

Module DownloadFixtures.

Import ModelDownloader.

(** A server that answers every range request with 206 and four bytes. *)
Definition small_server : Outside :=
  {| http_get := fun _ _ _ _ => Some (206%Z, "gguf");
     can_append := true;
     sha256 := fun _ => "00";
     stat_fails_at_entry := false;
     stat_fails_after_download := false |}.

Definition fresh_downloader : Downloader :=
  {| fileSize := 0; modelFilePath := "" |}.

(** A file content of [n] bytes. *)
Fixpoint filled (n : nat) : string :=
  match n with
  | O => EmptyString
  | S n' => String "g"%char (filled n')
  end.

(** A complete model file, and one that is a byte too long. *)
Definition complete_file : string := filled (N.to_nat expectedSize).

End DownloadFixtures.

(** ** More fixtures *)

Module Fixtures.

Import AIJury.

(** A validator daemon with its model loaded that answers YES. *)
Definition validator_ready : DaemonIO :=
  {| pingAIDaemon := true;
     sendToAIDaemon := fun request =>
       match request with
       | PingRequest => "status"
       | ValidateRequest _ => "verdict"
       end;
     json_parse := fun text =>
       if String.eqb text "status"
       then ok (JObject [("status", JString "ready"); ("model_loaded", JBool true);
                         ("model_loading", JBool false)])
       else ok (JObject [("valid", JBool true); ("confidence", JNumber 1);
                         ("raw_response", JString "YES")]) |}.

(** A move the game daemon refuses in words, voted valid by the one peer. *)
Definition refused_move : Contract.Node * list Vote * bool :=
  Contract.process_game_message
    (Scenario.env_with true true "You cannot go there.")
    [Scenario.ballot true "jury_200000"] 0%nat
    "player_action" "game_1_34567:move north:false" 1001 1 Scenario.node1.


(** A read-only round. *)
Definition env_readonly : Contract.Env :=
  {| Contract.isDaemonRunning := true; Contract.isModelReady := true;
     Contract.createGame := fun _ => Scenario.cave_story;
     Contract.daemonPlayerAction := fun _ _ _ _ _ => Scenario.won_state;
     Contract.juryDaemon := Scenario.validator_down;
     Contract.std_hash := fun _ => 4234567%N;
     Contract.now := 1700000000;
     Contract.hp_context := Some true;
     Contract.mintNFTsForGame := fun _ _ => Scenario.no_mint |}.

End Fixtures.

(** * Facts *)

(** ** Strings *)

Module StrFacts.
Import Str.

Lemma substring_length (s : string) : forall n m,
  String.length (String.substring n m s) = Nat.min m (String.length s - n).
Proof.
  induction s as [|c r IH]; intros [|n] [|m]; simpl; try reflexivity.
  - rewrite IH. simpl. rewrite Nat.sub_0_r. reflexivity.
  - rewrite IH. reflexivity.
  - rewrite IH. reflexivity.
Qed.

Lemma index_ge (s2 : string) : forall n m s1,
  String.index n s1 s2 = Some m -> n <= m.
Proof.
  induction s2 as [|c r IH]; intros [|n] m s1; simpl; try lia.
  - discriminate.
  - destruct (String.index n s1 r) as [k|] eqn:E; [|discriminate].
    intros [= <-]. apply IH in E. lia.
Qed.

Lemma find_Some (s needle : string) (n m : nat) :
  find s needle n = Some m ->
  n <= m
  /\ String.substring m (String.length needle) s = needle
  /\ forall q, n <= q -> String.substring q (String.length needle) s = needle -> m <= q.
Proof.
  unfold find. intros H. split; [eapply index_ge; eauto|].
  split; [eapply String.index_correct1; eauto|].
  intros q Hq Ho. destruct (le_lt_dec m q) as [|Hlt]; [assumption|].
  exfalso. exact (String.index_correct2 _ _ _ _ H q Hq Hlt Ho).
Qed.

Lemma find_None (s needle : string) (n : nat) :
  needle <> "" -> find s needle n = None ->
  forall q, n <= q -> String.substring q (String.length needle) s <> needle.
Proof.
  unfold find. intros Hne H q Hq. eapply String.index_correct3; eauto.
Qed.

Lemma occurs_bound (needle s : string) (p : nat) :
  needle <> "" -> String.substring p (String.length needle) s = needle ->
  p + String.length needle <= String.length s.
Proof.
  intros Hne H. apply (f_equal String.length) in H.
  rewrite substring_length in H.
  assert (0 < String.length needle) by (destruct needle; [congruence|simpl; lia]).
  lia.
Qed.

End StrFacts.

(** ** The marker extraction *)

Module AIDaemonFacts.
Import Str AIDaemon Scenario StrFacts.

Lemma begin_marker_nonempty : begin_marker_text <> "".
Proof. discriminate. Qed.

Lemma end_marker_nonempty : end_marker_text <> "".
Proof. discriminate. Qed.

(** The loop returns the last begin marker at or after [pos], or keeps its
    accumulator when there is none; the fuel is never the reason to stop. *)
Lemma last_begin_loop_spec (s : string) : forall fuel pos acc,
  String.length s < pos + fuel ->
  (last_begin_loop fuel s pos acc = acc
   /\ forall q, pos <= q -> ~ occurs begin_marker_text s q)
  \/ (exists p, last_begin_loop fuel s pos acc = Some p
        /\ pos <= p /\ last_occurrence begin_marker_text s p).
Proof.
  induction fuel as [|fuel IH]; intros pos acc Hfuel; simpl.
  - left. split; [reflexivity|]. intros q Hq Ho.
    apply occurs_bound in Ho; [lia|apply begin_marker_nonempty].
  - destruct (find s begin_marker_text pos) as [p|] eqn:Hfind.
    + apply find_Some in Hfind as (Hle & Hocc & Hmin).
      destruct (IH (S p) (Some p)) as [[-> Hnone]|(p' & -> & Hle' & Hlast)]; [lia| |].
      * right. exists p. repeat split; try assumption.
        intros q Hq. destruct (le_lt_dec q p) as [|Hlt]; [assumption|].
        exfalso. apply (Hnone q); [lia|assumption].
      * right. exists p'. repeat split; [lia|apply Hlast|apply Hlast].
    + left. split; [reflexivity|]. intros q Hq.
      apply (find_None _ _ _ begin_marker_nonempty Hfind q Hq).
Qed.

Lemma last_begin_spec (s : string) :
  match last_begin s with
  | Some b => last_occurrence begin_marker_text s b
  | None => forall q, ~ occurs begin_marker_text s q
  end.
Proof.
  unfold last_begin.
  destruct (last_begin_loop_spec s (S (String.length s)) 0 None)
    as [[-> Hnone]|(p & -> & _ & Hlast)]; [lia| |assumption].
  intros q. apply Hnone. lia.
Qed.

Lemma find_first_not_None (p : ascii -> bool) (s : string) :
  find_first_not p s = None -> all_chars p s = true.
Proof.
  induction s as [|c r IH]; simpl; [reflexivity|].
  destruct (p c); [|discriminate].
  destruct (find_first_not p r); [discriminate|]. intros _. exact (IH eq_refl).
Qed.

Lemma find_last_not_None (p : ascii -> bool) (s : string) :
  find_last_not p s = None -> all_chars p s = true.
Proof.
  induction s as [|c r IH]; simpl; [reflexivity|].
  destruct (find_last_not p r); [discriminate|].
  destruct (p c); [|discriminate]. intros _. exact (IH eq_refl).
Qed.

Lemma last_char_cons (c : ascii) (t : string) :
  t <> "" -> last_char (String c t) = last_char t.
Proof.
  unfold last_char. destruct t as [|d t]; [congruence|]. intros _.
  simpl. rewrite Nat.sub_0_r. reflexivity.
Qed.

(** The text up to the last character that fails [p]. *)
Lemma find_last_not_Some (p : ascii -> bool) (s : string) : forall e,
  find_last_not p s = Some e ->
  exists rest c,
    s = String.substring 0 (S e) s ++ rest
    /\ all_chars p rest = true
    /\ last_char (String.substring 0 (S e) s) = Some c /\ p c = false.
Proof.
  induction s as [|c r IH]; intros e; simpl; [discriminate|].
  destruct (find_last_not p r) as [i|] eqn:Hr.
  - intros [= <-]. destruct (IH i eq_refl) as (rest & c' & Heq & Hall & Hlast & Hc).
    exists rest, c'. repeat split; try assumption.
    + change (String c r = String c (String.substring 0 (S i) r ++ rest)).
      f_equal. exact Heq.
    + change (String.substring 0 (S (S i)) (String c r))
        with (String c (String.substring 0 (S i) r)).
      rewrite last_char_cons; [assumption|].
      intros E. rewrite E in Hlast. discriminate.
  - destruct (p c) eqn:Hc; [discriminate|]. intros [= <-].
    exists r, c. repeat split.
    + destruct r; reflexivity.
    + apply find_last_not_None. assumption.
    + destruct r; reflexivity.
    + assumption.
Qed.

Lemma trim_space_cons (c : ascii) (r : string) :
  is_space c = true -> trim (String c r) = trim r.
Proof.
  intros Hc. unfold trim. simpl. rewrite Hc.
  destruct (find_first_not is_space r) as [i|] eqn:Hf; simpl; [|reflexivity].
  destruct (find_last_not is_space r) as [e|] eqn:Hl; [|reflexivity].
  reflexivity.
Qed.

(** [trim] removes the surrounding whitespace and nothing else. *)
Lemma trim_spec (s : string) : trimmed_of s (trim s).
Proof.
  induction s as [|c r IH].
  - exists "", "". repeat split; discriminate.
  - destruct (is_space c) eqn:Hc.
    + rewrite trim_space_cons by assumption.
      destruct IH as (l & r' & Heq & Hl & Hr & Hfirst & Hlast).
      exists (String c l), r'. repeat split; try assumption.
      * change (String c r = String c (l ++ trim r ++ r')). f_equal. exact Heq.
      * simpl. rewrite Hc, Hl. reflexivity.
    + unfold trim. simpl find_first_not. rewrite Hc.
      destruct (find_last_not is_space (String c r)) as [e|] eqn:He.
      * destruct (find_last_not_Some _ _ _ He) as (rest & c' & Heq & Hall & Hlast & Hc').
        replace (e - 0 + 1) with (S e) by lia.
        exists "", rest. repeat split; try assumption.
        -- intros d. simpl. intros [= <-]. assumption.
        -- intros d Hd. rewrite Hlast in Hd. injection Hd as <-. assumption.
      * simpl in He. destruct (find_last_not is_space r); [discriminate|].
        rewrite Hc in He. discriminate.
Qed.

Lemma last_occurrence_unique (needle s : string) (p q : nat) :
  last_occurrence needle s p -> last_occurrence needle s q -> p = q.
Proof.
  intros [Hp Hpm] [Hq Hqm]. apply Nat.le_antisymm; auto.
Qed.

(** Claim C8, as amended.  When the LAST begin marker of the model output is
    followed by an end marker, [processPlayerAction] returns the text between
    that begin marker and the first end marker after it, without its leading
    and trailing whitespace; in every other case (no begin marker, or no end
    marker after the last one) it returns the model output unchanged. *)
Theorem extractPlayerState_spec (ai_response : string) :
  (last_begin_closed ai_response ->
   marker_block ai_response (extractPlayerState ai_response))
  /\ (~ last_begin_closed ai_response ->
      extractPlayerState ai_response = ai_response).
Proof.
  unfold extractPlayerState.
  pose proof (last_begin_spec ai_response) as Hlast.
  destruct (last_begin ai_response) as [b|].
  - destruct (find ai_response end_marker_text
                (b + String.length begin_marker_text)) as [e|] eqn:Hfind.
    + apply find_Some in Hfind as (Hle & Hocc & Hmin). split.
      * intros _. exists b, e. split; [assumption|]. split.
        -- repeat split; assumption.
        -- apply trim_spec.
      * intros Hno. exfalso. apply Hno. exists b, e. auto.
    + split; [|reflexivity].
      intros (b' & e' & Hb' & He' & Hle). exfalso.
      assert (b' = b) as -> by (eapply last_occurrence_unique; eauto).
      exact (find_None _ _ _ end_marker_nonempty Hfind e' Hle He').
  - split; [|reflexivity].
    intros (b' & e' & [Hb' _] & _). exfalso. exact (Hlast b' Hb').
Qed.


(** *** The rule on two model outputs *)

Lemma marked_output_closed : last_begin_closed marked_output.
Proof.
  exists 34, 75. split; [split|split].
  - vm_compute. reflexivity.
  - intros q Hq. destruct (le_lt_dec q 34) as [|Hlt]; [assumption|]. exfalso.
    refine (find_None marked_output begin_marker_text 35 begin_marker_nonempty _ q Hlt Hq).
    vm_compute. reflexivity.
  - vm_compute. reflexivity.
  - vm_compute. lia.
Defined.

Lemma reopened_output_open : ~ last_begin_closed reopened_output.
Proof.
  intros (b & e & [Hb Hlast] & He & Hle).
  assert (H43 : occurs begin_marker_text reopened_output 43) by (vm_compute; reflexivity).
  apply Hlast in H43.
  refine (find_None reopened_output end_marker_text 65 end_marker_nonempty _ e _ He).
  - vm_compute. reflexivity.
  - change (String.length begin_marker_text) with 22 in Hle. lia.
Defined.

Lemma extractPlayerState_spec_witness :
  (last_begin_closed marked_output
   /\ marker_block marked_output (extractPlayerState marked_output))
  /\ (~ last_begin_closed reopened_output
      /\ extractPlayerState reopened_output = reopened_output).
Proof.
  split.
  - split; [exact marked_output_closed|].
    exact (proj1 (extractPlayerState_spec marked_output) marked_output_closed).
  - split; [exact reopened_output_open|].
    exact (proj2 (extractPlayerState_spec reopened_output) reopened_output_open).
Defined.

(** The generation loop can return [reopened_output]: it stops at the piece
    that completes the first end marker and keeps the rest of that piece. *)
Example reopened_output_generated :
  generate ["<<BEGIN_PLAYER_STATE>>a<<END_PLAYER_STATE>";
            "><<BEGIN_PLAYER_STATE>>b"; " never appended"] ""
  = reopened_output.
Proof. vm_compute. reflexivity. Qed.

(** [reopened_output] holds a begin marker followed by an end marker, and is
    returned unchanged: the returned text is not a marker block. *)
Lemma extraction_on_any_pair_fails :
  has_marker_pair reopened_output
  /\ extractPlayerState reopened_output = reopened_output
  /\ ~ marker_block reopened_output (extractPlayerState reopened_output)
  /\ ~ extraction_on_any_pair reopened_output.
Proof.
  assert (Hpair : has_marker_pair reopened_output).
  { exists 0, 23. repeat split; vm_compute; try reflexivity; lia. }
  assert (Hblock : ~ marker_block reopened_output
                     (extractPlayerState reopened_output)).
  { intros (b & e & Hb & (Hle & He & _) & _).
    apply reopened_output_open. exists b, e. auto. }
  split; [exact Hpair|]. split; [vm_compute; reflexivity|].
  split; [exact Hblock|].
  intros [H _]. exact (Hblock (H Hpair)).
Qed.

Example extract_marked : extractPlayerState marked_output = "Player_Health: 3".
Proof. vm_compute. reflexivity. Qed.

End AIDaemonFacts.

(** ** The jury *)

Module AIJuryFacts.
Import AIJury Scenario.

(** *** The active request list under [processVote] *)

Lemma findRequest_lookup (requestId : Z) (m : AIJuryModule) i state :
  findRequest requestId m = Some (i, state) ->
  activeRequests m !! i = Some state /\ rs_requestId state = requestId.
Proof.
  unfold findRequest. intros H. apply list_find_Some in H as (Hl & Hp & _). auto.
Qed.

(** Replacing the request found by one with the same id keeps it found. *)
Lemma findRequest_insert (requestId : Z) (m : AIJuryModule) i state state' :
  findRequest requestId m = Some (i, state) ->
  rs_requestId state' = requestId ->
  findRequest requestId
    {| activeRequests := <[i := state']> (activeRequests m); juryId := juryId m |}
  = Some (i, state').
Proof.
  unfold findRequest. simpl. intros H Hid.
  apply list_find_Some in H as (Hl & Hp & Hmin).
  apply list_find_Some. split; [|split].
  - apply list_lookup_insert_eq. eapply lookup_lt_Some; eauto.
  - exact Hid.
  - intros j y Hj Hlt. rewrite list_lookup_insert_ne in Hj by lia.
    eapply Hmin; eauto.
Qed.

(** Requests with another id are not touched. *)
Lemma findRequest_insert_ne (requestId other : Z) (m : AIJuryModule) i state state' :
  findRequest requestId m = Some (i, state) ->
  rs_requestId state' = requestId ->
  other <> requestId ->
  findRequest other
    {| activeRequests := <[i := state']> (activeRequests m); juryId := juryId m |}
  = findRequest other m.
Proof.
  unfold findRequest. simpl. intros H Hid Hne.
  apply list_find_Some in H as (Hl & Hp & Hmin).
  destruct (list_find (fun r => rs_requestId r = other) (activeRequests m))
    as [[j y]|] eqn:Hf.
  - apply list_find_Some in Hf as (Hjl & Hjp & Hjmin).
    assert (j <> i) by (intros ->; rewrite Hl in Hjl; injection Hjl as <-; congruence).
    apply list_find_Some. split; [|split].
    + rewrite list_lookup_insert_ne by auto. assumption.
    + assumption.
    + intros k z Hk Hlt. destruct (decide (k = i)) as [->|Hki].
      * rewrite list_lookup_insert_eq in Hk by (eapply lookup_lt_Some; eauto).
        injection Hk as <-. congruence.
      * rewrite list_lookup_insert_ne in Hk by auto. eapply Hjmin; eauto.
  - apply list_find_None. apply list_find_None in Hf.
    apply Forall_forall. intros z Hz. apply list_elem_of_lookup in Hz as [k Hk].
    destruct (decide (k = i)) as [->|Hki].
    + rewrite list_lookup_insert_eq in Hk by (eapply lookup_lt_Some; eauto).
      injection Hk as <-. congruence.
    + rewrite list_lookup_insert_ne in Hk by auto.
      rewrite Forall_forall in Hf. apply Hf. eapply list_elem_of_lookup_2; eauto.
Qed.

Lemma countVote_id vote state : rs_requestId (countVote vote state) = rs_requestId state.
Proof. reflexivity. Qed.

Lemma markResolved_id state : rs_requestId (markResolved state) = rs_requestId state.
Proof. reflexivity. Qed.

(** One delivery, spelled out. *)
Lemma processVote_found now vote peerCount m i state0 :
  findRequest (v_requestId vote) m = Some (i, state0) ->
  let state := countVote vote state0 in
  processVote now vote peerCount m =
  if (peerCount <=? received state)%Z
  then ({| activeRequests := <[i := markResolved state]> (activeRequests m);
           juryId := juryId m |},
        Some (rs_user state0, consensusOf now state))
  else ({| activeRequests := <[i := state]> (activeRequests m);
           juryId := juryId m |}, None).
Proof.
  intros H. unfold processVote. rewrite H. reflexivity.
Qed.

Lemma processVote_unknown now vote peerCount m :
  findRequest (v_requestId vote) m = None ->
  processVote now vote peerCount m = (m, None).
Proof. intros H. unfold processVote. rewrite H. reflexivity. Qed.

Lemma processVote_find now vote peerCount m i state0 :
  findRequest (v_requestId vote) m = Some (i, state0) ->
  let state := countVote vote state0 in
  findRequest (v_requestId vote) (processVote now vote peerCount m).1
  = Some (i, if (peerCount <=? received state)%Z then markResolved state else state).
Proof.
  intros H. cbv zeta. rewrite (processVote_found _ _ _ _ _ _ H). cbv zeta.
  pose proof (findRequest_lookup _ _ _ _ H) as [_ Hid].
  destruct (peerCount <=? received (countVote vote state0))%Z;
    eapply findRequest_insert; eauto.
Qed.

(** Claim C4.  When, with the vote just counted, the received count is at
    least [peerCount], [processVote] dispatches a consensus response whose
    decision is "valid" exactly when the valid tally is strictly greater than
    the invalid tally, and "invalid" exactly when it is not (so on a tie); the
    request is then resolved. *)
Theorem majority_needs_strictly_more_valid now vote peerCount m i state0 :
  findRequest (v_requestId vote) m = Some (i, state0) ->
  (peerCount <= received (countVote vote state0))%Z ->
  let state := countVote vote state0 in
  let result := processVote now vote peerCount m in
  exists response,
    result.2 = Some (rs_user state0, response)
    /\ (jr_decision response = "valid" <-> (fst (tally state) < snd (tally state))%Z)
    /\ (jr_decision response = "invalid" <-> (snd (tally state) <= fst (tally state))%Z)
    /\ cd_decision (jr_details response) = jr_decision response
    /\ cd_invalidVotes (jr_details response) = fst (tally state)
    /\ cd_validVotes (jr_details response) = snd (tally state)
    /\ isConsensusReached (v_requestId vote) result.1 = true.
Proof.
  intros H Hreach state result.
  assert (Hb : (peerCount <=? received state)%Z = true) by (apply Z.leb_le; exact Hreach).
  exists (consensusOf now state). subst result.
  pose proof (processVote_find now vote peerCount m i state0 H) as Hfind.
  cbv zeta in Hfind. rewrite (processVote_found _ _ _ _ _ _ H) in *.
  cbv zeta in *. fold state in Hfind |- *.
  rewrite Hb in *. cbn [fst snd] in *.
  assert (Hdec : jr_decision (consensusOf now state)
                 = if (fst (tally state) <? snd (tally state))%Z
                   then "valid" else "invalid") by reflexivity.
  assert (Hreached : isConsensusReached (v_requestId vote)
            {| activeRequests := <[i := markResolved state]> (activeRequests m);
               juryId := juryId m |} = true)
    by (unfold isConsensusReached; rewrite Hfind; reflexivity).
  split; [reflexivity|].
  split; [|split; [|split; [reflexivity|split; [reflexivity|split;
    [reflexivity|exact Hreached]]]]]; rewrite Hdec;
    destruct (fst (tally state) <? snd (tally state))%Z eqn:E;
    try apply Z.ltb_lt in E; try apply Z.ltb_ge in E;
    split; intros; try reflexivity; try discriminate; try lia.
Qed.


(** Claim C2, as amended.  [processVote] keeps no record of the votes it has
    counted.  A vote whose request id matches no active request leaves the
    module as it is.  A vote for an active request is counted at every
    delivery: fed twice, it raises the received count by two and the tally
    entry of its verdict by two; the second delivery dispatches a consensus
    response exactly when the received count has then reached [peerCount],
    whether or not the request was resolved before, and the request is
    resolved afterwards exactly when it was resolved before or that count has
    reached [peerCount]. *)
Theorem duplicate_vote_is_counted now vote peerCount m :
  (findRequest (v_requestId vote) m = None ->
   processVote now vote peerCount m = (m, None))
  /\ (forall i state0,
      findRequest (v_requestId vote) m = Some (i, state0) ->
      let m1 := (processVote now vote peerCount m).1 in
      let second := processVote now vote peerCount m1 in
      exists state1 state2,
        findRequest (v_requestId vote) m1 = Some (i, state1)
        /\ findRequest (v_requestId vote) second.1 = Some (i, state2)
        /\ received state1 = (received state0 + 1)%Z
        /\ received state2 = (received state0 + 2)%Z
        /\ tally state1 = bump (v_isValid vote) (tally state0)
        /\ tally state2 = bump (v_isValid vote) (bump (v_isValid vote) (tally state0))
        /\ (is_Some second.2 <-> (peerCount <= received state0 + 2)%Z)
        /\ (resolved state2 = true
            <-> resolved state0 = true \/ (peerCount <= received state0 + 2)%Z)).
Proof.
  split; [apply processVote_unknown|].
  intros i state0 H m1 second.
  pose proof (processVote_find now vote peerCount m i state0 H) as H1.
  cbv zeta in H1. fold m1 in H1.
  change (received (countVote vote state0)) with (received state0 + 1)%Z in H1.
  destruct (peerCount <=? received state0 + 1)%Z eqn:E1;
    [apply Z.leb_le in E1|apply Z.leb_gt in E1];
    pose proof (processVote_find now vote peerCount m1 i _ H1) as H2;
    cbv zeta in H2; fold second in H2;
    pose proof (processVote_found now vote peerCount m1 i _ H1) as Hsecond;
    cbv zeta in Hsecond; fold second in Hsecond;
    cbn [received countVote markResolved] in H2, Hsecond;
    replace (received state0 + 1 + 1)%Z with (received state0 + 2)%Z in H2, Hsecond by lia;
    destruct (peerCount <=? received state0 + 2)%Z eqn:E2;
    try (apply Z.leb_le in E2); try (apply Z.leb_gt in E2); try lia;
    (eexists; eexists; split; [exact H1|]; split; [exact H2|]);
    rewrite Hsecond; cbn [received countVote markResolved tally resolved snd];
    (split; [reflexivity|]); (split; [lia|]);
    (split; [reflexivity|]); (split; [reflexivity|]).
  - split; [split; [intros _; exact E2|intros _; eexists; reflexivity]|].
    split; auto.
  - split; [split; [intros _; exact E2|intros _; eexists; reflexivity]|].
    split; auto.
  - split; [split; [intros [x Hx]; discriminate|lia]|].
    split; [auto|intros [?|?]; [assumption|lia]].
Qed.

(** *** The decision engine *)

Lemma value_string_obj fields key default s :
  value get_string (JObject fields) key default = inr s ->
  assoc key fields = Some (JString s) \/ (assoc key fields = None /\ s = default).
Proof.
  unfold value. destruct (assoc key fields) as [v|].
  - destruct v; simpl; try discriminate. intros [= ->]. auto.
  - intros [= ->]. auto.
Qed.

Lemma value_bool_obj fields key default b :
  value get_bool (JObject fields) key default = inr b ->
  assoc key fields = Some (JBool b) \/ (assoc key fields = None /\ b = default).
Proof.
  unfold value. destruct (assoc key fields) as [v|].
  - destruct v; simpl; try discriminate. intros [= ->]. auto.
  - intros [= ->]. auto.
Qed.

(** [check_ready] lets the engine through only on a ready daemon. *)
Lemma check_ready_None io : check_ready io = inr None -> daemon_ready io.
Proof.
  unfold check_ready, daemon_ready, bind.
  destruct (json_parse io (sendToAIDaemon io PingRequest)) as [e|resp];
    [discriminate|].
  destruct resp as [| | | | |fields]; try discriminate.
  destruct (value get_string (JObject fields) "status" "") as [e|status] eqn:Hs;
    [discriminate|].
  destruct (String.eqb status "ready") eqn:Hready; [|discriminate].
  apply String.eqb_eq in Hready. subst status. cbn [negb].
  destruct (value get_bool (JObject fields) "model_loaded" false) as [e|loaded] eqn:Hl;
    [discriminate|].
  destruct loaded; [|discriminate]. intros _.
  exists fields. split; [reflexivity|].
  apply value_string_obj in Hs as [Hs|[_ Hs]]; [|discriminate].
  apply value_bool_obj in Hl as [Hl|[_ Hl]]; [|discriminate].
  auto.
Qed.

Lemma get_if_present_ok {A} (get : json -> Except A) j key (x : option A) :
  get_if_present get j key = inr x ->
  contains j key = true -> exists a, get (at_key j key) = inr a.
Proof.
  unfold get_if_present, bind. intros H Hc. rewrite Hc in H.
  destruct (get (at_key j key)) as [e|a]; [discriminate|]. eauto.
Qed.

Lemma get_bool_ok v b : get_bool v = inr b -> v = JBool b.
Proof. destruct v; simpl; try discriminate. intros [= ->]. reflexivity. Qed.

Lemma get_double_ok v q : get_double v = inr q -> v = JNumber q.
Proof. destruct v; simpl; try discriminate. intros [= ->]. reflexivity. Qed.

Lemma get_string_ok v s : get_string v = inr s -> v = JString s.
Proof. destruct v; simpl; try discriminate. intros [= ->]. reflexivity. Qed.

Lemma fallback_spec decision reason :
  d_isValid (fallback decision reason) = true
  /\ d_confidence (fallback decision reason) = (1 # 10)%Q
  /\ d_reason (fallback decision reason) = reason.
Proof. repeat split. Qed.

(** The engine either falls back or has a usable validator. *)
Lemma makeDecision_cases io messageType messageData context :
  let d := makeDecision io messageType messageData context in
  (d_isValid d = true /\ d_confidence d = (1 # 10)%Q /\ fallback_reason (d_reason d))
  \/ validator_usable io messageData.
Proof.
  unfold makeDecision.
  destruct (pingAIDaemon io) eqn:Hping; simpl.
  2:{ left. repeat split. left. reflexivity. }
  destruct (check_ready io) as [e|[status|]] eqn:Hready.
  - left. repeat split. right. left. reflexivity.
  - left. repeat split. right. right. left. eexists. reflexivity.
  - apply check_ready_None in Hready.
    destruct (json_parse io (sendToAIDaemon io (ValidateRequest messageData)))
      as [e|aiResponse] eqn:Hparse; simpl.
    { left. repeat split. do 4 right. eexists. reflexivity. }
    destruct (contains aiResponse "error") eqn:Herr.
    { destruct (get_string (at_key aiResponse "error")) as [e|err]; simpl.
      - left. repeat split. do 4 right. eexists. reflexivity.
      - left. repeat split. do 3 right. left. eexists. reflexivity. }
    destruct (get_if_present get_bool aiResponse "valid") as [e|v] eqn:Hv; simpl.
    { left. repeat split. do 4 right. eexists. reflexivity. }
    destruct (get_if_present get_double aiResponse "confidence") as [e|c] eqn:Hc; simpl.
    { left. repeat split. do 4 right. eexists. reflexivity. }
    destruct (get_if_present get_string aiResponse "reason") as [e|r] eqn:Hr; simpl.
    { left. repeat split. do 4 right. eexists. reflexivity. }
    right. split; [assumption|]. split; [assumption|].
    exists aiResponse. split; [assumption|]. split; [assumption|].
    repeat split; intros Hin.
    + destruct (get_if_present_ok _ _ _ _ Hv Hin) as [b Hb].
      exists b. apply get_bool_ok. exact Hb.
    + destruct (get_if_present_ok _ _ _ _ Hc Hin) as [q Hq].
      exists q. apply get_double_ok. exact Hq.
    + destruct (get_if_present_ok _ _ _ _ Hr Hin) as [s Hs].
      exists s. apply get_string_ok. exact Hs.
Qed.

(** Claim C6, as amended.  Whenever the validator cannot be used (it refuses
    the connection, its status reply does not parse or does not report
    "ready" with a loaded model, or its validation reply does not parse,
    carries an "error" member or a member of the wrong type), [makeDecision]
    returns [isValid = true] and [confidence = 0.1] with a reason that names
    the condition: "AI daemon not running", "Failed to parse daemon status",
    "AI model not ready (<status>)", "AI error: <error>" or
    "Failed to parse AI response: <what>"; the vote [processRequest]
    broadcasts then carries [isValid = true] and [confidence = 0.1]. *)
Theorem fallback_when_validator_unusable io user messageType messageData
    requestId peerCount context m :
  ~ validator_usable io messageData ->
  let decision := makeDecision io messageType messageData context in
  let vote :=
    (processRequest io user messageType messageData requestId peerCount
       context m).2 in
  d_isValid decision = true
  /\ d_confidence decision = (1 # 10)%Q
  /\ fallback_reason (d_reason decision)
  /\ v_isValid vote = true
  /\ v_confidence vote = (1 # 10)%Q
  /\ v_requestId vote = requestId.
Proof.
  intros Hno decision vote.
  destruct (makeDecision_cases io messageType messageData context)
    as [(Hv & Hc & Hr)|Hyes]; [|contradiction].
  fold decision in Hv, Hc, Hr.
  repeat split; assumption || reflexivity.
Qed.


(** *** The jury on a request waiting for two votes *)

Lemma duplicate_vote_breaks_idempotence :
  ~ vote_idempotent_at 0 (ballot true "jury_200000") 2 jury0.
Proof. intros [H _]. vm_compute in H. discriminate. Qed.

Lemma duplicate_vote_is_counted_witness :
  processVote 0 (ballot true "jury_200000") 2
    {| activeRequests := []; juryId := "jury_100000" |}
  = ({| activeRequests := []; juryId := "jury_100000" |}, None)
  /\ let vote := ballot true "jury_200000" in
     let m1 := (processVote 0 vote 2 jury0).1 in
     let second := processVote 0 vote 2 m1 in
     exists state1 state2,
       findRequest 1001 m1 = Some (0%nat, state1)
       /\ findRequest 1001 second.1 = Some (0%nat, state2)
       /\ received state1 = 1%Z /\ received state2 = 2%Z
       /\ tally state2 = (0, 2)%Z
       /\ is_Some second.2 /\ resolved state2 = true.
Proof.
  split.
  - apply (proj1 (duplicate_vote_is_counted 0 (ballot true "jury_200000") 2
                    {| activeRequests := []; juryId := "jury_100000" |})).
    reflexivity.
  - destruct (proj2 (duplicate_vote_is_counted 0 (ballot true "jury_200000") 2 jury0)
                0%nat _ eq_refl)
      as (state1 & state2 & H1 & H2 & H3 & H4 & _ & H6 & H7 & H8).
    exists state1, state2. repeat split; try assumption.
    + apply H7. simpl. lia.
    + apply H8. right. simpl. lia.
Defined.

Lemma majority_needs_strictly_more_valid_witness :
  let m1 := (processVote 0 (ballot true "jury_200000") 2 jury0).1 in
  exists response,
    (processVote 0 (ballot false "jury_300000") 2 m1).2 = Some (0%nat, response)
    /\ cd_validVotes (jr_details response) = 1%Z
    /\ cd_invalidVotes (jr_details response) = 1%Z
    /\ jr_decision response = "invalid".
Proof.
  intros m1.
  destruct (majority_needs_strictly_more_valid 0 (ballot false "jury_300000") 2 m1
              0%nat (countVote (ballot true "jury_200000")
                       (newRequest 0%nat "validate_game_action" "statement" 1001
                          "game_engine_context")) eq_refl)
    as (response & H1 & _ & H3 & _ & H5 & H6 & _).
  - simpl. lia.
  - exists response. split; [exact H1|]. split; [exact H6|]. split; [exact H5|].
    apply H3. simpl. lia.
Defined.

Lemma validator_down_unusable : ~ validator_usable validator_down "statement".
Proof. intros (Hping & _). discriminate Hping. Defined.

Lemma fallback_when_validator_unusable_witness :
  ~ validator_usable validator_down "statement"
  /\ let decision := makeDecision validator_down "validate_game_action" "statement" "ctx" in
     let vote := (processRequest validator_down 0%nat "validate_game_action"
                    "statement" 1001 2 "ctx" jury0).2 in
     d_isValid decision = true /\ d_confidence decision = (1 # 10)%Q
     /\ fallback_reason (d_reason decision)
     /\ v_isValid vote = true /\ v_confidence vote = (1 # 10)%Q
     /\ v_requestId vote = 1001%Z.
Proof.
  split; [exact validator_down_unusable|].
  exact (fallback_when_validator_unusable validator_down 0%nat
           "validate_game_action" "statement" 1001 2 "ctx" jury0
           validator_down_unusable).
Defined.

Lemma fallback_reason_differs :
  (pingAIDaemon validator_down = false
   /\ d_reason (makeDecision validator_down "validate_game_action" "statement" "ctx")
      = "AI daemon not running")
  /\ (d_reason (makeDecision validator_loading "validate_game_action" "statement" "ctx")
      = "AI model not ready (loading)")
  /\ "AI daemon not running" <> "AI not ready"
  /\ "AI model not ready (loading)" <> "AI not ready".
Proof. repeat split; try reflexivity; discriminate. Qed.

End AIJuryFacts.

(** ** The contract *)

Module ContractFacts.
Import AIJury Contract Scenario AIJuryFacts.

Lemma empty_false (s : string) : Str.empty s = false <-> s <> "".
Proof. destruct s; simpl; split; congruence. Qed.

Lemma empty_true (s : string) : Str.empty s = true <-> s = "".
Proof. destruct s; simpl; split; congruence. Qed.

(** *** What [juryUserResponse] leaves alone *)

Lemma enhanceResponse_frame env user response valid gameState c :
  let c' := enhanceResponse env user response valid gameState c in
  g_aiJury c' = g_aiJury c
  /\ g_gameActionHandlers c' = g_gameActionHandlers c
  /\ npl_msgs c' = npl_msgs c /\ mint_calls c' = mint_calls c
  /\ worlds (fs c') = worlds (fs c)
  /\ g_aiClient c' = g_aiClient c /\ g_gameManager c' = g_gameManager c
  /\ g_valuableItemExtractor c' = g_valuableItemExtractor c
  /\ g_nftMintingClient c' = g_nftMintingClient c
  /\ writable (fs c') = writable (fs c).
Proof.
  unfold enhanceResponse, extractPlayerInventory, saveGameState.
  destruct c as [? ? ? ? ? ? store ? ? ?]; destruct store; simpl.
  repeat match goal with |- context [if ?b then _ else _] => destruct b end;
    simpl; repeat split; reflexivity.
Qed.

Lemma juryUserResponse_frame env user response c :
  let c' := juryUserResponse env user response c in
  g_aiJury c' = g_aiJury c
  /\ g_gameActionHandlers c' = g_gameActionHandlers c
  /\ npl_msgs c' = npl_msgs c /\ mint_calls c' = mint_calls c
  /\ worlds (fs c') = worlds (fs c)
  /\ g_aiClient c' = g_aiClient c /\ g_gameManager c' = g_gameManager c
  /\ g_valuableItemExtractor c' = g_valuableItemExtractor c
  /\ g_nftMintingClient c' = g_nftMintingClient c
  /\ writable (fs c') = writable (fs c).
Proof.
  unfold juryUserResponse.
  destruct (String.eqb (jr_type response) "consensus");
    [|simpl; repeat split; reflexivity].
  destruct (String.eqb (cd_messageType (jr_details response)) "validate_game_action");
    [|simpl; repeat split; reflexivity].
  destruct (findHandler (cd_requestId (jr_details response)) c) as [gameState|];
    [|simpl; repeat split; reflexivity].
  destruct (String.eqb (action gameState) "player_action");
    [|simpl; repeat split; reflexivity].
  apply enhanceResponse_frame.
Qed.

(** *** The wait loop on a request of its own *)






(** *** The submission of a player action *)



Lemma submit_frame env user data idx peers c :
  let c3 := submitPlayerAction env user data idx peers c in
  fs c3 = pa_fs (setupPlayerAction env user data idx (fs c))
  /\ user_msgs c3 = user_msgs c
  /\ npl_msgs c3 = (npl_msgs c ++ [voteOf env user data idx peers c])%list
  /\ mint_calls c3 = mint_calls c
  /\ g_gameActionHandlers c3
     = (g_gameActionHandlers c
        ++ [pa_state (setupPlayerAction env user data idx (fs c))])%list
  /\ activeRequests (g_aiJury c3)
     = (activeRequests (g_aiJury c) ++ [requestOf env user data idx c])%list
  /\ g_valuableItemExtractor c3 = g_valuableItemExtractor c.
Proof. repeat split. Qed.






(** *** The data directory invariant *)

Lemma store_ok_save_state store gid text :
  store_ok store -> gid <> "" -> is_Some (worlds store !! gid) ->
  store_ok (saveGameState gid text store).2.
Proof.
  intros [Hempty Hworld] Hgid Hw. unfold saveGameState.
  destruct (writable store StateFile gid); [|split; assumption].
  split; simpl.
  - rewrite lookup_insert_ne by congruence. exact Hempty.
  - intros g. destruct (decide (g = gid)) as [->|Hne]; [intros _; exact Hw|].
    rewrite lookup_insert_ne by congruence. apply Hworld.
Qed.

Lemma store_ok_save_world store gid text :
  store_ok store -> store_ok (saveGameWorld gid text store).2.
Proof.
  intros [Hempty Hworld]. unfold saveGameWorld.
  destruct (writable store WorldFile gid); [|split; assumption].
  split; simpl; [exact Hempty|].
  intros g Hg. destruct (decide (g = gid)) as [->|Hne].
  - rewrite lookup_insert_eq. eauto.
  - rewrite lookup_insert_ne by congruence. apply Hworld, Hg.
Qed.

Lemma store_ok_nft now gid state act store :
  store_ok store -> store_ok (extractPlayerInventory now gid state act store).2.
Proof.
  intros H. unfold extractPlayerInventory.
  destruct (writable store NftFile gid); exact H.
Qed.

Lemma save_state_worlds gid text store :
  worlds (saveGameState gid text store).2 = worlds store.
Proof. unfold saveGameState. destruct (writable _ _ _); reflexivity. Qed.

Lemma nft_worlds now gid state act store :
  worlds (extractPlayerInventory now gid state act store).2 = worlds store.
Proof. unfold extractPlayerInventory. destruct (writable _ _ _); reflexivity. Qed.

Lemma save_world_keeps gid text store g :
  is_Some (worlds store !! g) ->
  is_Some (worlds (saveGameWorld gid text store).2 !! g).
Proof.
  unfold saveGameWorld. destruct (writable _ _ _); [|auto]. simpl.
  destruct (decide (g = gid)) as [->|Hne].
  - rewrite lookup_insert_eq. eauto.
  - rewrite lookup_insert_ne by congruence. auto.
Qed.

(** A node is in order if its pointers, its store and its handlers are. *)
Lemma node_ok_intro c c' :
  node_ok c ->
  g_aiClient c' = g_aiClient c -> g_gameManager c' = g_gameManager c ->
  g_valuableItemExtractor c' = g_valuableItemExtractor c ->
  g_nftMintingClient c' = g_nftMintingClient c ->
  store_ok (fs c') ->
  (forall g, is_Some (worlds (fs c) !! g) -> is_Some (worlds (fs c') !! g)) ->
  Forall (fun h => oldGameState h <> "" -> is_Some (worlds (fs c') !! gameId h))
    (filter (fun h => h ∉ g_gameActionHandlers c) (g_gameActionHandlers c')) ->
  node_ok c'.
Proof.
  intros ((H1 & H2 & H3 & H4) & Hs & Hh) E1 E2 E3 E4 Hs' Hmono Hnew.
  split; [unfold globals_set; rewrite E1, E2, E3, E4; auto|].
  split; [exact Hs'|].
  unfold handlers_ok in *. rewrite Forall_forall in *. intros h Hin Hold.
  destruct (decide (h ∈ g_gameActionHandlers c)) as [Hc|Hc].
  - apply Hmono, Hh; assumption.
  - apply Hnew; [|assumption]. apply list_elem_of_filter. auto.
Qed.

Lemma filter_not_in_self {A} `{EqDecision A} (l : list A) :
  filter (fun h => h ∉ l) l = [].
Proof.
  destruct (filter (fun h => h ∉ l) l) as [|x t] eqn:E; [reflexivity|].
  assert (Hx : x ∈ filter (fun h => h ∉ l) l) by (rewrite E; left).
  apply list_elem_of_filter in Hx as [Hn Hin]. contradiction.
Qed.

(** A step that keeps the pointers, the world files and the handlers. *)
Lemma node_ok_same_handlers c c' :
  node_ok c ->
  g_aiClient c' = g_aiClient c -> g_gameManager c' = g_gameManager c ->
  g_valuableItemExtractor c' = g_valuableItemExtractor c ->
  g_nftMintingClient c' = g_nftMintingClient c ->
  store_ok (fs c') ->
  (forall g, is_Some (worlds (fs c) !! g) -> is_Some (worlds (fs c') !! g)) ->
  g_gameActionHandlers c' = g_gameActionHandlers c ->
  node_ok c'.
Proof.
  intros Hok E1 E2 E3 E4 Hs Hmono Eh.
  eapply node_ok_intro; eauto. rewrite Eh, filter_not_in_self. constructor.
Qed.

Lemma node_ok_user_msg user msg c : node_ok c -> node_ok (hp_write_user_msg user msg c).
Proof.
  intros Hok. eapply node_ok_same_handlers; eauto; try reflexivity.
  apply Hok.
Qed.

Lemma findHandler_elem idx c h :
  findHandler idx c = Some h -> h ∈ g_gameActionHandlers c.
Proof.
  unfold findHandler. destruct (list_find _ _) as [[i x]|] eqn:E; [|discriminate].
  intros [= <-]. apply list_find_Some in E as (Hl & _).
  eapply list_elem_of_lookup_2; eauto.
Qed.

Lemma node_ok_enhance env user response valid h c :
  node_ok c -> h ∈ g_gameActionHandlers c ->
  node_ok (enhanceResponse env user response valid h c).
Proof.
  intros Hok Hin.
  pose proof (enhanceResponse_frame env user response valid h c)
    as (_ & Eh & _ & _ & Ew & E1 & E2 & E3 & E4 & _).
  cbv zeta in *.
  eapply node_ok_same_handlers; eauto; [|rewrite Ew; auto].
  destruct Hok as (_ & Hs & Hh).
  unfold enhanceResponse.
  destruct (valid && negb (Str.empty (newGameState h))).
  - destruct (Str.contains (newGameState h) "Game_Status: won"); [|exact Hs].
    destruct (g_valuableItemExtractor c); [|exact Hs].
    simpl. apply store_ok_nft. exact Hs.
  - destruct (negb (Str.empty (gameId h)) && negb (Str.empty (oldGameState h)))
      eqn:Hguard; [|exact Hs].
    apply andb_true_iff in Hguard as [Hg Ho].
    apply negb_true_iff in Hg, Ho. apply empty_false in Hg, Ho.
    simpl. apply store_ok_save_state; [exact Hs|exact Hg|].
    unfold handlers_ok in Hh. rewrite Forall_forall in Hh. apply Hh; assumption.
Qed.

Lemma node_ok_callback env user response c :
  node_ok c -> node_ok (juryUserResponse env user response c).
Proof.
  intros Hok. unfold juryUserResponse.
  destruct (String.eqb (jr_type response) "consensus");
    [|apply node_ok_user_msg; exact Hok].
  destruct (String.eqb (cd_messageType (jr_details response)) "validate_game_action");
    [|apply node_ok_user_msg; exact Hok].
  destruct (findHandler (cd_requestId (jr_details response)) c) as [h|] eqn:Hh;
    [|apply node_ok_user_msg; exact Hok].
  destruct (String.eqb (action h) "player_action");
    [|apply node_ok_user_msg; exact Hok].
  apply node_ok_enhance; [exact Hok|]. eapply findHandler_elem; eauto.
Qed.

Lemma node_ok_set_aiJury jury c : node_ok c -> node_ok (set_aiJury jury c).
Proof.
  intros Hok. eapply node_ok_same_handlers; eauto; try reflexivity. apply Hok.
Qed.

Lemma node_ok_vote env vote peers c :
  node_ok c -> node_ok (process_jury_vote env vote peers c).
Proof.
  intros Hok. unfold process_jury_vote.
  destruct (processVote (now env) vote peers (g_aiJury c)) as [jury [[user response]|]].
  - apply node_ok_callback, node_ok_set_aiJury, Hok.
  - apply node_ok_set_aiJury, Hok.
Qed.

Lemma node_ok_wait env idx peers : forall npl c,
  node_ok c -> node_ok (waitForJuryConsensus env npl idx peers c).1.1.
Proof.
  induction npl as [|vote npl IH]; intros c Hok; cbn [waitForJuryConsensus].
  - destruct (isConsensusReached idx (g_aiJury c)); exact Hok.
  - destruct (isConsensusReached idx (g_aiJury c)); [exact Hok|].
    apply IH, node_ok_vote, Hok.
Qed.

Lemma loaded_is_stored_state gid store :
  loadGameState gid store <> "" -> is_Some (states store !! gid).
Proof.
  unfold loadGameState. destruct (states store !! gid); [eauto|]. simpl. congruence.
Qed.

Lemma loaded_is_stored_world gid store :
  loadGameWorld gid store <> "" -> is_Some (worlds store !! gid).
Proof.
  unfold loadGameWorld. destruct (worlds store !! gid); [eauto|]. simpl. congruence.
Qed.

(** A game with a stored state has a non-empty id. *)
Lemma stored_game_id store gid :
  store_ok store -> is_Some (states store !! gid) -> gid <> "".
Proof.
  intros [Hempty _] [x Hx] ->. congruence.
Qed.

Lemma setup_store_ok env user data idx store :
  store_ok store ->
  let setup := setupPlayerAction env user data idx store in
  store_ok (pa_fs setup)
  /\ worlds (pa_fs setup) = worlds store
  /\ (oldGameState (pa_state setup) <> "" ->
      is_Some (worlds store !! gameId (pa_state setup))).
Proof.
  intros Hs. unfold setupPlayerAction.
  destruct (parsePlayerData data) as [[[gid act] cont]|];
    [|simpl; repeat split; [apply Hs..|congruence]].
  assert (Hold : loadGameState gid store <> "" -> is_Some (worlds store !! gid)).
  { intros H. apply Hs, loaded_is_stored_state, H. }
  destruct (Str.empty (loadGameState gid store) || Str.empty (loadGameWorld gid store))
    eqn:Hmissing; [simpl; repeat split; [apply Hs..|exact Hold]|].
  apply orb_false_iff in Hmissing as [Ho Hw]. apply empty_false in Ho, Hw.
  destruct (negb (Str.empty _) && negb (isErrorResponse _));
    simpl; repeat split; try apply Hs; try exact Hold.
  - rewrite (surjective_pairing (saveGameState _ _ _)). simpl.
    destruct (store_ok_save_state store gid
                (daemonPlayerAction env gid act (loadGameState gid store)
                   (loadGameWorld gid store) cont) Hs) as [H1 H2];
      [eapply stored_game_id; eauto using loaded_is_stored_state|auto|exact H1].
  - destruct (store_ok_save_state store gid
                (daemonPlayerAction env gid act (loadGameState gid store)
                   (loadGameWorld gid store) cont) Hs) as [H1 H2];
      [eapply stored_game_id; eauto using loaded_is_stored_state|auto|exact H2].
  - apply save_state_worlds.
Qed.

Lemma node_ok_submit env user data idx peers c :
  node_ok c -> node_ok (submitPlayerAction env user data idx peers c).
Proof.
  intros Hok.
  destruct (setup_store_ok env user data idx (fs c)) as (Hs & Hw & Hh);
    [apply Hok|].
  eapply node_ok_intro; eauto; try reflexivity.
  - intros g. change (fs (submitPlayerAction env user data idx peers c))
      with (pa_fs (setupPlayerAction env user data idx (fs c))).
    rewrite Hw. auto.
  - apply Forall_forall. intros h Hin.
    apply list_elem_of_filter in Hin as [Hnot Hin].
    change (g_gameActionHandlers (submitPlayerAction env user data idx peers c))
      with (g_gameActionHandlers c
            ++ [pa_state (setupPlayerAction env user data idx (fs c))])%list in Hin.
    apply elem_of_app in Hin as [Hin|Hin]; [contradiction|].
    apply list_elem_of_singleton in Hin as ->.
    change (fs (submitPlayerAction env user data idx peers c))
      with (pa_fs (setupPlayerAction env user data idx (fs c))).
    rewrite Hw. exact Hh.
Qed.

Lemma generateGameId_nonempty h store prompt key :
  generateGameId h store prompt key <> "".
Proof. unfold generateGameId. discriminate. Qed.

Lemma node_ok_create env user data c :
  node_ok c -> node_ok (createGameBranch env user data c).
Proof.
  intros Hok. unfold createGameBranch.
  destruct (negb (Str.empty (createGame env data)));
    [|apply node_ok_user_msg; exact Hok].
  destruct (separateGameContent (createGame env data)) as [world state].
  set (gid := generateGameId (std_hash env) (fs c) data "").
  destruct (saveGameWorld gid world (fs c)) as [savedWorld fs1] eqn:Hw.
  assert (Hfs1 : fs1 = (saveGameWorld gid world (fs c)).2) by (rewrite Hw; reflexivity).
  assert (Hok1 : node_ok (set_fs fs1 c)).
  { eapply node_ok_same_handlers; eauto; try reflexivity; simpl; subst fs1.
    - apply store_ok_save_world, Hok.
    - intros g. apply save_world_keeps. }
  destruct savedWorld; [|apply node_ok_user_msg; exact Hok1].
  destruct (saveGameState gid state fs1) as [savedState fs2] eqn:Hs.
  assert (Hfs2 : fs2 = (saveGameState gid state fs1).2) by (rewrite Hs; reflexivity).
  assert (Hok2 : node_ok (set_fs fs2 c)).
  { eapply (node_ok_same_handlers (set_fs fs1 c)); eauto; try reflexivity;
      simpl; subst fs2.
    - apply store_ok_save_state; [apply Hok1|apply generateGameId_nonempty|].
      subst fs1. unfold saveGameWorld in *.
      destruct (writable (fs c) WorldFile gid); [|discriminate].
      simpl. rewrite lookup_insert_eq. eauto.
    - intros g. rewrite save_state_worlds. auto. }
  destruct savedState; apply node_ok_user_msg; exact Hok2.
Qed.

Lemma node_ok_mint env user data c :
  node_ok c -> node_ok (mintNftBranch env user data c).
Proof.
  intros Hok. unfold mintNftBranch.
  destruct (hp_context env) as [readonly|]; [|apply node_ok_user_msg; exact Hok].
  destruct (negb readonly); [apply node_ok_user_msg; exact Hok|].
  destruct (negb (g_nftMintingClient c)); [apply node_ok_user_msg; exact Hok|].
  destruct (nfts (fs c) !! data) as [[nftData|what]|];
    try (apply node_ok_user_msg; exact Hok).
  destruct (isAlreadyMinted nftData); apply node_ok_user_msg; [exact Hok|].
  eapply node_ok_same_handlers; eauto; try reflexivity. apply Hok.
Qed.

Lemma node_ok_message env npl user action data idx peers c :
  node_ok c ->
  node_ok (process_game_message env npl user action data idx peers c).1.1.
Proof.
  intros Hok. unfold process_game_message.
  repeat match goal with
         | |- context [if ?b then _ else _] =>
             destruct b; [try (apply node_ok_user_msg; exact Hok)|]
         end;
    try (apply node_ok_user_msg; exact Hok).
  - apply node_ok_create, Hok.
  - apply node_ok_wait, node_ok_submit, Hok.
  - apply node_ok_mint, Hok.
Qed.

Lemma node_ok_start juryId store : store_ok store -> node_ok (start_round juryId store).
Proof.
  intros Hs. split; [repeat split|]. split; [exact Hs|]. constructor.
Qed.

(** Every state the contract reaches is in order. *)
Theorem reachable_node_ok c : reachable c -> node_ok c.
Proof.
  induction 1.
  - apply node_ok_start. split; [apply lookup_empty|].
    intros g [x Hx]. simpl in Hx. rewrite lookup_empty in Hx. discriminate.
  - apply node_ok_start. apply IHreachable.
  - apply node_ok_message. assumption.
  - apply node_ok_vote. assumption.
Qed.


(** *** Game ids *)

(** Claim C7.  [generateGameId] is a function of the creation prompt, the
    user key and the number of games already listed on the node: two data
    directories that list the same number of games give the same id for the
    same prompt and key (the hash function being the same on both nodes). *)
Theorem generateGameId_deterministic (std_hash : string -> N)
    (store1 store2 : FileStore) (userPrompt userIdHex : string) :
  length (listGames store1) = length (listGames store2) ->
  generateGameId std_hash store1 userPrompt userIdHex
  = generateGameId std_hash store2 userPrompt userIdHex.
Proof. unfold generateGameId. intros ->. reflexivity. Qed.

(** *** Minting *)

(** Claim C9.  In a round that is not read-only, [process_game_message]
    answers a [mint_nft] request with an error message and nothing else: the
    minting client is not called and no file of the data directory changes.
    Conversely a call of the minting client only happens in a read-only
    round. *)
Theorem mint_refused_outside_readonly env npl user data idx peers c :
  let result := process_game_message env npl user "mint_nft" data idx peers c in
  (hp_context env = Some false ->
   (exists error, user_msgs result.1.1 = (user_msgs c ++ [(user, MsgError error)])%list)
   /\ mint_calls result.1.1 = mint_calls c
   /\ fs result.1.1 = fs c
   /\ npl_msgs result.1.1 = npl_msgs c
   /\ result.1.2 = npl /\ result.2 = true)
  /\ (mint_calls result.1.1 <> mint_calls c -> hp_context env = Some true).
Proof.
  cbv zeta. unfold process_game_message.
  cbn [String.eqb Ascii.eqb Bool.eqb orb andb].
  rewrite andb_false_r.
  destruct (negb (g_aiClient c) || negb (g_gameManager c));
    [split; [intros _; repeat split; eexists; reflexivity|intros H; contradiction]|].
  destruct (negb (isDaemonRunning env));
    [split; [intros _; repeat split; eexists; reflexivity|intros H; contradiction]|].
  unfold mintNftBranch.
  destruct (hp_context env) as [[|]|];
    [|split; [intros _; repeat split; eexists; reflexivity|intros H; contradiction]
     |split; [discriminate|intros H; contradiction]].
  split; [discriminate|reflexivity].
Qed.

(** *** Player actions *)



















(** *** The contract on the cave game *)

Lemma generateGameId_deterministic_witness :
  store_a <> store_b
  /\ length (listGames store_a) = length (listGames store_b)
  /\ generateGameId (fun _ => 4234567%N) store_a "cave survival" "ed01"
     = generateGameId (fun _ => 4234567%N) store_b "cave survival" "ed01".
Proof.
  split; [|split].
  - intros H. apply (f_equal (fun s => states s !! "game_1_34567")) in H.
    vm_compute in H. discriminate.
  - vm_compute. reflexivity.
  - apply generateGameId_deterministic. vm_compute. reflexivity.
Defined.

Lemma node0_reachable : reachable node0.
Proof. exact (reach_first "jury_100000" all_writable). Defined.

Lemma node1_reachable : reachable node1.
Proof.
  exact (reach_message (env_with true true "") [] 0%nat "create_game"
           "cave survival" 0 1 node0 node0_reachable).
Defined.



Example cave_game_created :
  user_msgs node1 = [(0%nat, MsgGameCreated cave_game "success")]
  /\ loadGameState cave_game (fs node1)
     = "Current Situation: You stand at the entrance." ++ Str.nl
       ++ "Location: entrance" ++ Str.nl.
Proof. vm_compute. split; reflexivity. Qed.


Example rejected_move_reply :
  exists response,
    user_msgs rejected_move.1.1
    = [(0%nat, MsgGameCreated cave_game "success");
       (0%nat, MsgEnhanced response cave_game "move north"
                 (loadGameState cave_game (fs node1)) "failed")]
    /\ jr_decision response = "invalid"
    /\ loadGameState cave_game (fs rejected_move.1.1)
       = loadGameState cave_game (fs node1).
Proof. vm_compute. eexists. repeat split. Qed.



Example winning_move_nft :
  nfts (fs winning_move.1.1) !! cave_game
  = Some (NftData
            {| nft_game_id := cave_game; completion_time := 1700000000;
               winning_action := "open vault"; nft_status := "won";
               final_location := "vault"; final_health := "80";
               final_score := "50"; player_inventory := "[torch, gold coin]";
               nft_tokens := [] |}).
Proof. vm_compute. reflexivity. Qed.


Lemma mint_refused_outside_readonly_witness :
  hp_context (env_with true true "") = Some false
  /\ let result := process_game_message (env_with true true "") [] 0%nat
                     "mint_nft" cave_game 1002 1 winning_move.1.1 in
     (exists error,
        user_msgs result.1.1
        = (user_msgs winning_move.1.1 ++ [(0%nat, MsgError error)])%list)
     /\ mint_calls result.1.1 = mint_calls winning_move.1.1
     /\ fs result.1.1 = fs winning_move.1.1
     /\ npl_msgs result.1.1 = npl_msgs winning_move.1.1
     /\ result.1.2 = [] /\ result.2 = true.
Proof.
  split; [reflexivity|].
  exact (proj1 (mint_refused_outside_readonly (env_with true true "") [] 0%nat
                  cave_game 1002 1 winning_move.1.1) eq_refl).
Defined.



End ContractFacts.

(** * Facts about the further components *)

Module JuryRunFacts.

Import AIJury JuryRun Scenario AIJuryFacts.

Lemma countVotes_user votes state :
  rs_user (countVotes votes state) = rs_user state.
Proof.
  revert state. induction votes as [|v votes IH]; intros state; [reflexivity|].
  simpl. rewrite IH. reflexivity.
Qed.

Lemma countVotes_id votes state :
  rs_requestId (countVotes votes state) = rs_requestId state.
Proof.
  revert state. induction votes as [|v votes IH]; intros state; [reflexivity|].
  simpl. rewrite IH. reflexivity.
Qed.

Lemma countVotes_resolved votes state :
  resolved (countVotes votes state) = resolved state.
Proof.
  revert state. induction votes as [|v votes IH]; intros state; [reflexivity|].
  simpl. rewrite IH. reflexivity.
Qed.

Lemma countVotes_received votes state :
  received (countVotes votes state)
  = (received state + Z.of_nat (length votes))%Z.
Proof.
  revert state. induction votes as [|v votes IH]; intros state.
  - simpl. lia.
  - cbn [countVotes fold_left]. fold (countVotes votes (countVote v state)).
    rewrite IH. cbn [countVote received length]. lia.
Qed.



Lemma verdicts_total votes :
  (verdicts false votes + verdicts true votes = Z.of_nat (length votes))%Z.
Proof.
  induction votes as [|v votes IH]; [reflexivity|].
  cbn [verdicts length]. destruct (v_isValid v); simpl Bool.eqb; lia.
Qed.



(** Fewer votes than [peerCount]: they are counted and nothing is sent. *)
Lemma deliver_below now votes peerCount m i state :
  findRequest (rs_requestId state) m = Some (i, state) ->
  Forall (fun vote => v_requestId vote = rs_requestId state) votes ->
  (received state + Z.of_nat (length votes) < peerCount)%Z ->
  deliver now votes peerCount m
  = ({| activeRequests := <[i := countVotes votes state]> (activeRequests m);
        juryId := juryId m |}, []).
Proof.
  revert m state. induction votes as [|v votes IH]; intros m state Hfind Hall Hlt.
  - simpl. f_equal. destruct m as [l j]. simpl. f_equal.
    apply findRequest_lookup in Hfind as [Hl _]. simpl in Hl.
    symmetry. apply list_insert_id. exact Hl.
  - inversion Hall as [|? ? Hv Hrest]; subst.
    cbn [deliver]. rewrite <- Hv in Hfind.
    pose proof (processVote_found now v peerCount m i state Hfind) as Hp.
    cbv zeta in Hp. rewrite Hp.
    cbn [length] in Hlt.
    assert (Hr : received (countVote v state) = (received state + 1)%Z)
      by reflexivity.
    destruct (Z.leb_spec peerCount (received (countVote v state))) as [Hle|_];
      [lia|].
    assert (Hfind' : findRequest (rs_requestId (countVote v state))
              {| activeRequests := <[i := countVote v state]> (activeRequests m);
                 juryId := juryId m |} = Some (i, countVote v state)).
    { rewrite countVote_id. rewrite <- Hv.
      eapply findRequest_insert; [exact Hfind|].
      rewrite countVote_id. symmetry. exact Hv. }
    rewrite (IH _ _ Hfind').
    + cbn [activeRequests juryId]. rewrite list_insert_insert_eq. reflexivity.
    + rewrite countVote_id. exact Hrest.
    + lia.
Qed.


(** *** Votes on one request *)

(** Extra X1.  While fewer than [peerCount] votes have been counted on a request,
    [processVote] sends no consensus response and the request stays as
    resolved as it was; the votes are counted all the same. *)
Theorem consensus_waits_for_peer_count now votes peerCount m i state :
  findRequest (rs_requestId state) m = Some (i, state) ->
  Forall (fun vote => v_requestId vote = rs_requestId state) votes ->
  (received state + Z.of_nat (length votes) < peerCount)%Z ->
  let result := deliver now votes peerCount m in
  result.2 = []
  /\ isConsensusReached (rs_requestId state) result.1 = resolved state
  /\ exists state',
       findRequest (rs_requestId state) result.1 = Some (i, state')
       /\ received state' = (received state + Z.of_nat (length votes))%Z.
Proof.
  intros Hfind Hall Hlt result. unfold result.
  rewrite (deliver_below now votes peerCount m i state Hfind Hall Hlt).
  cbn [fst snd].
  assert (Hf : findRequest (rs_requestId state)
            {| activeRequests := <[i := countVotes votes state]> (activeRequests m);
               juryId := juryId m |} = Some (i, countVotes votes state)).
  { eapply findRequest_insert; [exact Hfind|apply countVotes_id]. }
  split; [reflexivity|]. split.
  - unfold isConsensusReached. rewrite Hf. apply countVotes_resolved.
  - exists (countVotes votes state). split; [exact Hf|apply countVotes_received].
Qed.

Lemma consensus_waits_for_peer_count_witness :
  let result := deliver 0 [ballot true "jury_200000"; ballot false "jury_300000"]
                  3 jury0 in
  result.2 = []
  /\ isConsensusReached 1001 result.1 = false
  /\ exists state',
       findRequest 1001 result.1 = Some (0%nat, state')
       /\ received state' = 2%Z.
Proof.
  refine (consensus_waits_for_peer_count 0
            [ballot true "jury_200000"; ballot false "jury_300000"] 3 jury0 0%nat
            (newRequest 0%nat "validate_game_action" "statement" 1001
               "game_engine_context") _ _ _).
  - reflexivity.
  - repeat constructor.
  - reflexivity.
Defined.





(** *** Requests *)

(** Extra X4.  [processRequest] does not look for an active request with the same
    id.  When there is one, the new request is appended behind it, and
    [findRequest] keeps returning the old one: every later vote with this id
    is counted on the old request and every consensus response for the id
    goes to the user of the old request. *)
Theorem reused_request_id_is_shadowed io user messageType messageData
    requestId peerCount context m i state :
  findRequest requestId m = Some (i, state) ->
  let m' := (processRequest io user messageType messageData requestId peerCount
               context m).1 in
  activeRequests m'
  = (activeRequests m
     ++ [newRequest user messageType messageData requestId context])%list
  /\ findRequest requestId m' = Some (i, state)
  /\ forall now vote peers to response,
       v_requestId vote = requestId ->
       (processVote now vote peers m').2 = Some (to, response) ->
       to = rs_user state.
Proof.
  intros Hfind m'. split; [reflexivity|].
  assert (Hfind' : findRequest requestId m' = Some (i, state)).
  { unfold findRequest, m', processRequest. cbn [fst activeRequests].
    apply list_find_app_l. exact Hfind. }
  split; [exact Hfind'|].
  intros now vote peers to response Hid Hsent.
  rewrite <- Hid in Hfind'.
  pose proof (processVote_found now vote peers m' i state Hfind') as Hp.
  cbv zeta in Hp. rewrite Hp in Hsent.
  destruct (peers <=? received (countVote vote state))%Z; simpl in Hsent;
    [|discriminate].
  inversion Hsent. reflexivity.
Qed.

Lemma reused_request_id_is_shadowed_witness :
  let m' := (processRequest validator_down 7%nat "validate_game_action"
               "second statement" 1001 2 "game_engine_context" jury0).1 in
  activeRequests m'
  = (activeRequests jury0
     ++ [newRequest 7%nat "validate_game_action" "second statement" 1001
           "game_engine_context"])%list
  /\ findRequest 1001 m'
     = Some (0%nat, newRequest 0%nat "validate_game_action" "statement" 1001
                      "game_engine_context")
  /\ forall now vote peers to response,
       v_requestId vote = 1001%Z ->
       (processVote now vote peers m').2 = Some (to, response) ->
       to = 0%nat.
Proof.
  exact (reused_request_id_is_shadowed validator_down 7%nat
           "validate_game_action" "second statement" 1001 2
           "game_engine_context" jury0 0%nat
           (newRequest 0%nat "validate_game_action" "statement" 1001
              "game_engine_context") eq_refl).
Defined.

(** Extra X5.  A vote changes nothing for the requests it is not addressed to:
    whatever it does to its own request, every request with another id is
    found as before, with the same counters. *)
Theorem votes_do_not_cross_requests now vote peerCount m requestId :
  v_requestId vote <> requestId ->
  findRequest requestId (processVote now vote peerCount m).1
  = findRequest requestId m.
Proof.
  intros Hother.
  destruct (findRequest (v_requestId vote) m) as [[i state0]|] eqn:Hfind.
  - pose proof (processVote_found now vote peerCount m i state0 Hfind) as Hp.
    cbv zeta in Hp. rewrite Hp.
    destruct (peerCount <=? received (countVote vote state0))%Z; cbn [fst].
    + eapply findRequest_insert_ne; [exact Hfind| |congruence].
      rewrite markResolved_id. rewrite countVote_id.
      apply findRequest_lookup in Hfind. apply Hfind.
    + eapply findRequest_insert_ne; [exact Hfind| |congruence].
      rewrite countVote_id. apply findRequest_lookup in Hfind. apply Hfind.
  - rewrite (processVote_unknown now vote peerCount m Hfind). reflexivity.
Qed.

Lemma votes_do_not_cross_requests_witness :
  findRequest 2002
    (processVote 0 (ballot true "jury_200000") 1
       (processRequest validator_down 7%nat "validate_game_action" "other"
          2002 1 "game_engine_context" jury0).1).1
  = findRequest 2002
      (processRequest validator_down 7%nat "validate_game_action" "other"
         2002 1 "game_engine_context" jury0).1.
Proof.
  refine (votes_do_not_cross_requests 0 (ballot true "jury_200000") 1 _ 2002 _).
  discriminate.
Defined.

End JuryRunFacts.

Module JuryWireFacts.

Import AIJury JuryWire Scenario Fixtures AIJuryFacts.

(** Extra X6.  A vote written by [Vote::toJson] and read back by
    [Vote::fromJson] is the vote that was written, whatever the members of
    the fresh [Vote] held before. *)
Theorem vote_json_round_trip (uninit : Z * bool * Q) (vote : Vote) :
  fromJson uninit (inr (toJson vote)) = vote.
Proof.
  destruct vote as [requestId isValid confidence reason juryId context].
  unfold fromJson, toJson. cbn. rewrite Z.quot_1_r. reflexivity.
Qed.

Lemma check_ready_ready io : daemon_ready io -> check_ready io = inr None.
Proof.
  intros (fields & Hparse & Hstatus & Hloaded).
  unfold check_ready. rewrite Hparse. unfold bind, value.
  rewrite Hstatus. cbn. rewrite Hloaded. reflexivity.
Qed.

(** Extra X7.  When the validator is reachable and ready and its reply parses to
    an object with a boolean "valid", a number "confidence", no "error" and
    no "reason" (the shape the validation daemon sends), [makeDecision]
    takes the verdict and the confidence from the reply, keeps the reason it
    started with, and stores the reply text as metadata; the vote that
    [processRequest] broadcasts carries the same verdict and confidence. *)
Theorem decision_follows_validator_reply io user messageType messageData
    requestId peerCount context m fields valid confidence :
  pingAIDaemon io = true ->
  daemon_ready io ->
  json_parse io (sendToAIDaemon io (ValidateRequest messageData))
  = inr (JObject fields) ->
  assoc "error" fields = None ->
  assoc "valid" fields = Some (JBool valid) ->
  assoc "confidence" fields = Some (JNumber confidence) ->
  assoc "reason" fields = None ->
  let vote :=
    (processRequest io user messageType messageData requestId peerCount
       context m).2 in
  makeDecision io messageType messageData context
  = {| d_isValid := valid; d_confidence := confidence;
       d_reason := "AI model not available";
       d_metadata := sendToAIDaemon io (ValidateRequest messageData) |}
  /\ v_isValid vote = valid /\ v_confidence vote = confidence
  /\ v_reason vote = "AI model not available"
  /\ v_requestId vote = requestId /\ v_juryId vote = juryId m.
Proof.
  intros Hping Hready Hparse Herr Hvalid Hconf Hreason vote.
  assert (Hd : makeDecision io messageType messageData context
               = {| d_isValid := valid; d_confidence := confidence;
                    d_reason := "AI model not available";
                    d_metadata := sendToAIDaemon io (ValidateRequest messageData) |}).
  { unfold makeDecision. rewrite Hping. cbn [negb].
    rewrite (check_ready_ready io Hready). rewrite Hparse.
    unfold bind, get_if_present, contains, at_key.
    rewrite Herr, Hvalid, Hconf, Hreason. reflexivity. }
  split; [exact Hd|].
  unfold vote, processRequest. cbn [snd v_isValid v_confidence v_reason
                                     v_requestId v_juryId].
  rewrite Hd. repeat split.
Qed.

Lemma decision_follows_validator_reply_witness :
  let vote :=
    (processRequest validator_ready 0%nat "validate_game_action" "statement"
       1002 2 "game_engine_context" jury0).2 in
  makeDecision validator_ready "validate_game_action" "statement"
    "game_engine_context"
  = {| d_isValid := true; d_confidence := 1;
       d_reason := "AI model not available"; d_metadata := "verdict" |}
  /\ v_isValid vote = true /\ v_confidence vote = 1%Q
  /\ v_reason vote = "AI model not available"
  /\ v_requestId vote = 1002%Z /\ v_juryId vote = "jury_100000".
Proof.
  refine (decision_follows_validator_reply validator_ready 0%nat
            "validate_game_action" "statement" 1002 2 "game_engine_context"
            jury0 [("valid", JBool true); ("confidence", JNumber 1);
                   ("raw_response", JString "YES")] true 1%Q _ _ _ _ _ _ _).
  - reflexivity.
  - exists [("status", JString "ready"); ("model_loaded", JBool true);
            ("model_loading", JBool false)].
    repeat split.
  - reflexivity.
  - reflexivity.
  - reflexivity.
  - reflexivity.
  - reflexivity.
Defined.

End JuryWireFacts.

Module RequestFacts.

Import AIJury Contract Scenario Fixtures AIJuryFacts ContractFacts.

(** *** What the branches without a vote leave alone *)

Lemma createGameBranch_frame env user data c :
  let c' := createGameBranch env user data c in
  g_aiJury c' = g_aiJury c /\ npl_msgs c' = npl_msgs c
  /\ g_gameActionHandlers c' = g_gameActionHandlers c
  /\ mint_calls c' = mint_calls c
  /\ nfts (fs c') = nfts (fs c)
  /\ exists msg, user_msgs c' = (user_msgs c ++ [(user, msg)])%list.
Proof.
  unfold createGameBranch.
  destruct (Str.empty (createGame env data)); cbn [negb].
  - repeat split. eexists. reflexivity.
  - destruct (separateGameContent (createGame env data)) as [w s].
    unfold saveGameWorld, saveGameState.
    destruct (writable (fs c) WorldFile _); cbn.
    + destruct (writable (fs c) StateFile _); cbn;
        repeat split; eexists; reflexivity.
    + repeat split. eexists. reflexivity.
Qed.

Lemma mintNftBranch_frame env user data c :
  let c' := mintNftBranch env user data c in
  g_aiJury c' = g_aiJury c /\ npl_msgs c' = npl_msgs c
  /\ g_gameActionHandlers c' = g_gameActionHandlers c
  /\ fs c' = fs c
  /\ exists msg, user_msgs c' = (user_msgs c ++ [(user, msg)])%list.
Proof.
  unfold mintNftBranch.
  destruct (hp_context env) as [[|]|]; cbn [negb];
    try (repeat split; eexists; reflexivity).
  destruct (g_nftMintingClient c); cbn [negb];
    try (repeat split; eexists; reflexivity).
  destruct (nfts (fs c) !! data) as [[r|w]|];
    try (repeat split; eexists; reflexivity).
  destruct (isAlreadyMinted r); repeat split; eexists; reflexivity.
Qed.



(** *** Which files a request can change *)

Lemma process_jury_vote_worlds env vote peers c :
  worlds (fs (process_jury_vote env vote peers c)) = worlds (fs c).
Proof.
  unfold process_jury_vote.
  destruct (processVote (now env) vote peers (g_aiJury c)) as [jury [[u r]|]].
  - destruct (juryUserResponse_frame env u r (set_aiJury jury c))
      as (_ & _ & _ & _ & Hw & _). exact Hw.
  - reflexivity.
Qed.

Lemma wait_worlds env idx peers : forall npl c,
  worlds (fs (waitForJuryConsensus env npl idx peers c).1.1) = worlds (fs c).
Proof.
  induction npl as [|v npl IH]; intros c; cbn [waitForJuryConsensus].
  - destruct (isConsensusReached idx (g_aiJury c)); reflexivity.
  - destruct (isConsensusReached idx (g_aiJury c)); [reflexivity|].
    rewrite IH. apply process_jury_vote_worlds.
Qed.

Lemma setup_worlds env user data idx store :
  worlds (pa_fs (setupPlayerAction env user data idx store)) = worlds store.
Proof.
  unfold setupPlayerAction.
  destruct (parsePlayerData data) as [[[gid act] cont]|]; [|reflexivity].
  destruct (Str.empty (loadGameState gid store)
            || Str.empty (loadGameWorld gid store)); [reflexivity|].
  destruct (negb (Str.empty (daemonPlayerAction env gid act _ _ cont))
            && negb (isErrorResponse (daemonPlayerAction env gid act _ _ cont)));
    [|reflexivity].
  cbn [pa_fs]. apply save_state_worlds.
Qed.

(** Extra X9.  Only [create_game] writes world files, only [player_action] writes
    NFT data files, and a request with any other action leaves the whole data
    directory as it was. *)
Theorem files_change_only_where_expected env npl user action data idx peers c :
  let final := (process_game_message env npl user action data idx peers c).1.1 in
  (action <> "create_game" -> worlds (fs final) = worlds (fs c))
  /\ (action <> "player_action" -> nfts (fs final) = nfts (fs c))
  /\ (action <> "create_game" -> action <> "player_action" -> fs final = fs c).
Proof.
  intros final. unfold final, process_game_message.
  destruct (negb (g_aiClient c) || negb (g_gameManager c));
    [cbn; repeat split|].
  destruct (negb (isDaemonRunning env)); [cbn; repeat split|].
  destruct (negb (isModelReady env)
            && (String.eqb action "create_game"
                || String.eqb action "player_action")); [cbn; repeat split|].
  destruct (String.eqb_spec action "create_game") as [->|Hc].
  { cbn [fst]. split; [congruence|]. split; [|congruence].
    intros _. destruct (createGameBranch_frame env user data c)
      as (_ & _ & _ & _ & Hn & _). exact Hn. }
  destruct (String.eqb_spec action "player_action") as [->|Hp].
  { split; [|split; congruence]. intros _.
    unfold playerActionBranch. rewrite wait_worlds.
    destruct (submit_frame env user data idx peers c) as (Hfs & _).
    rewrite Hfs. apply setup_worlds. }
  destruct (String.eqb action "list_games"); [cbn; repeat split|].
  destruct (String.eqb action "get_game_state").
  { destruct (negb (Str.empty (loadGameState data (fs c)))); cbn; repeat split. }
  destruct (String.eqb action "mint_nft").
  { cbn [fst]. destruct (mintNftBranch_frame env user data c)
      as (_ & _ & _ & Hfs & _). rewrite Hfs. repeat split. }
  cbn; repeat split.
Qed.

Lemma files_change_only_where_expected_witness :
  worlds (fs rejected_move.1.1) = worlds (fs node1).
Proof.
  refine (proj1 (files_change_only_where_expected (env_with true true tunnel_state)
                   [ballot true "jury_200000"; ballot false "jury_300000"] 0%nat
                   "player_action" "game_1_34567:move north:false" 1001 2 node1) _).
  discriminate.
Defined.

(** *** [create_game] *)

Lemma separateGameContent_nonempty content :
  content <> "" ->
  (separateGameContent content).1 <> "" /\ (separateGameContent content).2 <> "".
Proof.
  intros Hne. unfold separateGameContent. cbn [fst snd]. split.
  - destruct (Str.empty (worldContent _)) eqn:E; [exact Hne|].
    apply empty_false. exact E.
  - destruct (Str.empty (stateContent _)) eqn:E; [discriminate|].
    apply empty_false. exact E.
Qed.

(** Extra X10.  A [create_game] request for which the daemon returns some text, in
    a data directory where the two files of the new id can be written, is
    answered with the generated id, and the game can be played at once: its
    world file and its state file hold the two parts of the text, neither of
    them empty, the game is listed, and no file of another game changes. *)
Theorem created_game_is_stored_and_listed env npl user data idx peers c :
  reachable c ->
  isDaemonRunning env = true -> isModelReady env = true ->
  createGame env data <> "" ->
  let gid := generateGameId (std_hash env) (fs c) data "" in
  writable (fs c) WorldFile gid = true ->
  writable (fs c) StateFile gid = true ->
  let final := (process_game_message env npl user "create_game" data idx peers c).1.1 in
  let parts := separateGameContent (createGame env data) in
  user_msgs final = (user_msgs c ++ [(user, MsgGameCreated gid "success")])%list
  /\ loadGameWorld gid (fs final) = parts.1
  /\ loadGameState gid (fs final) = parts.2
  /\ parts.1 <> "" /\ parts.2 <> ""
  /\ gid ∈ listGames (fs final)
  /\ forall g, g <> gid ->
       worlds (fs final) !! g = worlds (fs c) !! g
       /\ states (fs final) !! g = states (fs c) !! g.
Proof.
  intros Hreach Hrun Hready Hne gid Hw Hs final parts.
  destruct (reachable_node_ok c Hreach) as ((Hc & Hm & _) & _).
  assert (Hfinal : final
    = hp_write_user_msg user (MsgGameCreated gid "success")
        (set_fs (set_states (<[gid := parts.2]> (states (fs c)))
                   (set_worlds (<[gid := parts.1]> (worlds (fs c))) (fs c))) c)).
  { unfold final, process_game_message.
    rewrite Hc, Hm, Hrun, Hready. cbn [negb orb andb String.eqb].
    unfold createGameBranch.
    destruct (Str.empty (createGame env data)) eqn:E.
    { apply empty_true in E. contradiction. }
    cbn [negb]. fold gid. fold parts. destruct parts as [w s]. cbn [fst snd].
    unfold saveGameWorld. rewrite Hw.
    unfold saveGameState. cbn [writable set_worlds]. rewrite Hs. reflexivity. }
  rewrite Hfinal. cbn [user_msgs fs hp_write_user_msg set_fs].
  destruct (separateGameContent_nonempty _ Hne) as [Hp1 Hp2]. fold parts in Hp1, Hp2.
  split; [reflexivity|].
  split; [unfold loadGameWorld; cbn; rewrite lookup_insert_eq; reflexivity|].
  split; [unfold loadGameState; cbn; rewrite lookup_insert_eq; reflexivity|].
  split; [exact Hp1|]. split; [exact Hp2|]. split.
  - unfold listGames. cbn [worlds set_states set_worlds].
    apply list_elem_of_filter. split; [apply generateGameId_nonempty|].
    apply (list_elem_of_fmap_2' fst _ (gid, parts.1)); [|reflexivity].
    apply elem_of_map_to_list. apply lookup_insert_eq.
  - intros g Hg. cbn. rewrite !lookup_insert_ne by congruence. split; reflexivity.
Qed.

Lemma created_game_is_stored_and_listed_witness :
  let gid := generateGameId (fun _ => 4234567%N) (fs node0) "cave survival" "" in
  let final := (process_game_message (env_with true true "") [] 0%nat
                  "create_game" "cave survival" 0 1 node0).1.1 in
  let parts := separateGameContent cave_story in
  user_msgs final = (user_msgs node0 ++ [(0%nat, MsgGameCreated gid "success")])%list
  /\ loadGameWorld gid (fs final) = parts.1
  /\ loadGameState gid (fs final) = parts.2
  /\ parts.1 <> "" /\ parts.2 <> ""
  /\ gid ∈ listGames (fs final)
  /\ forall g, g <> gid ->
       worlds (fs final) !! g = worlds (fs node0) !! g
       /\ states (fs final) !! g = states (fs node0) !! g.
Proof.
  refine (created_game_is_stored_and_listed (env_with true true "") [] 0%nat
            "cave survival" 0 1 node0 _ _ _ _ _ _).
  - exact node0_reachable.
  - reflexivity.
  - reflexivity.
  - discriminate.
  - reflexivity.
  - reflexivity.
Defined.

(** *** [player_action]: answers that are not taken, requests that stay open *)




Example refused_move_reports_success :
  exists response,
    last (user_msgs refused_move.1.1)
    = Some (0%nat, MsgEnhanced response cave_game "move north"
                     (loadGameState cave_game (fs node1)) "success").
Proof. vm_compute. eexists. reflexivity. Qed.




(** *** The wait loop *)

(** Extra X13.  [waitForJuryConsensus] hands the votes to [process_jury_vote] in
    the order they come and stops reading at the first moment the request is
    resolved: the votes after that one are left unread, no shorter run of the
    votes resolves the request, and the loop reports consensus exactly when
    the request is resolved (when the votes run out first, none is left). *)
Theorem wait_reads_votes_until_consensus env idx peers : forall npl c,
  let result := waitForJuryConsensus env npl idx peers c in
  let after votes :=
    fold_left (fun node vote => process_jury_vote env vote peers node) votes c in
  exists used,
    npl = (used ++ result.1.2)%list
    /\ result.1.1 = after used
    /\ result.2 = isConsensusReached idx (g_aiJury result.1.1)
    /\ (result.2 = false -> result.1.2 = [])
    /\ forall k, (k < length used)%nat ->
         isConsensusReached idx (g_aiJury (after (take k used))) = false.
Proof.
  induction npl as [|v npl IH]; intros c; cbn zeta.
  - exists []. cbn [waitForJuryConsensus].
    destruct (isConsensusReached idx (g_aiJury c)) eqn:E; cbn;
      repeat split; try (symmetry; exact E); try congruence; intros; lia.
  - cbn [waitForJuryConsensus].
    destruct (isConsensusReached idx (g_aiJury c)) eqn:E.
    + exists []. cbn. repeat split; try (symmetry; exact E); try congruence.
      intros; lia.
    + destruct (IH (process_jury_vote env v peers c))
        as (used & Hsplit & Hafter & Hflag & Hrest & Hmin).
      cbn zeta in *.
      exists (v :: used). cbn [fold_left app length].
      split; [f_equal; exact Hsplit|]. split; [exact Hafter|].
      split; [exact Hflag|]. split; [exact Hrest|].
      intros [|k] Hk; [exact E|]. cbn [take fold_left]. apply Hmin. lia.
Qed.

Lemma wait_reads_votes_until_consensus_witness :
  let c := submitPlayerAction (env_with true true tunnel_state) 0%nat
             "game_1_34567:move north:false" 1001 1 node1 in
  let result :=
    waitForJuryConsensus (env_with true true tunnel_state)
      [ballot true "jury_200000"; ballot false "jury_300000"] 1001 1 c in
  let after votes :=
    fold_left
      (fun node vote =>
         process_jury_vote (env_with true true tunnel_state) vote 1 node)
      votes c in
  exists used,
    [ballot true "jury_200000"; ballot false "jury_300000"]
    = (used ++ result.1.2)%list
    /\ result.1.1 = after used
    /\ result.2 = isConsensusReached 1001 (g_aiJury result.1.1)
    /\ (result.2 = false -> result.1.2 = [])
    /\ forall k, (k < length used)%nat ->
         isConsensusReached 1001 (g_aiJury (after (take k used))) = false.
Proof.
  exact (wait_reads_votes_until_consensus (env_with true true tunnel_state)
           1001 1 [ballot true "jury_200000"; ballot false "jury_300000"]
           (submitPlayerAction (env_with true true tunnel_state) 0%nat
              "game_1_34567:move north:false" 1001 1 node1)).
Defined.

Example wait_leaves_late_votes :
  (waitForJuryConsensus (env_with true true tunnel_state)
     [ballot true "jury_200000"; ballot false "jury_300000"] 1001 1
     (submitPlayerAction (env_with true true tunnel_state) 0%nat
        "game_1_34567:move north:false" 1001 1 node1)).1.2
  = [ballot false "jury_300000"].
Proof. vm_compute. reflexivity. Qed.

(** *** Minting *)

(** Extra X14.  A [mint_nft] request served in a read-only round calls the minting
    client and writes nothing: the NFT data file keeps its status, so the
    same request, sent again, calls the minting client again. *)
Theorem readonly_mint_is_not_recorded env npl user data idx peers c record :
  reachable c ->
  isDaemonRunning env = true -> hp_context env = Some true ->
  nfts (fs c) !! data = Some (NftData record) ->
  isAlreadyMinted record = false ->
  let first := (process_game_message env npl user "mint_nft" data idx peers c).1.1 in
  let second :=
    (process_game_message env npl user "mint_nft" data idx peers first).1.1 in
  fs first = fs c
  /\ mint_calls first = (mint_calls c ++ [data])%list
  /\ user_msgs first
     = (user_msgs c
        ++ [(user, MsgNftMint data (MintBatch (mintNFTsForGame env data record)))])%list
  /\ fs second = fs c
  /\ mint_calls second = (mint_calls c ++ [data; data])%list.
Proof.
  intros Hreach Hrun Hctx Hfile Hminted first second.
  destruct (reachable_node_ok c Hreach) as ((Hc & Hm & _ & Hn) & _).
  assert (Hstep : forall c0,
            g_aiClient c0 = true -> g_gameManager c0 = true ->
            g_nftMintingClient c0 = true -> fs c0 = fs c ->
            (process_game_message env npl user "mint_nft" data idx peers c0).1.1
            = hp_write_user_msg user
                (MsgNftMint data (MintBatch (mintNFTsForGame env data record)))
                (record_mint_call data c0)).
  { intros c0 H1 H2 H3 H4. unfold process_game_message.
    rewrite H1, H2, Hrun. cbn [negb orb String.eqb Ascii.eqb Bool.eqb andb].
    rewrite andb_false_r. cbn [fst].
    unfold mintNftBranch. rewrite Hctx, H3. cbn [negb]. rewrite H4, Hfile, Hminted.
    reflexivity. }
  assert (Hfirst : first
            = hp_write_user_msg user
                (MsgNftMint data (MintBatch (mintNFTsForGame env data record)))
                (record_mint_call data c))
    by (apply Hstep; [exact Hc|exact Hm|exact Hn|reflexivity]).
  assert (Hsecond : second
            = hp_write_user_msg user
                (MsgNftMint data (MintBatch (mintNFTsForGame env data record)))
                (record_mint_call data first)).
  { apply Hstep; rewrite Hfirst; [exact Hc|exact Hm|exact Hn|reflexivity]. }
  rewrite Hsecond, Hfirst. cbn. rewrite <- app_assoc. repeat split.
Qed.

Lemma readonly_mint_is_not_recorded_witness :
  let c := winning_move.1.1 in
  let first := (process_game_message env_readonly [] 0%nat "mint_nft" cave_game
                  1002 1 c).1.1 in
  let second := (process_game_message env_readonly [] 0%nat "mint_nft" cave_game
                   1002 1 first).1.1 in
  fs first = fs c
  /\ mint_calls first = (mint_calls c ++ [cave_game])%list
  /\ user_msgs first
     = (user_msgs c ++ [(0%nat, MsgNftMint cave_game (MintBatch no_mint))])%list
  /\ fs second = fs c
  /\ mint_calls second = (mint_calls c ++ [cave_game; cave_game])%list.
Proof.
  refine (readonly_mint_is_not_recorded env_readonly [] 0%nat cave_game 1002 1
            winning_move.1.1 _ _ _ _ _ _).
  - apply reach_message. exact node1_reachable.
  - reflexivity.
  - reflexivity.
  - vm_compute. reflexivity.
  - vm_compute. reflexivity.
Defined.

(** *** The data directory *)

(** Extra X15.  In every state the contract reaches from an empty data directory,
    a game whose state [get_game_state] can show has a world file and is in
    the list of [list_games]. *)
Theorem shown_games_are_listed c gid :
  reachable c ->
  loadGameState gid (fs c) <> "" ->
  is_Some (worlds (fs c) !! gid) /\ gid ∈ listGames (fs c).
Proof.
  intros Hreach Hstate.
  destruct (reachable_node_ok c Hreach) as (_ & Hstore & _).
  pose proof (loaded_is_stored_state gid (fs c) Hstate) as Hs.
  pose proof (stored_game_id (fs c) gid Hstore Hs) as Hgid.
  destruct Hstore as [_ Hworld]. destruct (Hworld gid Hs) as [w Hw].
  split; [eexists; exact Hw|].
  unfold listGames. apply list_elem_of_filter. split; [exact Hgid|].
  apply (list_elem_of_fmap_2' fst _ (gid, w)); [|reflexivity].
  apply elem_of_map_to_list. exact Hw.
Qed.

Lemma shown_games_are_listed_witness :
  is_Some (worlds (fs node1) !! cave_game) /\ cave_game ∈ listGames (fs node1).
Proof.
  refine (shown_games_are_listed node1 cave_game _ _).
  - exact node1_reachable.
  - vm_compute. discriminate.
Defined.

End RequestFacts.

Module PayloadFacts.

Import AIJury Contract Scenario StrFacts.

(** *** Searching a colon *)

Lemma find_colon_cons c s :
  Str.find (String c s) ":" 0
  = if Ascii.eqb c ":"%char then Some 0%nat else S <$> Str.find s ":" 0.
Proof.
  unfold Str.find. cbn [String.index String.prefix].
  destruct (ascii_dec ":" c) as [<-|Hne].
  - cbn. destruct s; reflexivity.
  - destruct (Ascii.eqb_spec c ":"%char) as [->|_]; [contradiction|].
    destruct (String.index 0 ":" s); reflexivity.
Qed.

Lemma find_colon_app a r :
  Str.find a ":" 0 = None ->
  Str.find (a ++ ":" ++ r) ":" 0 = Some (String.length a).
Proof.
  induction a as [|c a IH]; intros Hno.
  - change ("" ++ ":" ++ r) with (String ":"%char r).
    rewrite find_colon_cons. reflexivity.
  - rewrite find_colon_cons in Hno.
    change (String c a ++ ":" ++ r) with (String c (a ++ ":" ++ r)).
    rewrite find_colon_cons.
    destruct (Ascii.eqb c ":"); [discriminate|].
    destruct (Str.find a ":" 0) eqn:E; [discriminate|].
    rewrite IH by reflexivity. reflexivity.
Qed.

Lemma find_colon_none_app a :
  Str.find a ":" 0 = None -> forall b, Str.find b ":" 0 = None ->
  Str.find (a ++ b) ":" 0 = None.
Proof.
  induction a as [|c a IH]; intros Hno b Hb.
  - change ("" ++ b) with b. exact Hb.
  - rewrite find_colon_cons in Hno.
    change (String c a ++ b) with (String c (a ++ b)).
    rewrite find_colon_cons.
    destruct (Ascii.eqb c ":"); [discriminate|].
    destruct (Str.find a ":" 0) eqn:E; [discriminate|].
    rewrite IH by (reflexivity || assumption). reflexivity.
Qed.

Lemma find_after a r :
  Str.find (a ++ ":" ++ r) ":" (String.length a + 1)
  = (fun p => (String.length a + 1 + p)%nat) <$> Str.find r ":" 0.
Proof.
  induction a as [|c a IH].
  - change ("" ++ ":" ++ r) with (String ":"%char r).
    unfold Str.find. cbn [String.length Nat.add String.index].
    destruct (String.index 0 ":" r); reflexivity.
  - change (String c a ++ ":" ++ r) with (String c (a ++ ":" ++ r)).
    unfold Str.find in *. cbn [String.length Nat.add String.index].
    rewrite IH. destruct (String.index 0 ":" r); reflexivity.
Qed.

Lemma substring_prefix a r :
  String.substring 0 (String.length a) (a ++ r) = a.
Proof.
  induction a as [|c a IH].
  - change ("" ++ r) with r. destruct r; reflexivity.
  - change (String c a ++ r) with (String c (a ++ r)).
    cbn [String.length String.substring]. rewrite IH. reflexivity.
Qed.

Lemma substring_skip a n r :
  String.substring (String.length a) n (a ++ r) = String.substring 0 n r.
Proof.
  induction a as [|c a IH]; [reflexivity|].
  change (String c a ++ r) with (String c (a ++ r)).
  cbn [String.length String.substring]. exact IH.
Qed.

Lemma substring_all r : String.substring 0 (String.length r) r = r.
Proof. induction r as [|c r IH]; cbn; [reflexivity|]. rewrite IH. reflexivity. Qed.

Lemma length_app a b :
  String.length (a ++ b) = (String.length a + String.length b)%nat.
Proof.
  induction a as [|c a IH]; [reflexivity|].
  change (String c a ++ b) with (String c (a ++ b)).
  cbn [String.length]. rewrite IH. reflexivity.
Qed.

Lemma substr_from_app a r :
  Str.substr_from (a ++ r) (String.length a) = r.
Proof.
  unfold Str.substr_from. rewrite substring_skip, length_app.
  replace (String.length a + String.length r - String.length a)%nat
    with (String.length r) by lia.
  apply substring_all.
Qed.

Lemma app_assoc_str a b c : (a ++ b) ++ c = a ++ (b ++ c).
Proof.
  induction a as [|x a IH]; [reflexivity|].
  change ((String x a ++ b) ++ c) with (String x ((a ++ b) ++ c)).
  change (String x a ++ (b ++ c)) with (String x (a ++ (b ++ c))).
  rewrite IH. reflexivity.
Qed.

(** Extra X16.  [process_game_message] recovers the game id, the action text and
    the continuation flag from a payload ["id:action:flag"] or ["id:action"]
    whenever neither the id nor the action text holds a colon; the flag is
    on exactly for "true" and "1". *)
Theorem player_payload_round_trip (gid act flag : string) :
  Str.contains gid ":" = false ->
  Str.contains act ":" = false ->
  parsePlayerData (gid ++ ":" ++ act ++ ":" ++ flag)
  = Some (gid, act, String.eqb flag "true" || String.eqb flag "1")
  /\ parsePlayerData (gid ++ ":" ++ act) = Some (gid, act, false).
Proof.
  unfold Str.contains. intros Hgid Hact.
  destruct (Str.find gid ":" 0) eqn:Eg; [discriminate|].
  destruct (Str.find act ":" 0) eqn:Ea; [discriminate|].
  assert (Hlen1 : (String.length gid + 1)%nat = String.length (gid ++ ":")).
  { rewrite length_app. reflexivity. }
  split; unfold parsePlayerData.
  - rewrite (find_colon_app gid (act ++ ":" ++ flag) Eg).
    rewrite find_after. rewrite (find_colon_app act flag Ea).
    cbn [fmap option_fmap option_map].
    rewrite substring_prefix.
    replace (String.length gid + 1 + String.length act - String.length gid - 1)%nat
      with (String.length act) by lia.
    replace (String.length gid + 1 + String.length act + 1)%nat
      with (String.length ((gid ++ ":") ++ act ++ ":")).
    2:{ rewrite !length_app. cbn [String.length]. lia. }
    rewrite Hlen1.
    replace (gid ++ ":" ++ act ++ ":" ++ flag)
      with ((gid ++ ":") ++ act ++ ":" ++ flag) by apply app_assoc_str.
    rewrite substring_skip, substring_prefix.
    replace ((gid ++ ":") ++ act ++ ":" ++ flag)
      with (((gid ++ ":") ++ act ++ ":") ++ flag).
    2:{ rewrite !app_assoc_str. reflexivity. }
    rewrite substr_from_app. reflexivity.
  - rewrite (find_colon_app gid act Eg). rewrite find_after, Ea.
    cbn [fmap option_fmap option_map].
    rewrite substring_prefix. rewrite Hlen1.
    replace (gid ++ ":" ++ act) with ((gid ++ ":") ++ act) by apply app_assoc_str.
    rewrite substr_from_app. reflexivity.
Qed.

Lemma player_payload_round_trip_witness :
  parsePlayerData ("game_1_34567" ++ ":" ++ "move north" ++ ":" ++ "true")
  = Some ("game_1_34567", "move north",
          String.eqb "true" "true" || String.eqb "true" "1")
  /\ parsePlayerData ("game_1_34567" ++ ":" ++ "move north")
     = Some ("game_1_34567", "move north", false).
Proof.
  refine (player_payload_round_trip "game_1_34567" "move north" "true" _ _);
    reflexivity.
Defined.

End PayloadFacts.

Module OutputFacts.

Import Output.

Lemma escape_cons c rest :
  escapeJsonForOutput (String c rest) = escapeChar c ++ escapeJsonForOutput rest.
Proof. reflexivity. Qed.

(** Extra X17.  [escapeJsonForOutput] loses nothing: a reader that turns the
    seven two-character escapes back into their characters recovers the
    text that was escaped, and finds neither a bare double quote nor a bare
    backspace, form feed, line feed, carriage return or tab in it.  Two
    different texts are therefore never escaped to the same text. *)
Theorem escapeJsonForOutput_round_trip (str : string) :
  unescape (escapeJsonForOutput str) = Some str.
Proof.
  induction str as [|c rest IH]; [reflexivity|].
  rewrite escape_cons. unfold escapeChar.
  destruct (Ascii.eqb_spec c quote) as [->|Hq].
  { change (unescape (String backslash (String quote (escapeJsonForOutput rest)))
            = Some (String quote rest)).
    cbn [unescape]. rewrite IH. reflexivity. }
  destruct (Ascii.eqb_spec c backslash) as [->|Hb].
  { change (unescape (String backslash
                        (String backslash (escapeJsonForOutput rest)))
            = Some (String backslash rest)).
    cbn [unescape]. rewrite IH. reflexivity. }
  destruct (Ascii.eqb_spec c backspace) as [->|Hbs].
  { change (unescape (String backslash (String "b" (escapeJsonForOutput rest)))
            = Some (String backspace rest)).
    cbn [unescape]. rewrite IH. reflexivity. }
  destruct (Ascii.eqb_spec c formfeed) as [->|Hff].
  { change (unescape (String backslash (String "f" (escapeJsonForOutput rest)))
            = Some (String formfeed rest)).
    cbn [unescape]. rewrite IH. reflexivity. }
  destruct (Ascii.eqb_spec c Str.lf) as [->|Hlf].
  { change (unescape (String backslash (String "n" (escapeJsonForOutput rest)))
            = Some (String Str.lf rest)).
    cbn [unescape]. rewrite IH. reflexivity. }
  destruct (Ascii.eqb_spec c Str.cr) as [->|Hcr].
  { change (unescape (String backslash (String "r" (escapeJsonForOutput rest)))
            = Some (String Str.cr rest)).
    cbn [unescape]. rewrite IH. reflexivity. }
  destruct (Ascii.eqb_spec c Str.tab) as [->|Htab].
  { change (unescape (String backslash (String "t" (escapeJsonForOutput rest)))
            = Some (String Str.tab rest)).
    cbn [unescape]. rewrite IH. reflexivity. }
  change (unescape (String c (escapeJsonForOutput rest)) = Some (String c rest)).
  cbn [unescape]. unfold must_escape.
  destruct (Ascii.eqb_spec c backslash); [contradiction|].
  destruct (Ascii.eqb_spec c quote); [contradiction|].
  destruct (Ascii.eqb_spec c backspace); [contradiction|].
  destruct (Ascii.eqb_spec c formfeed); [contradiction|].
  destruct (Ascii.eqb_spec c Str.lf); [contradiction|].
  destruct (Ascii.eqb_spec c Str.cr); [contradiction|].
  destruct (Ascii.eqb_spec c Str.tab); [contradiction|].
  cbn [orb]. rewrite IH. reflexivity.
Qed.

End OutputFacts.

Module SubstringFacts.

Import Str StrFacts.

Lemma substring_empty n m : String.substring n m "" = "".
Proof. destruct n, m; reflexivity. Qed.

Lemma substring_substring (s : string) : forall p n q m,
  q + m <= n ->
  String.substring q m (String.substring p n s) = String.substring (p + q) m s.
Proof.
  induction s as [|c s IH]; intros p n q m Hle.
  - rewrite !substring_empty. reflexivity.
  - destruct p as [|p].
    + destruct n as [|n].
      * assert (q = 0) as -> by lia. assert (m = 0) as -> by lia. reflexivity.
      * cbn [String.substring Nat.add]. destruct q as [|q].
        -- destruct m as [|m]; [reflexivity|].
           cbn [String.substring]. rewrite (IH 0 n 0 m) by lia. reflexivity.
        -- cbn [String.substring]. rewrite (IH 0 n q m) by lia. reflexivity.
    + cbn [String.substring Nat.add]. apply IH. exact Hle.
Qed.

Lemma contains_intro s needle q :
  needle <> "" ->
  String.substring q (String.length needle) s = needle ->
  contains s needle = true.
Proof.
  intros Hne Hocc. unfold contains.
  destruct (find s needle 0) eqn:E; [reflexivity|].
  exfalso. exact (find_None s needle 0 Hne E q ltac:(lia) Hocc).
Qed.

Lemma contains_elim s needle :
  contains s needle = true ->
  exists q, String.substring q (String.length needle) s = needle.
Proof.
  unfold contains. destruct (find s needle 0) as [p|] eqn:E; [|discriminate].
  intros _. exists p. apply find_Some in E. apply E.
Qed.

(** A text that holds [big] holds every piece of [big]. *)
Lemma contains_piece s big small q :
  small <> "" ->
  String.substring q (String.length small) big = small ->
  q + String.length small <= String.length big ->
  contains s big = true -> contains s small = true.
Proof.
  intros Hne Hpiece Hfit Hbig.
  destruct (contains_elim s big Hbig) as (p & Hp).
  apply (contains_intro s small (p + q) Hne).
  rewrite <- (substring_substring s p (String.length big) q
                (String.length small) Hfit).
  rewrite Hp. exact Hpiece.
Qed.

End SubstringFacts.

Module ValidationDaemonFacts.

Import ValidationDaemon SubstringFacts.

Lemma invalid_holds_valid s :
  Str.contains s "invalid" = true -> Str.contains s "valid" = true.
Proof.
  apply (contains_piece s "invalid" "valid" 2); [discriminate|reflexivity|].
  cbn. lia.
Qed.

(** Extra X18.  The validation daemon never answers "not valid" with confidence
    0.7.  Every text that holds "invalid" holds "valid", so the branch
    written for answers that say "invalid" cannot be taken: such an answer,
    unless it also holds "yes", "no", "true" or "false", is read as
    ambiguous, that is, not valid with confidence 0.3. *)
Theorem invalid_answer_is_read_as_ambiguous generateValidationResponse
    statement :
  let answer :=
    remove_spaces (Str.tolower (generateValidationResponse statement)) in
  (forall confidence raw,
     processValidation generateValidationResponse statement
     = ReplyVerdict false confidence raw -> confidence <> (7 # 10)%Q)
  /\ (statement <> "" ->
      Str.contains answer "invalid" = true ->
      Str.contains answer "yes" = false -> Str.contains answer "no" = false ->
      Str.contains answer "true" = false ->
      Str.contains answer "false" = false ->
      processValidation generateValidationResponse statement
      = ReplyVerdict false (3 # 10)%Q (generateValidationResponse statement)).
Proof.
  intros answer. unfold processValidation, parseBinaryResponse. fold answer.
  split.
  - intros confidence raw.
    destruct (Str.empty statement); [discriminate|].
    destruct (String.eqb answer "yes" || String.eqb answer "y");
      [discriminate|].
    destruct (String.eqb answer "no" || String.eqb answer "n");
      [intros [= <- _]; discriminate|].
    destruct (String.eqb answer "true"); [discriminate|].
    destruct (String.eqb answer "false"); [intros [= <- _]; discriminate|].
    destruct (Str.contains answer "yes" && negb (Str.contains answer "no"));
      [discriminate|].
    destruct (Str.contains answer "no" && negb (Str.contains answer "yes"));
      [intros [= <- _]; discriminate|].
    destruct (Str.contains answer "true" && negb (Str.contains answer "false"));
      [discriminate|].
    destruct (Str.contains answer "false" && negb (Str.contains answer "true"));
      [intros [= <- _]; discriminate|].
    destruct (Str.contains answer "valid" && negb (Str.contains answer "invalid"));
      [discriminate|].
    destruct (Str.contains answer "invalid") eqn:Hinv.
    + rewrite (invalid_holds_valid answer Hinv). cbn [negb andb].
      intros [= <- _]. discriminate.
    + cbn [andb]. intros [= <- _]. discriminate.
  - intros Hst Hinv Hyes Hno Htrue Hfalse.
    destruct (Str.empty statement) eqn:E.
    { destruct statement; [congruence|discriminate]. }
    assert (Hne : forall w, Str.contains answer w = false -> w <> "" ->
                            String.eqb answer w = false).
    { intros w Hw Hwne. destruct (String.eqb_spec answer w) as [->|]; [|reflexivity].
      exfalso. assert (Str.contains w w = true); [|congruence].
      apply (contains_intro w w 0 Hwne).
      clear. induction w as [|c w IH]; [reflexivity|]. cbn. rewrite IH. reflexivity. }
    rewrite (Hne "yes" Hyes), (Hne "no" Hno), (Hne "true" Htrue),
            (Hne "false" Hfalse) by discriminate.
    assert (Hy : String.eqb answer "y" = false).
    { destruct (String.eqb_spec answer "y") as [Heq|]; [|reflexivity].
      rewrite Heq in Hinv. discriminate. }
    assert (Hn : String.eqb answer "n" = false).
    { destruct (String.eqb_spec answer "n") as [Heq|]; [|reflexivity].
      rewrite Heq in Hinv. discriminate. }
    rewrite Hy, Hn, Hyes, Hno, Htrue, Hfalse, Hinv.
    rewrite (invalid_holds_valid answer Hinv). reflexivity.
Qed.

Lemma invalid_answer_is_read_as_ambiguous_witness :
  processValidation (fun _ => "Invalid.") "statement"
  = ReplyVerdict false (3 # 10)%Q "Invalid.".
Proof.
  refine (proj2 (invalid_answer_is_read_as_ambiguous (fun _ => "Invalid.")
                   "statement") _ _ _ _ _ _);
    (discriminate || reflexivity).
Defined.

Lemma tolower_char_idem c :
  Str.tolower_char (Str.tolower_char c) = Str.tolower_char c.
Proof. destruct c as [[] [] [] [] [] [] [] []]; reflexivity. Qed.

Lemma tolower_char_space c : isspace (Str.tolower_char c) = isspace c.
Proof. destruct c as [[] [] [] [] [] [] [] []]; reflexivity. Qed.

Lemma clean_tolower s :
  remove_spaces (Str.tolower (Str.tolower s)) = remove_spaces (Str.tolower s).
Proof.
  induction s as [|c s IH]; [reflexivity|].
  cbn [Str.tolower remove_spaces]. rewrite tolower_char_idem, IH. reflexivity.
Qed.

Lemma clean_remove_spaces s :
  remove_spaces (Str.tolower (remove_spaces s)) = remove_spaces (Str.tolower s).
Proof.
  induction s as [|c s IH]; [reflexivity|].
  cbn [Str.tolower remove_spaces].
  destruct (isspace c) eqn:E.
  - rewrite tolower_char_space, E. exact IH.
  - cbn [Str.tolower remove_spaces]. rewrite tolower_char_space, E, IH.
    reflexivity.
Qed.

(** Extra X19.  The verdict read from the answer of the model depends neither on
    the case of its letters nor on the white space in it. *)
Theorem verdict_ignores_case_and_spaces (ai_response : string) :
  parseBinaryResponse (Str.tolower ai_response) = parseBinaryResponse ai_response
  /\ parseBinaryResponse (remove_spaces ai_response)
     = parseBinaryResponse ai_response.
Proof.
  unfold parseBinaryResponse. rewrite clean_tolower, clean_remove_spaces.
  split; reflexivity.
Qed.

End ValidationDaemonFacts.

Module NFTMintingFacts.

Import Contract NFTMinting Output AIDaemonFacts.

Lemma find_char_cons d c s :
  Str.find (String c s) (String d EmptyString) 0
  = if Ascii.eqb c d then Some 0%nat
    else S <$> Str.find s (String d EmptyString) 0.
Proof.
  unfold Str.find. cbn [String.index String.prefix].
  destruct (ascii_dec d c) as [<-|Hne].
  - rewrite Ascii.eqb_refl. destruct s; reflexivity.
  - destruct (Ascii.eqb_spec c d) as [->|_]; [contradiction|].
    destruct (String.index 0 (String d EmptyString) s); reflexivity.
Qed.

Lemma all_chars_no_char d s :
  Str.all_chars (fun c => negb (Ascii.eqb c d)) s = true
  <-> Str.contains s (String d EmptyString) = false.
Proof.
  unfold Str.contains. induction s as [|c s IH].
  - split; reflexivity.
  - rewrite find_char_cons. cbn [Str.all_chars].
    destruct (Ascii.eqb c d); cbn [negb andb].
    + split; discriminate.
    + rewrite IH. destruct (Str.find s (String d EmptyString) 0); cbn;
        split; auto.
Qed.

(** *** Items keep no comma *)

Lemma getitems_no_delim delim s :
  Forall (fun item => Str.all_chars (fun c => negb (Ascii.eqb c delim)) item = true)
    (getitems delim s).
Proof.
  induction s as [|c s IH]; cbn [getitems]; [constructor|].
  destruct (Ascii.eqb c delim) eqn:E.
  - constructor; [reflexivity|exact IH].
  - destruct (getitems delim s) as [|item rest].
    + constructor; [|constructor]. cbn. rewrite E. reflexivity.
    + inversion IH as [|? ? Hitem Hrest]; subst.
      constructor; [|exact Hrest]. cbn. rewrite E, Hitem. reflexivity.
Qed.

Lemma all_chars_drop_leading q p s :
  Str.all_chars q s = true -> Str.all_chars q (drop_leading p s) = true.
Proof.
  induction s as [|c s IH]; [reflexivity|]. cbn [drop_leading].
  intros H. destruct (p c); [|exact H].
  apply IH. cbn in H. apply andb_prop in H. apply H.
Qed.

Lemma all_chars_drop_trailing q p s :
  Str.all_chars q s = true -> Str.all_chars q (drop_trailing p s) = true.
Proof.
  induction s as [|c s IH]; [reflexivity|]. cbn [drop_trailing Str.all_chars].
  intros H. apply andb_prop in H as [Hc Hs]. specialize (IH Hs).
  destruct (drop_trailing p s) as [|d t].
  - destruct (p c); [reflexivity|]. cbn. rewrite Hc. reflexivity.
  - cbn [Str.all_chars]. rewrite Hc. exact IH.
Qed.

Lemma all_chars_pop_back q s :
  Str.all_chars q s = true -> Str.all_chars q (pop_back s) = true.
Proof.
  induction s as [|c s IH]; [reflexivity|]. cbn [pop_back Str.all_chars].
  intros H. apply andb_prop in H as [Hc Hs]. specialize (IH Hs).
  destruct s as [|d t]; [reflexivity|].
  cbn [Str.all_chars]. rewrite Hc. exact IH.
Qed.

Lemma all_chars_strip_front q c s :
  Str.all_chars q s = true -> Str.all_chars q (strip_front c s) = true.
Proof.
  destruct s as [|x r]; [reflexivity|]. cbn [strip_front].
  intros H. destruct (Ascii.eqb x c); [|exact H].
  cbn in H. apply andb_prop in H. apply H.
Qed.

Lemma all_chars_strip_back q c s :
  Str.all_chars q s = true -> Str.all_chars q (strip_back c s) = true.
Proof.
  intros H. unfold strip_back. destruct (Str.last_char s) as [x|]; [|exact H].
  destruct (Ascii.eqb x c); [|exact H]. apply all_chars_pop_back. exact H.
Qed.

(** Extra X20.  No item that [parseInventoryItems] returns is empty, and none
    holds a comma, whatever the inventory string. *)
Theorem parsed_items_are_not_empty (inventory : string) :
  Forall (fun item => item <> "" /\ Str.contains item "," = false)
    (parseInventoryItems inventory).
Proof.
  unfold parseInventoryItems.
  pose proof (getitems_no_delim ","%char
                (strip_back "]" (strip_front "[" inventory))) as Hall.
  induction Hall as [|item rest Hitem _ IH]; [constructor|].
  cbn [omap list_omap]. unfold cleanItem at 1.
  destruct (Str.empty _) eqn:E; [exact IH|].
  constructor; [|exact IH]. split.
  - destruct (strip_back quote _); [discriminate|discriminate].
  - apply (all_chars_no_char ","%char).
    apply all_chars_strip_back, all_chars_strip_front,
      all_chars_drop_trailing, all_chars_drop_leading. exact Hitem.
Qed.

(** *** From [mintItemList] to [parseInventoryItems] and back *)

Lemma getitems_app d a r :
  Str.contains a (String d EmptyString) = false ->
  getitems d (a ++ String d r) = a :: getitems d r.
Proof.
  intros Hno. apply all_chars_no_char in Hno.
  induction a as [|c a IH].
  - change ("" ++ String d r) with (String d r). cbn [getitems].
    rewrite Ascii.eqb_refl. reflexivity.
  - change (String c a ++ String d r) with (String c (a ++ String d r)).
    cbn [getitems]. cbn in Hno. apply andb_prop in Hno as [Hc Ha].
    destruct (Ascii.eqb c d); [discriminate|].
    rewrite (IH Ha). reflexivity.
Qed.

Lemma getitems_one d a :
  Str.contains a (String d EmptyString) = false -> a <> "" ->
  getitems d a = [a].
Proof.
  intros Hno. apply all_chars_no_char in Hno.
  induction a as [|c a IH]; [congruence|]. intros _.
  cbn [getitems]. cbn in Hno. apply andb_prop in Hno as [Hc Ha].
  destruct (Ascii.eqb c d); [discriminate|].
  destruct a as [|x a]; [reflexivity|].
  rewrite (IH Ha) by discriminate. reflexivity.
Qed.

Lemma last_char_snoc x c : Str.last_char (x ++ String c EmptyString) = Some c.
Proof.
  induction x as [|y x IH]; [reflexivity|].
  change (String y x ++ String c "") with (String y (x ++ String c "")).
  rewrite last_char_cons; [exact IH|].
  destruct x; discriminate.
Qed.

Lemma pop_back_snoc x c : pop_back (x ++ String c EmptyString) = x.
Proof.
  induction x as [|y x IH]; [reflexivity|].
  change (String y x ++ String c "") with (String y (x ++ String c "")).
  cbn [pop_back]. destruct (x ++ String c "") eqn:E.
  - destruct x; discriminate.
  - rewrite IH. reflexivity.
Qed.

Lemma strip_back_snoc x c : strip_back c (x ++ String c EmptyString) = x.
Proof.
  unfold strip_back. rewrite last_char_snoc, Ascii.eqb_refl.
  apply pop_back_snoc.
Qed.

Lemma drop_trailing_id p n x :
  Str.last_char n = Some x -> p x = false -> drop_trailing p n = n.
Proof.
  induction n as [|c n IH]; [discriminate|]. intros Hlast Hp.
  cbn [drop_trailing]. destruct n as [|d t].
  - cbn in Hlast. injection Hlast as ->. cbn. rewrite Hp. reflexivity.
  - rewrite last_char_cons in Hlast by discriminate.
    rewrite (IH Hlast Hp). reflexivity.
Qed.

Lemma plain_name_inv name :
  plain_name name = true ->
  Str.contains name "," = false
  /\ exists c rest x,
       name = String c rest /\ is_blank c = false /\ Ascii.eqb c quote = false
       /\ Str.last_char name = Some x /\ is_blank x = false
       /\ Ascii.eqb x quote = false.
Proof.
  unfold plain_name. intros H.
  apply andb_prop in H as [H Hlast]. apply andb_prop in H as [Hno Hfirst].
  split; [destruct (Str.contains name ","); [discriminate|reflexivity]|].
  destruct name as [|c rest]; [discriminate|].
  destruct (Str.last_char (String c rest)) as [x|]; [|discriminate].
  cbn in Hfirst. apply andb_prop in Hfirst as [Hb Hq].
  cbn in Hlast. apply andb_prop in Hlast as [Hb' Hq'].
  exists c, rest, x. repeat split; try reflexivity.
  - destruct (is_blank c); [discriminate|reflexivity].
  - destruct (Ascii.eqb c quote); [discriminate|reflexivity].
  - destruct (is_blank x); [discriminate|reflexivity].
  - destruct (Ascii.eqb x quote); [discriminate|reflexivity].
Qed.

Lemma cleanItem_plain name :
  plain_name name = true ->
  cleanItem name = Some name /\ cleanItem (String " " name) = Some name.
Proof.
  intros H. destruct (plain_name_inv name H)
    as (_ & c & rest & x & -> & Hb & Hq & Hlast & Hbx & Hqx).
  assert (Hclean : cleanItem (String c rest) = Some (String c rest)).
  { unfold cleanItem. cbn [drop_leading]. rewrite Hb.
    rewrite (drop_trailing_id is_blank _ x Hlast Hbx).
    cbn [strip_front]. rewrite Hq. unfold strip_back. rewrite Hlast, Hqx.
    reflexivity. }
  split; [exact Hclean|].
  unfold cleanItem in *. cbn [drop_leading]. cbn [is_blank Ascii.eqb Bool.eqb orb].
  cbn [drop_leading] in Hclean. exact Hclean.
Qed.

Lemma joinItems_nonempty name rest :
  plain_name name = true -> joinItems (name :: rest) <> "".
Proof.
  intros H. destruct (plain_name_inv name H) as (_ & c & r & x & -> & _).
  destruct rest; cbn [joinItems]; discriminate.
Qed.

Lemma getitems_join names :
  Forall (fun name => plain_name name = true) names ->
  getitems "," (joinItems names)
  = match names with
    | [] => []
    | name :: rest => name :: map (String " ") rest
    end.
Proof.
  induction 1 as [|name rest Hname Hrest IH]; [reflexivity|].
  destruct (plain_name_inv name Hname) as (Hno & c & r & x & Hn & _).
  destruct rest as [|next rest].
  - cbn [joinItems map]. apply getitems_one; [exact Hno|]. rewrite Hn. discriminate.
  - change (joinItems (name :: next :: rest))
      with (name ++ String "," (String " " (joinItems (next :: rest)))).
    rewrite (getitems_app ","%char name _ Hno).
    cbn [getitems]. cbn [Ascii.eqb Bool.eqb]. rewrite IH. reflexivity.
Qed.

(** Extra X21.  The inventory string that [mintItemList] writes for a list of
    item names is parsed back by [parseInventoryItems] to the same list,
    provided no name holds a comma or starts or ends with a space, a tab or
    a double quote. *)
Theorem inventory_string_round_trip (itemNames : list string) :
  Forall (fun name => plain_name name = true) itemNames ->
  parseInventoryItems (inventoryString itemNames) = itemNames.
Proof.
  intros Hall. unfold parseInventoryItems, inventoryString.
  change ("[" ++ joinItems itemNames ++ "]")
    with (String "[" (joinItems itemNames ++ "]")).
  cbn [strip_front Ascii.eqb Bool.eqb]. rewrite strip_back_snoc.
  rewrite (getitems_join itemNames Hall).
  destruct Hall as [|name rest Hname Hrest]; [reflexivity|].
  cbn [omap list_omap]. rewrite (proj1 (cleanItem_plain name Hname)).
  f_equal. induction Hrest as [|next rest Hnext _ IH]; [reflexivity|].
  cbn [map omap list_omap]. rewrite (proj2 (cleanItem_plain next Hnext)).
  f_equal. exact IH.
Qed.

Lemma inventory_string_round_trip_witness :
  parseInventoryItems (inventoryString ["torch"; "gold coin"; "magic_key"])
  = ["torch"; "gold coin"; "magic_key"].
Proof.
  refine (inventory_string_round_trip ["torch"; "gold coin"; "magic_key"] _).
  repeat constructor.
Defined.

Example parse_game_inventory :
  parseInventoryItems "[torch, gold coin]" = ["torch"; "gold coin"].
Proof. reflexivity. Qed.

End NFTMintingFacts.

Module GenerationFacts.

Import AIDaemon Generation Scenario StrFacts AIDaemonFacts PayloadFacts
  SubstringFacts.

Lemma app_empty_r s : s ++ "" = s.
Proof.
  induction s as [|c s IH]; [reflexivity|].
  change (String c s ++ "") with (String c (s ++ "")). rewrite IH. reflexivity.
Qed.

Lemma generate_cons piece pieces response :
  generate (piece :: pieces) response
  = if stops (response ++ piece) then response ++ piece
    else generate pieces (response ++ piece).
Proof.
  cbn [generate]. unfold stops.
  destruct (Str.contains (response ++ piece) end_marker_text); [reflexivity|].
  destruct (Str.contains (response ++ piece) "<|eot_id|>"); reflexivity.
Qed.

Lemma generate_prefix : forall pieces response,
  exists k,
    (k <= length pieces)%nat
    /\ generate pieces response = response ++ joined (take k pieces)
    /\ (forall j, (0 < j < k)%nat ->
          stops (response ++ joined (take j pieces)) = false)
    /\ ((k < length pieces)%nat -> stops (generate pieces response) = true).
Proof.
  induction pieces as [|piece pieces IH]; intros response.
  - exists 0%nat. cbn [generate take joined foldr length].
    rewrite app_empty_r. repeat split; intros; lia.
  - rewrite generate_cons. destruct (stops (response ++ piece)) eqn:E.
    + exists 1%nat. cbn [take joined foldr length].
      rewrite app_empty_r. repeat split; try lia. intros _. exact E.
    + destruct (IH (response ++ piece)) as (k & Hk & Heq & Hbefore & Hlast).
      exists (S k). cbn [take joined foldr length].
      fold (joined (take k pieces)).
      split; [lia|]. split; [rewrite Heq; apply app_assoc_str|].
      split.
      * intros [|j] Hj; [lia|]. cbn [take joined foldr].
        fold (joined (take j pieces)).
        destruct j as [|j].
        -- cbn [take joined foldr]. rewrite app_empty_r. exact E.
        -- rewrite <- app_assoc_str. apply Hbefore. lia.
      * intros Hlt. apply Hlast. lia.
Qed.

(** Extra X22.  The generation loop returns the pieces of the sampled tokens up
    to the first piece with which the text holds the end marker or the
    end-of-turn token, and nothing after it; it returns all the pieces only
    when no earlier piece completed one of the two. *)
Theorem generation_stops_at_first_marker (pieces : list string) :
  exists k,
    (k <= length pieces)%nat
    /\ generate pieces "" = joined (take k pieces)
    /\ (forall j, (j < k)%nat -> stops (joined (take j pieces)) = false)
    /\ ((k < length pieces)%nat -> stops (generate pieces "") = true).
Proof.
  destruct (generate_prefix pieces "") as (k & Hk & Heq & Hbefore & Hlast).
  exists k. split; [exact Hk|]. split; [exact Heq|]. split; [|exact Hlast].
  intros [|j] Hj; [reflexivity|]. apply (Hbefore (S j)). lia.
Qed.

Lemma generation_stops_at_first_marker_witness :
  exists k,
    (k <= 3)%nat
    /\ generate ["<<BEGIN_PLAYER_STATE>>a<<END_PLAYER_STATE>";
                 "><<BEGIN_PLAYER_STATE>>b"; " never appended"] ""
       = joined (take k ["<<BEGIN_PLAYER_STATE>>a<<END_PLAYER_STATE>";
                         "><<BEGIN_PLAYER_STATE>>b"; " never appended"])
    /\ (forall j, (j < k)%nat ->
          stops (joined (take j ["<<BEGIN_PLAYER_STATE>>a<<END_PLAYER_STATE>";
                                 "><<BEGIN_PLAYER_STATE>>b"; " never appended"]))
          = false)
    /\ ((k < 3)%nat ->
        stops (generate ["<<BEGIN_PLAYER_STATE>>a<<END_PLAYER_STATE>";
                         "><<BEGIN_PLAYER_STATE>>b"; " never appended"] "")
        = true).
Proof.
  exact (generation_stops_at_first_marker
           ["<<BEGIN_PLAYER_STATE>>a<<END_PLAYER_STATE>";
            "><<BEGIN_PLAYER_STATE>>b"; " never appended"]).
Defined.

End GenerationFacts.

Module ExtractionFacts.

Import AIDaemon Scenario StrFacts AIDaemonFacts PayloadFacts SubstringFacts.

Lemma substring_skip_gen a q n r :
  String.substring (String.length a + q) n (a ++ r) = String.substring q n r.
Proof.
  induction a as [|c a IH]; [reflexivity|].
  change (String c a ++ r) with (String c (a ++ r)).
  cbn [String.length Nat.add String.substring]. exact IH.
Qed.

Lemma substring_app_l (t : string) : forall r q n,
  q + n <= String.length t ->
  String.substring q n (t ++ r) = String.substring q n t.
Proof.
  induction t as [|c t IH]; intros r q n Hle.
  - cbn in Hle. assert (q = 0) as -> by lia. assert (n = 0) as -> by lia.
    change ("" ++ r) with r. destruct r; reflexivity.
  - change (String c t ++ r) with (String c (t ++ r)).
    cbn [String.length] in Hle. destruct q as [|q].
    + destruct n as [|n]; [reflexivity|]. cbn [String.substring].
      rewrite (IH r 0 n) by lia. reflexivity.
    + cbn [String.substring]. apply IH. lia.
Qed.

Lemma occurs_in_substring needle s p n q :
  needle <> "" ->
  occurs needle (String.substring p n s) q ->
  occurs needle s (p + q) /\ q + String.length needle <= n.
Proof.
  intros Hne Hocc.
  pose proof (occurs_bound needle _ q Hne Hocc) as Hb.
  rewrite substring_length in Hb.
  assert (Hfit : q + String.length needle <= n) by lia.
  split; [|exact Hfit]. unfold occurs in *.
  rewrite <- (substring_substring s p n q (String.length needle) Hfit).
  exact Hocc.
Qed.

Lemma occurs_in_trimmed needle block t q :
  needle <> "" -> trimmed_of block t -> occurs needle t q ->
  exists off, occurs needle block (off + q).
Proof.
  intros Hne (l & r & Heq & _) Hocc.
  pose proof (occurs_bound needle t q Hne Hocc) as Hb.
  exists (String.length l). unfold occurs in *. rewrite Heq.
  rewrite substring_skip_gen. rewrite substring_app_l by exact Hb. exact Hocc.
Qed.

Lemma not_contains s needle :
  (forall q, ~ occurs needle s q) -> Str.contains s needle = false.
Proof.
  intros Hno. destruct (Str.contains s needle) eqn:E; [|reflexivity].
  destruct (contains_elim s needle E) as (q & Hq). exfalso. exact (Hno q Hq).
Qed.

(** The text cut out between the last begin marker and the first end marker
    after it holds neither marker. *)
Lemma block_holds_no_marker s b e t :
  last_occurrence begin_marker_text s b ->
  Str.find s end_marker_text (b + String.length begin_marker_text) = Some e ->
  trimmed_of
    (String.substring (b + String.length begin_marker_text)
       (e - (b + String.length begin_marker_text)) s) t ->
  (forall q, ~ occurs begin_marker_text t q)
  /\ (forall q, ~ occurs end_marker_text t q).
Proof.
  intros [_ Hlast] Hfind Htrim.
  apply find_Some in Hfind as (Hle & _ & Hmin).
  split; intros q Hocc.
  - destruct (occurs_in_trimmed _ _ _ _ begin_marker_nonempty Htrim Hocc)
      as (off & Hblock).
    apply occurs_in_substring in Hblock as [Hs _];
      [|exact begin_marker_nonempty].
    apply Hlast in Hs.
    change (String.length begin_marker_text) with 22 in Hs. lia.
  - destruct (occurs_in_trimmed _ _ _ _ end_marker_nonempty Htrim Hocc)
      as (off & Hblock).
    apply occurs_in_substring in Hblock as [Hs Hfit];
      [|exact end_marker_nonempty].
    apply Hmin in Hs; [|lia].
    change (String.length end_marker_text) with 20 in Hfit. lia.
Qed.

(** Extra X23.  When the last begin marker of the model output is followed by an
    end marker, the state [processPlayerAction] returns holds neither the
    begin marker nor the end marker. *)
Theorem extracted_state_holds_no_marker (ai_response : string) :
  last_begin_closed ai_response ->
  Str.contains (extractPlayerState ai_response) begin_marker_text = false
  /\ Str.contains (extractPlayerState ai_response) end_marker_text = false.
Proof.
  intros (b & e & Hb & He & Hle).
  unfold extractPlayerState.
  pose proof (last_begin_spec ai_response) as Hlast.
  destruct (last_begin ai_response) as [b'|].
  - assert (b' = b) as -> by (eapply last_occurrence_unique; eauto).
    destruct (Str.find ai_response end_marker_text
                (b + String.length begin_marker_text)) as [e'|] eqn:Hfind.
    + destruct (block_holds_no_marker ai_response b e' _ Hb Hfind (trim_spec _))
        as [Hnb Hne].
      split; apply not_contains; assumption.
    + exfalso.
      exact (find_None _ _ _ end_marker_nonempty Hfind e Hle He).
  - exfalso. destruct Hb as [Hb _]. exact (Hlast b Hb).
Qed.

Lemma extracted_state_holds_no_marker_witness :
  Str.contains (extractPlayerState marked_output) begin_marker_text = false
  /\ Str.contains (extractPlayerState marked_output) end_marker_text = false.
Proof.
  exact (extracted_state_holds_no_marker marked_output marked_output_closed).
Defined.

(** Extra X24.  The marker extraction is idempotent: applied to a state it has
    returned, it returns that state unchanged. *)
Theorem extractPlayerState_idempotent (ai_response : string) :
  extractPlayerState (extractPlayerState ai_response)
  = extractPlayerState ai_response.
Proof.
  assert (Hraw : forall t, (forall q, ~ occurs begin_marker_text t q) ->
                           extractPlayerState t = t).
  { intros t Hno. unfold extractPlayerState.
    pose proof (last_begin_spec t) as Hlast.
    destruct (last_begin t) as [b|]; [|reflexivity].
    exfalso. destruct Hlast as [Hb _]. exact (Hno b Hb). }
  pose proof (last_begin_spec ai_response) as Hlast.
  destruct (last_begin ai_response) as [b|] eqn:Hb.
  - destruct (Str.find ai_response end_marker_text
                (b + String.length begin_marker_text)) as [e|] eqn:Hfind.
    + assert (Heq : extractPlayerState ai_response
                    = trim (String.substring
                              (b + String.length begin_marker_text)
                              (e - (b + String.length begin_marker_text))
                              ai_response)).
      { unfold extractPlayerState. rewrite Hb, Hfind. reflexivity. }
      rewrite Heq. apply Hraw.
      exact (proj1 (block_holds_no_marker ai_response b e _ Hlast Hfind
                      (trim_spec _))).
    + assert (Heq : extractPlayerState ai_response = ai_response).
      { unfold extractPlayerState. rewrite Hb, Hfind. reflexivity. }
      rewrite Heq. exact Heq.
  - assert (Heq : extractPlayerState ai_response = ai_response).
    { unfold extractPlayerState. rewrite Hb. reflexivity. }
    rewrite Heq. exact Heq.
Qed.

End ExtractionFacts.

Module FieldFacts.

Import Contract Scenario StrFacts AIDaemonFacts PayloadFacts SubstringFacts
  NFTMintingFacts.

Lemma all_chars_substring d (s : string) : forall pos n,
  (forall q, pos <= q < pos + n ->
     String.substring q 1 s <> String d EmptyString) ->
  Str.all_chars (fun c => negb (Ascii.eqb c d)) (String.substring pos n s) = true.
Proof.
  induction s as [|c s IH]; intros pos n Hno.
  - rewrite substring_empty. reflexivity.
  - destruct pos as [|pos].
    + destruct n as [|n]; [reflexivity|]. cbn [String.substring Str.all_chars].
      destruct (Ascii.eqb_spec c d) as [->|_].
      * exfalso. apply (Hno 0); [lia|]. cbn. destruct s; reflexivity.
      * cbn [negb andb]. apply IH. intros q Hq. apply (Hno (S q)). lia.
    + cbn [String.substring]. apply IH. intros q Hq. apply (Hno (S q)). lia.
Qed.

Lemma drop_trailing_last p v c :
  Str.last_char (drop_trailing p v) = Some c -> p c = false.
Proof.
  induction v as [|a v IH]; [discriminate|]. cbn [drop_trailing].
  destruct (drop_trailing p v) as [|d t] eqn:E.
  - destruct (p a) eqn:Ha; [discriminate|]. cbn. intros [= <-]. exact Ha.
  - rewrite last_char_cons by discriminate. exact IH.
Qed.

Lemma drop_trailing_first p v c :
  Str.first_char (drop_trailing p v) = Some c -> Str.first_char v = Some c.
Proof.
  destruct v as [|a v]; [discriminate|]. cbn [drop_trailing].
  destruct (drop_trailing p v); [destruct (p a); [discriminate|]|]; cbn; auto.
Qed.

Lemma substring_first (s : string) : forall pos n c,
  Str.first_char (String.substring pos n s) = Some c -> String.get pos s = Some c.
Proof.
  induction s as [|a s IH]; intros pos n c.
  - rewrite substring_empty. discriminate.
  - destruct pos as [|pos].
    + destruct n as [|n]; [discriminate|]. cbn. auto.
    + cbn [String.substring String.get]. apply IH.
Qed.

Lemma get_after_leading p (s : string) c :
  String.get (leading p s) s = Some c -> p c = false.
Proof.
  induction s as [|a s IH]; [discriminate|]. cbn [leading].
  destruct (p a) eqn:Ha; cbn [String.get]; [exact IH|].
  intros [= <-]. exact Ha.
Qed.

Lemma substr_from_cons a s k :
  Str.substr_from (String a s) (S k) = Str.substr_from s k.
Proof. reflexivity. Qed.

Lemma get_after_leading_from p (s : string) : forall pos0 c,
  String.get (pos0 + leading p (Str.substr_from s pos0)) s = Some c ->
  p c = false.
Proof.
  induction s as [|a s IH]; intros pos0 c.
  - destruct (pos0 + _)%nat; discriminate.
  - destruct pos0 as [|pos0].
    + unfold Str.substr_from. rewrite Nat.sub_0_r, substring_all.
      apply get_after_leading.
    + rewrite substr_from_cons. cbn [Nat.add String.get]. apply IH.
Qed.

(** Extra X25.  The value [extractField] returns for a field is one trimmed line:
    it holds no line feed, does not start with a space or a tab, and does
    not end with a space, a tab or a carriage return; it is empty when the
    state does not hold the field name. *)
Theorem extracted_field_is_one_trimmed_line (gameState fieldName : string) :
  let value := extractField gameState fieldName in
  Str.contains value Str.nl = false
  /\ (forall c, Str.first_char value = Some c -> is_blank c = false)
  /\ (forall c, Str.last_char value = Some c -> is_trailing_blank c = false)
  /\ (Str.contains gameState fieldName = false -> value = "").
Proof.
  intros value. unfold value, extractField, Str.contains.
  destruct (Str.find gameState fieldName 0) as [found|];
    [|repeat split; try discriminate].
  set (pos0 := (found + String.length fieldName)%nat).
  set (pos := (pos0 + leading is_blank (Str.substr_from gameState pos0))%nat).
  set (endPos := match Str.find gameState Str.nl pos with
                 | Some e => e
                 | None => String.length gameState
                 end).
  split; [|split; [|split]].
  - fold (Str.contains
            (drop_trailing is_trailing_blank
               (String.substring pos (endPos - pos) gameState)) Str.nl).
    apply (all_chars_no_char Str.lf). apply all_chars_drop_trailing.
    apply all_chars_substring. intros q Hq. unfold endPos in Hq.
    destruct (Str.find gameState Str.nl pos) as [e|] eqn:Hfind.
    + apply find_Some in Hfind as (Hle & _ & Hmin).
      intros Hocc. apply Hmin in Hocc; lia.
    + apply (find_None gameState Str.nl pos); [discriminate|exact Hfind|lia].
  - intros c Hc. apply drop_trailing_first in Hc. apply substring_first in Hc.
    exact (get_after_leading_from is_blank gameState pos0 c Hc).
  - intros c. apply drop_trailing_last.
  - discriminate.
Qed.

Lemma extracted_field_is_one_trimmed_line_witness :
  let value := extractField won_state "Player_Health:" in
  Str.contains value Str.nl = false
  /\ (forall c, Str.first_char value = Some c -> is_blank c = false)
  /\ (forall c, Str.last_char value = Some c -> is_trailing_blank c = false)
  /\ (Str.contains won_state "Player_Health:" = false -> value = "").
Proof.
  exact (extracted_field_is_one_trimmed_line won_state "Player_Health:").
Defined.

Example extract_health : extractField won_state "Player_Health:" = "80".
Proof. vm_compute. reflexivity. Qed.

End FieldFacts.

Module ModelDownloaderFacts.

Import ModelDownloader DownloadFixtures.

Lemma sourceUrl_split :
  splitUrl sourceUrl
  = Some ("huggingface.co",
          "/unsloth/gpt-oss-20b-GGUF/resolve/main/gpt-oss-20b-Q5_K_M.gguf").
Proof. vm_compute. reflexivity. Qed.

Lemma size_sub_small a b :
  (b <= a)%N -> (a < size_max)%N -> size_sub a b = (a - b)%N.
Proof.
  intros Hle Hlt. unfold size_sub.
  replace (a + size_max - b)%N with ((a - b) + 1 * size_max)%N by lia.
  rewrite N.Div0.mod_add. apply N.mod_small. lia.
Qed.

Lemma size_add_small a b : (a + b < size_max)%N -> size_add a b = (a + b)%N.
Proof. intros H. unfold size_add. apply N.mod_small. exact H. Qed.

Lemma expectedSize_fits : (expectedSize < size_max)%N.
Proof. reflexivity. Qed.

(** The range [downloadChunk] asks for when the file is short of the
    expected size. *)
Lemma chunk_range startByte :
  (startByte < expectedSize)%N ->
  let last :=
    size_sub (size_add startByte
                (N.min chunkSize (size_sub expectedSize startByte))) 1 in
  (startByte <= last)%N /\ (last < expectedSize)%N
  /\ (last - startByte < chunkSize)%N.
Proof.
  intros Hlt last. unfold last.
  pose proof expectedSize_fits as Hfit.
  assert (Hchunk : (0 < chunkSize)%N) by reflexivity.
  rewrite (size_sub_small expectedSize startByte) by lia.
  rewrite size_add_small by lia.
  rewrite size_sub_small by lia.
  lia.
Qed.

Lemma downloadChunk_requests out startByte file :
  (startByte < expectedSize)%N ->
  let requests := (downloadChunk out sourceUrl startByte file).2 in
  (length requests <= 1)%nat
  /\ Forall (fun request =>
               request.1 = startByte /\ (request.1 <= request.2)%N
               /\ (request.2 < expectedSize)%N
               /\ (request.2 - request.1 < chunkSize)%N) requests.
Proof.
  intros Hlt requests. unfold requests, downloadChunk.
  rewrite sourceUrl_split.
  pose proof (chunk_range startByte Hlt) as Hrange. cbv zeta in Hrange.
  set (last := size_sub _ 1) in *.
  assert (Hone : Forall (fun request =>
               request.1 = startByte /\ (request.1 <= request.2)%N
               /\ (request.2 < expectedSize)%N
               /\ (request.2 - request.1 < chunkSize)%N) [(startByte, last)]).
  { constructor; [|constructor]. cbn [fst snd]. split; [reflexivity|exact Hrange]. }
  destruct (http_get out _ _ startByte last) as [[status body]|];
    [|cbn [snd length]; split; [lia|exact Hone]].
  destruct (negb (status =? 206)%Z && negb (status =? 200)%Z);
    [cbn [snd length]; split; [lia|exact Hone]|].
  destruct (negb (can_append out)); cbn [snd length]; split; try lia; exact Hone.
Qed.

Lemma check_requests out d file :
  let requests := (checkAndDownloadModel out d file).2 in
  (length requests <= 1)%nat
  /\ Forall (fun request =>
               request.1 = fileSize d /\ (request.1 <= request.2)%N
               /\ (request.2 < expectedSize)%N
               /\ (request.2 - request.1 < chunkSize)%N) requests.
Proof.
  intros requests. unfold requests, checkAndDownloadModel.
  destruct (N.ltb_spec (fileSize d) expectedSize) as [Hlt|_];
    [|cbn; split; [lia|constructor]].
  pose proof (downloadChunk_requests out (fileSize d) file Hlt) as Hreq.
  cbv zeta in Hreq.
  destruct (downloadChunk out sourceUrl (fileSize d) file)
    as [[downloaded file1] reqs].
  cbn [snd] in Hreq.
  destruct downloaded; cbn [negb]; [|exact Hreq].
  destruct file1 as [content|]; [|exact Hreq].
  destruct (stat_fails_after_download out); [exact Hreq|].
  cbn [fileSize].
  destruct (expectedSize <=? file_size content)%N; [|exact Hreq].
  cbn [negb Str.empty expectedHash]. unfold verifyHashAndSetPath.
  destruct (String.eqb (sha256 out content) expectedHash); exact Hreq.
Qed.

(** Extra X26.  One run of [ensureModelDownloaded] sends the server at most one
    request.  The range it asks for starts at the size the downloader holds
    for the file (the size of the file, when it could be read), lies inside
    the expected size and is at most one chunk long. *)
Theorem one_ranged_request_per_run out d file :
  let requests := (ensureModelDownloaded out d file).2 in
  (length requests <= 1)%nat
  /\ Forall (fun request =>
               (request.1 <= request.2)%N /\ (request.2 < expectedSize)%N
               /\ (request.2 - request.1 < chunkSize)%N
               /\ (stat_fails_at_entry out = false ->
                   request.1 = match file with
                               | Some content => file_size content
                               | None => 0%N
                               end)) requests.
Proof.
  intros requests. unfold requests, ensureModelDownloaded.
  destruct (stat_fails_at_entry out).
  - destruct (check_requests out d file) as [Hlen Hall]. split; [exact Hlen|].
    eapply Forall_impl; [exact Hall|]. intros request (_ & H1 & H2 & H3).
    repeat split; try assumption. discriminate.
  - match goal with
    | |- context [N.eqb ?a expectedSize] => destruct (N.eqb a expectedSize)
    end; [cbn; split; [lia|constructor]|].
    match goal with
    | |- context [checkAndDownloadModel out ?d0 file] =>
        destruct (check_requests out d0 file) as [Hlen Hall]
    end.
    split; [exact Hlen|].
    eapply Forall_impl; [exact Hall|]. intros request (H0 & H1 & H2 & H3).
    cbn [fileSize] in H0. repeat split; try assumption. intros _. exact H0.
Qed.

Lemma one_ranged_request_per_run_witness :
  let requests := (ensureModelDownloaded small_server fresh_downloader None).2 in
  (length requests <= 1)%nat
  /\ Forall (fun request =>
               (request.1 <= request.2)%N /\ (request.2 < expectedSize)%N
               /\ (request.2 - request.1 < chunkSize)%N
               /\ (stat_fails_at_entry small_server = false ->
                   request.1 = 0%N)) requests.
Proof.
  exact (one_ranged_request_per_run small_server fresh_downloader None).
Defined.

Example first_run_requests_first_chunk :
  ensureModelDownloaded small_server fresh_downloader None
  = (false, {| fileSize := 4; modelFilePath := "" |}, Some "gguf",
     [(0%N, 268435455%N)]).
Proof. vm_compute. reflexivity. Qed.

Lemma file_size_filled n : file_size (filled n) = N.of_nat n.
Proof.
  unfold file_size. f_equal. induction n as [|n IH]; [reflexivity|].
  cbn [filled String.length]. rewrite IH. reflexivity.
Qed.

Lemma complete_file_accepted out d content :
  stat_fails_at_entry out = false ->
  file_size content = expectedSize ->
  ensureModelDownloaded out d (Some content)
  = (true, {| fileSize := file_size content; modelFilePath := filePath |},
     Some content, []).
Proof.
  intros Hstat Hsize. unfold ensureModelDownloaded. rewrite Hstat.
  cbn [fileSize]. destruct (N.eqb_spec (file_size content) expectedSize);
    [reflexivity|contradiction].
Qed.

Lemma check_true out d file d' file' requests :
  checkAndDownloadModel out d file = (true, d', file', requests) ->
  modelFilePath d' = filePath
  /\ exists content,
       file' = Some content /\ (expectedSize <= file_size content)%N
       /\ sha256 out content = expectedHash /\ length requests = 1%nat.
Proof.
  unfold checkAndDownloadModel.
  destruct (fileSize d <? expectedSize)%N; [|discriminate].
  unfold downloadChunk. rewrite sourceUrl_split.
  destruct (http_get out _ _ _ _) as [[status body]|]; [|discriminate].
  destruct (negb (status =? 206)%Z && negb (status =? 200)%Z); [discriminate|].
  destruct (negb (can_append out)); [discriminate|].
  cbn [negb]. destruct (stat_fails_after_download out); [discriminate|].
  cbn [fileSize].
  destruct (N.leb_spec expectedSize (file_size (default "" file ++ body)))
    as [Hle|_]; [|discriminate].
  cbn [negb Str.empty expectedHash]. unfold verifyHashAndSetPath.
  destruct (String.eqb_spec (sha256 out (default "" file ++ body)) expectedHash)
    as [Hhash|_]; [|discriminate].
  intros [= <- <- <-]. split; [reflexivity|].
  exists (default "" file ++ body). repeat split; assumption.
Qed.

(** Extra X27.  [ensureModelDownloaded] returns true, and sets the model path,
    only for a file that is complete.  Either the file had exactly the
    expected size when the run began (then nothing is requested and no hash
    is computed), or this run appended the chunk that brought it to the
    expected size or beyond and its SHA-256 digest is the expected one. *)
Theorem model_is_accepted_only_when_complete out d file d' file' requests :
  ensureModelDownloaded out d file = (true, d', file', requests) ->
  modelFilePath d' = filePath
  /\ exists content,
       file' = Some content
       /\ ((file = Some content /\ file_size content = expectedSize
            /\ requests = [])
           \/ ((expectedSize <= file_size content)%N
               /\ sha256 out content = expectedHash
               /\ length requests = 1%nat)).
Proof.
  unfold ensureModelDownloaded.
  destruct (stat_fails_at_entry out).
  - intros H. apply check_true in H as (Hpath & content & Hf & Hle & Hh & Hr).
    split; [exact Hpath|]. exists content. split; [exact Hf|]. right. auto.
  - cbn [fileSize].
    destruct (N.eqb_spec (match file with
                          | Some content => file_size content
                          | None => 0%N
                          end) expectedSize) as [Hsize|_].
    + intros [= <- <- <-]. split; [reflexivity|].
      destruct file as [content|]; [|discriminate].
      exists content. split; [reflexivity|]. left. auto.
    + intros H. apply check_true in H as (Hpath & content & Hf & Hle & Hh & Hr).
      split; [exact Hpath|]. exists content. split; [exact Hf|]. right. auto.
Qed.

Lemma model_is_accepted_only_when_complete_witness :
  modelFilePath
    {| fileSize := file_size complete_file; modelFilePath := filePath |}
  = filePath
  /\ exists content,
       Some complete_file = Some content
       /\ ((Some complete_file = Some content
            /\ file_size content = expectedSize /\ @nil (N * N) = [])
           \/ ((expectedSize <= file_size content)%N
               /\ sha256 small_server content = expectedHash
               /\ length (@nil (N * N)) = 1%nat)).
Proof.
  refine (model_is_accepted_only_when_complete small_server fresh_downloader
            (Some complete_file)
            {| fileSize := file_size complete_file; modelFilePath := filePath |}
            (Some complete_file) [] _).
  apply complete_file_accepted; [reflexivity|].
  unfold complete_file. rewrite file_size_filled. apply N2Nat.id.
Defined.



End ModelDownloaderFacts.
